(** * The dialogue orchestrator of ai-avatars-stream

    A shallow embedding of [src/dialog_manager.py] (class [DialogManager]) and
    of the retry loop of [src/gigachat_manager.py]
    ([GigaChatManager.generate_response]), with the loop of [main.py]
    ([AIAvatarStream.run_stream]) as far as it drives the [DialogManager].

    Python [str] values whose characters are counted, sliced or classified
    are lists of Unicode code points.  Objects are records, the instance
    state is passed explicitly, an exception is a [Raise] result and the
    outside world (HTTP layer, prompt templates, clock) is an input. *)

From Stdlib Require Import ZArith QArith Bool List Lia.
From stdpp Require Import base option list strings gmap.

Open Scope Z_scope.

(** ** Python strings *)

Definition pystr := list Z.

(** UTF-8 decoding, so that the literals of the source can be written as
    they are in the source. *)
Fixpoint utf8_go (need : nat) (acc : Z) (bs : list Z) : pystr :=
  match bs with
  | [] => []
  | b :: rest =>
    match need with
    | O =>
      if b <? 128 then b :: utf8_go 0 0 rest
      else if b <? 224 then utf8_go 1 (b - 192) rest
      else if b <? 240 then utf8_go 2 (b - 224) rest
      else utf8_go 3 (b - 240) rest
    | S O => (acc * 64 + (b - 128)) :: utf8_go 0 0 rest
    | S k => utf8_go k (acc * 64 + (b - 128)) rest
    end
  end.

Definition py (s : string) : pystr :=
  utf8_go 0 0 (map (fun a => Z.of_N (Ascii.N_of_ascii a)) (String.list_ascii_of_string s)).

(** [not s] *)
Definition falsy (s : pystr) : bool :=
  match s with
  | [] => true
  | _ :: _ => false
  end.

(** ** The Unicode character database

    [str.strip], [str.lower] and the [re] module consult the Unicode
    database.  Basic Latin (U+0000..U+007F) and the Cyrillic letters
    U+0400..U+045F, which hold every character of the program's literals,
    are transcribed here; the answers for every other code point are
    parameters of the development.  [str.lower] is taken character by
    character (the one letter whose lower case depends on its neighbours,
    the Greek capital sigma, has one of its two forms as its answer). *)

Class UnicodeExt := {
  ext_isspace : Z -> bool;          (* Py_UNICODE_ISSPACE *)
  ext_isalnum : Z -> bool;          (* Py_UNICODE_ISALNUM *)
  ext_lower : Z -> pystr;           (* [str.lower()] of the one character *)
  ext_ignorecase : Z -> Z -> bool   (* under re.IGNORECASE the character
                                       stands for the pattern character *)
}.

Definition modelled (c : Z) : bool :=
  ((0 <=? c) && (c <? 0x80)) || ((0x400 <=? c) && (c <? 0x460)).

(** All other code points are caseless symbols: the smallest database. *)
Definition plain_ext : UnicodeExt :=
  {| ext_isspace := fun _ => false;
     ext_isalnum := fun _ => false;
     ext_lower := fun c => [c];
     ext_ignorecase := fun c p => c =? p |}.

(** What the proofs about the Cyrillic patterns need to know of the code
    points outside the transcribed blocks: their lower case is not empty
    and holds no Cyrillic small letter а..я (only А..Я and а..я lower to
    these), and those that re.IGNORECASE lets stand for such a letter (its
    historic variants U+1C80..U+1C88) are letters. *)
Record unicode_laws (U : UnicodeExt) : Prop := {
  lower_not_empty : forall c, modelled c = false -> ext_lower c <> [];
  lower_not_small : forall c x, modelled c = false -> In x (ext_lower c) ->
                    ~ (0x430 <= x <= 0x44F);
  ignorecase_letter : forall c p, modelled c = false -> 0x430 <= p <= 0x44F ->
                      ext_ignorecase c p = true -> ext_isalnum c = true
}.

(** A database in which re.IGNORECASE lets no code point outside the
    blocks stand for a Cyrillic small letter. *)
Definition no_case_variants (U : UnicodeExt) : Prop :=
  forall c p, modelled c = false -> 0x430 <= p <= 0x44F -> ext_ignorecase c p = false.

(** A database with the one historic variant U+1C84 (tall te) of the
    letter т, as CPython has it: a letter, its own lower case, and under
    re.IGNORECASE the same as т. *)
Definition tall_te_ext : UnicodeExt :=
  {| ext_isspace := fun _ => false;
     ext_isalnum := fun c => c =? 0x1C84;
     ext_lower := fun c => [c];
     ext_ignorecase := fun c p => (c =? p) || ((c =? 0x1C84) && (p =? 0x442)) |}.

(** The lower case of a character of the transcribed blocks. *)
Definition tolower (c : Z) : Z :=
  if (65 <=? c) && (c <=? 90) then c + 32
  else if (0x400 <=? c) && (c <? 0x410) then c + 80
  else if (0x410 <=? c) && (c <? 0x430) then c + 32
  else c.

Section Text.
Context {U : UnicodeExt}.

Definition isspace (c : Z) : bool :=
  if modelled c
  then ((9 <=? c) && (c <=? 13)) || ((28 <=? c) && (c <=? 32))
  else ext_isspace c.

Definition isalnum (c : Z) : bool :=
  if modelled c
  then ((48 <=? c) && (c <=? 57)) || ((65 <=? c) && (c <=? 90))
       || ((97 <=? c) && (c <=? 122)) || (0x400 <=? c)
  else ext_isalnum c.

Definition lower_full (c : Z) : pystr :=
  if modelled c then [tolower c] else ext_lower c.

(** The character [c] of the text against the character [p] of a pattern
    under re.IGNORECASE: within the blocks, the same lower case. *)
Definition ignorecase_eq (c p : Z) : bool :=
  if modelled c then tolower c =? tolower p else ext_ignorecase c p.

(** [text.lower()] *)
Definition str_lower (s : pystr) : pystr := flat_map lower_full s.

(** [text.strip()] *)
Fixpoint lstrip (s : pystr) : pystr :=
  match s with
  | [] => []
  | c :: r => if isspace c then lstrip r else s
  end.

Definition rstrip (s : pystr) : pystr := rev (lstrip (rev s)).

Definition strip (s : pystr) : pystr := rstrip (lstrip s).

(** [s.startswith(p)] and [p in s] *)
Fixpoint starts_with (p s : pystr) : bool :=
  match p, s with
  | [], _ => true
  | _ :: _, [] => false
  | a :: p', b :: s' => (a =? b) && starts_with p' s'
  end.

Fixpoint contains (p s : pystr) : bool :=
  starts_with p s ||
  match s with
  | [] => false
  | _ :: r => contains p r
  end.

Definition ends_with (p s : pystr) : bool := starts_with (rev p) (rev s).

(** [text.replace(old, new)]: leftmost occurrences, not overlapping.
    [skip] counts the characters of an occurrence still to be passed
    over. *)
Fixpoint replace_aux (old new : pystr) (skip : nat) (s : pystr) : pystr :=
  match s with
  | [] => []
  | c :: r =>
    match skip with
    | S k => replace_aux old new k r
    | O =>
      if starts_with old s
      then new ++ replace_aux old new (length old - 1) r
      else c :: replace_aux old new 0 r
    end
  end.

Definition str_replace (old new s : pystr) : pystr :=
  match old with
  | [] => new ++ flat_map (fun c => c :: new) s
  | _ :: _ => replace_aux old new 0 s
  end.

(** [text.split()] on runs of white space, and [' '.join(words)] *)
Definition flush (cur : pystr) : list pystr :=
  match cur with
  | [] => []
  | _ :: _ => [cur]
  end.

Fixpoint split_ws (cur s : pystr) : list pystr :=
  match s with
  | [] => flush cur
  | c :: r => if isspace c then flush cur ++ split_ws [] r else split_ws (cur ++ [c]) r
  end.

Fixpoint join_sp (ws : list pystr) : pystr :=
  match ws with
  | [] => []
  | [w] => w
  | w :: rest => w ++ 32 :: join_sp rest
  end.

(** [text.split(']')[-1]]: what follows the last occurrence of [d]. *)
Fixpoint after_last (d : Z) (s : pystr) : pystr :=
  match s with
  | [] => []
  | c :: r => if (c =? d) || negb (forallb (fun x => negb (x =? d)) r)
              then after_last d r else s
  end.

(** ** [re.sub(r'\bLITERAL\b', repl, text, flags=re.IGNORECASE)]

    Every pattern of the source is a non-empty literal of characters of the
    transcribed blocks between two word boundaries, and no replacement has
    a back-reference: the scan goes from left to right, a match is
    replaced and the scan goes on after it. *)

(** [\w] *)
Definition is_word (c : Z) : bool := isalnum c || (c =? 95).

Definition word_opt (o : option Z) : bool :=
  match o with
  | None => false
  | Some c => is_word c
  end.

(** [\b] between the character before and the character after. *)
Definition boundary (prev next : option Z) : bool := xorb (word_opt prev) (word_opt next).

(** The literal at the start of [s], ignoring case. *)
Fixpoint lit_match (pat s : pystr) : bool :=
  match pat, s with
  | [], _ => true
  | _ :: _, [] => false
  | p :: pat', c :: s' => ignorecase_eq c p && lit_match pat' s'
  end.

Definition match_here (pat : pystr) (prev : option Z) (s : pystr) : bool :=
  boundary prev (head s)
  && lit_match pat s
  && boundary (last (take (length pat) s)) (head (drop (length pat) s)).

Fixpoint sub_aux (pat repl : pystr) (prev : option Z) (skip : nat) (s : pystr) : pystr :=
  match s with
  | [] => []
  | c :: r =>
    match skip with
    | S k => sub_aux pat repl (Some c) k r
    | O =>
      if match_here pat prev s
      then repl ++ sub_aux pat repl (Some c) (length pat - 1) r
      else c :: sub_aux pat repl (Some c) 0 r
    end
  end.

(** The empty literal, which the source never uses, is left out. *)
Definition re_sub (pat repl s : pystr) : pystr :=
  match pat with
  | [] => s
  | _ :: _ => sub_aux pat repl None 0 s
  end.

(** [re.search(r'\bLITERAL\b', text, flags=re.IGNORECASE) is not None] *)
Fixpoint search_aux (pat : pystr) (prev : option Z) (s : pystr) : bool :=
  match s with
  | [] => false
  | c :: r => match_here pat prev s || search_aux pat (Some c) r
  end.

Definition re_search (pat s : pystr) : bool :=
  match pat with
  | [] => false
  | _ :: _ => search_aux pat None s
  end.

(** ** The reply sanitizer: [DialogManager._validate_and_fix_reply] *)

Definition FORBIDDEN_WORDS : list pystr :=
  [py "дружище"; py "брат"; py "парень"; py "чувак"; py "мужик"].

(** The list [replacements] of the method, in its order. *)
Definition replacements : list (pystr * pystr) :=
  [ (py "я уверен", py "я уверена");
    (py "я был", py "я была");
    (py "я подумал", py "я подумала");
    (py "я сказал", py "я сказала");
    (py "я рад", py "я рада");
    (py "согласен", py "согласна");
    (py "хотел бы", py "хотела бы");
    (py "готов", py "готова");
    (py "уверен", py "уверена");
    (py "был", py "была");
    (py "подумал", py "подумала");
    (py "сказал", py "сказала");
    (py "рад", py "рада") ].

Definition empty_reply_filler (agent_id : pystr) : pystr :=
  if bool_decide (agent_id = py "agent_1")
  then py "[РАДОСТЬ] Интересная мысль! Продолжим обсуждение?"
  else py "[ЛЮБОПЫТСТВО] Ой, а расскажи подробнее!".

(** Step 1, the test [not text or len(text.strip()) < 5]. *)
Definition is_empty_reply (text : pystr) : bool :=
  falsy text || (length (strip text) <? 5)%nat.

(** Step 2, [text[:997] + "..."] when [len(text) > 1000]. *)
Definition cap_length (text : pystr) : pystr :=
  if (1000 <? length text)%nat then take 997 text ++ py "..." else text.

(** Step 3, the loop over [replacements] for [agent_2]. *)
Definition fix_gender (agent_id text : pystr) : pystr :=
  if bool_decide (agent_id = py "agent_2")
  then fold_left (fun fixed_text '(wrong, correct) => re_sub wrong correct fixed_text)
                 replacements text
  else text.

(** Step 4, the loop over [FORBIDDEN_WORDS]. *)
Definition fix_forbidden_word (fixed_text word : pystr) : pystr :=
  if contains word (str_lower fixed_text)
  then re_sub word (py "коллега") fixed_text
  else fixed_text.

Definition fix_forbidden (fixed_text : pystr) : pystr :=
  fold_left fix_forbidden_word FORBIDDEN_WORDS fixed_text.

Definition _validate_and_fix_reply (text agent_id : pystr) : pystr :=
  if is_empty_reply text then empty_reply_filler agent_id
  else fix_forbidden (fix_gender agent_id (cap_length text)).

(** ** The emotion tag extractor: [DialogManager._extract_emotion]

    [tags] is [[e["tag"] for e in agent_config.get("emotions", [])]]. *)

Definition default_emotion : pystr := py "[НЕЙТРАЛЬНО]".

Fixpoint _extract_emotion (text : pystr) (tags : list pystr) : pystr * pystr :=
  match tags with
  | [] => (default_emotion, strip text)
  | tag :: more =>
    if contains tag text
    then (tag, strip (str_replace tag [] text))
    else _extract_emotion text more
  end.

End Text.

(** ** Exceptions *)

Inductive exn :=
| IndexError          (* [agent_queue[0]] on an empty deque *)
| KeyError            (* a missing dictionary key *)
| ValueError          (* [get_agent_config] on an unknown agent *)
| ZeroDivisionError
| RequestError.       (* anything raised by the HTTP layer or a template *)

Inductive result (A : Type) :=
| Ok (a : A)
| Raise (e : exn).
Arguments Ok {A} a.
Arguments Raise {A} e.

(** [result] is a monad in stdpp's sense: [x ← r; k] runs [k] when [r]
    returned and passes the exception on otherwise. *)
#[export] Instance result_ret : MRet result := fun A a => Ok a.
#[export] Instance result_bind : MBind result := fun A B k r =>
  match r with
  | Ok a => k a
  | Raise e => Raise e
  end.

Definition of_option {A : Type} (e : exn) (o : option A) : result A :=
  match o with
  | Some a => Ok a
  | None => Raise e
  end.

(** ** The generation backend: [GigaChatManager.generate_response]

    What one [requests.post] attempt does is an input: either the [try]
    block raises (the message may hold "401", and the token refresh of the
    handler may raise in turn), or it yields an answer and a token count. *)

Inductive http_outcome :=
| HttpFails (has_401 : bool) (refresh_fails : bool)
| HttpAnswer (answer : pystr) (tokens : Z).

Record backend_call := {
  token_fails : bool;                 (* [_ensure_token] raises *)
  attempts : nat -> http_outcome
}.

Definition NO_ANSWER : pystr := py "Извините, не удалось получить ответ от GigaChat.".

Section Backend.
Context {U : UnicodeExt}.

(** [_estimate_audio_duration], in tenths of a second: [words / 3.0]
    rounded to one decimal, at least [2.0]. *)
Definition _estimate_audio_duration (text : pystr) : Z :=
  let clean_text := strip text in
  let clean_text :=
    if contains [93] clean_text then strip (after_last 93 clean_text) else clean_text in
  let words := Z.of_nat (length (split_ws [] clean_text)) in
  Z.max 20 ((10 * words + 1) / 3).

(** The answer cut to [target_duration * 3] words when its estimate is
    above [target_duration * 1.5]; [target_duration] is [30.0]. *)
Definition shorten_answer (answer : pystr) : pystr :=
  if 450 <? _estimate_audio_duration answer then
    let words := split_ws [] answer in
    if (90 <? length words)%nat then join_sp (take 90 words) ++ py "..." else answer
  else answer.

(** The loop [for attempt in range(retry_count)]; [todo] counts the
    iterations left. *)
Fixpoint retry_loop (retry_count attempt todo : nat) (world : nat -> http_outcome)
  : result (pystr * Z) :=
  match todo with
  | O => Ok (NO_ANSWER, 0)
  | S todo' =>
    match world attempt with
    | HttpAnswer answer tokens =>
      if falsy answer || (length (strip answer) <? 10)%nat then
        if (attempt <? retry_count - 1)%nat
        then retry_loop retry_count (S attempt) todo' world
        else Ok (NO_ANSWER, 0)
      else Ok (shorten_answer (strip answer), tokens)
    | HttpFails has_401 refresh_fails =>
      if has_401 && refresh_fails then Raise RequestError
      else retry_loop retry_count (S attempt) todo' world
    end
  end.

Definition generate_response (b : backend_call) (retry_count : nat) : result (pystr * Z) :=
  if token_fails b then Raise RequestError
  else retry_loop retry_count 0 retry_count (attempts b).

End Backend.

(** The two ways a backend call fails: it raises, or every attempt fails
    and the loop runs out. *)
Definition attempt_fails {U : UnicodeExt} (o : http_outcome) : bool :=
  match o with
  | HttpFails has_401 refresh_fails => negb (has_401 && refresh_fails)
  | HttpAnswer answer _ => falsy answer || (length (strip answer) <? 10)%nat
  end.

Definition exhausts_retries {U : UnicodeExt} (b : backend_call) : Prop :=
  token_fails b = false /\ forall i, (i < 3)%nat -> attempt_fails (attempts b i) = true.

Definition backend_raises {U : UnicodeExt} (b : backend_call) : Prop :=
  exists e, generate_response b 3 = Raise e.

(** ** Configuration: [PromptBuilder] *)

Record emotion := { tag : pystr; animation : pystr }.

Record agent_config := {
  name : pystr;
  emotions : list emotion;
  temperature : option Q;
  max_tokens : option Z
}.

Record PromptBuilder := {
  agents : gmap pystr agent_config;       (* [config["agents"]] *)
  dialog_turn_order : option (list pystr) (* [dialog_config.get("turn_order")] *)
}.

Definition get_agent_config (pb : PromptBuilder) (agent_id : pystr) : result agent_config :=
  of_option ValueError (agents pb !! agent_id).

Definition get_temperature (pb : PromptBuilder) (agent_id : pystr) : result Q :=
  cfg ← get_agent_config pb agent_id;
  Ok (default (7 # 10)%Q (temperature cfg)).

Definition get_max_tokens (pb : PromptBuilder) (agent_id : pystr) : result Z :=
  cfg ← get_agent_config pb agent_id;
  Ok (default 350 (max_tokens cfg)).

(** ** The session state: [DialogManager] *)

Inductive value :=
| VStr (s : pystr)
| VInt (n : Z)
| VFloat (q : Q)
| VTime (t : Z).      (* [datetime.isoformat()] of the instant [t] *)

Record DialogManager := {
  turn_order : list pystr;
  max_history : Z;
  agent_queue : list pystr;
  history : list (gmap string value);
  total_tokens : Z;
  reply_count : Z;
  start_time : Z
}.

Definition __init__ (pb : PromptBuilder) (turn_order : option (list pystr))
  (max_history : Z) (now : Z) : DialogManager :=
  let turn_order :=
    match turn_order with
    | Some t => t
    | None => default [py "agent_1"; py "agent_2"] (dialog_turn_order pb)
    end in
  {| turn_order := turn_order;
     max_history := max_history;
     agent_queue := turn_order;
     history := [];
     total_tokens := 0;
     reply_count := 0;
     start_time := now |}.

(** [deque.rotate(-1)] *)
Definition rotate_left {A : Type} (q : list A) : list A :=
  match q with
  | [] => []
  | x :: r => r ++ [x]
  end.

Definition get_next_agent (dm : DialogManager) : result (pystr * DialogManager) :=
  agent_id ← of_option IndexError (head (agent_queue dm));
  Ok (agent_id,
      {| turn_order := turn_order dm;
         max_history := max_history dm;
         agent_queue := rotate_left (agent_queue dm);
         history := history dm;
         total_tokens := total_tokens dm;
         reply_count := reply_count dm;
         start_time := start_time dm |}).

(** The slice [l[start:]]. *)
Definition slice_from {A : Type} (start : Z) (l : list A) : list A :=
  let n := Z.of_nat (length l) in
  drop (Z.to_nat (if start <? 0 then Z.max 0 (start + n) else Z.min start n)) l.

(** The dictionary [entry] of [add_to_history]; [entry.update(metadata)]
    runs when [metadata] is neither [None] nor empty. *)
Definition new_entry (role content : pystr) (metadata : option (gmap string value))
  (now : Z) : gmap string value :=
  let entry : gmap string value :=
    {[ "role"%string := VStr role; "content"%string := VStr content;
       "timestamp"%string := VTime now ]} in
  match metadata with
  | Some m => if bool_decide (m = ∅) then entry else m ∪ entry
  | None => entry
  end.

Definition add_to_history (role content : pystr) (metadata : option (gmap string value))
  (now : Z) (dm : DialogManager) : DialogManager :=
  let history := history dm ++ [new_entry role content metadata now] in
  let history :=
    if Z.of_nat (length history) >? max_history dm
    then slice_from (- max_history dm) history
    else history in
  {| turn_order := turn_order dm;
     max_history := max_history dm;
     agent_queue := agent_queue dm;
     history := history;
     total_tokens := total_tokens dm;
     reply_count := reply_count dm;
     start_time := start_time dm |}.

(** [get_recent_history]: the last [n] entries ([max_history] by default),
    each projected to its ["role"] and ["content"]. *)
Definition format_entry (entry : gmap string value) : result (value * value) :=
  role ← of_option KeyError (entry !! "role"%string);
  content ← of_option KeyError (entry !! "content"%string);
  Ok (role, content).

Definition get_recent_history (n : option Z) (dm : DialogManager)
  : result (list (value * value)) :=
  let n := default (max_history dm) n in
  mapM format_entry (slice_from (- n) (history dm)).

(** [save_dialog_log]: the dictionary [dialog_data] handed to [json.dump];
    a failure to write the file is caught and logged, nothing is written
    then. *)
Record dialog_data := {
  log_start_time : Z;
  log_end_time : Z;
  log_total_replies : Z;
  log_total_tokens : Z;
  log_turn_order : list pystr;
  log_history : list (gmap string value)
}.

Definition save_dialog_log (write_fails : bool) (now : Z) (dm : DialogManager)
  : option dialog_data :=
  if write_fails then None
  else Some {| log_start_time := start_time dm;
               log_end_time := now;
               log_total_replies := reply_count dm;
               log_total_tokens := total_tokens dm;
               log_turn_order := turn_order dm;
               log_history := history dm |}.

(** [get_statistics]; [a / b] on Python integers is the exact quotient
    (rounded to a float, which the rational stands for) and raises on a zero
    divisor. *)
Definition truediv (a b : Z) : result Q :=
  if b =? 0 then Raise ZeroDivisionError else Ok (inject_Z a / inject_Z b)%Q.

Record statistics := {
  total_replies : Z;
  stat_total_tokens : Z;
  average_tokens_per_reply : Q;
  history_length : nat;
  current_turn : pystr;
  duration_seconds : Z
}.

Definition get_statistics (now : Z) (dm : DialogManager) : result statistics :=
  average ← (if reply_count dm >? 0 then truediv (total_tokens dm) (reply_count dm)
             else Ok 0%Q);
  current ← of_option IndexError (head (agent_queue dm));
  Ok {| total_replies := reply_count dm;
        stat_total_tokens := total_tokens dm;
        average_tokens_per_reply := average;
        history_length := length (history dm);
        current_turn := current;
        duration_seconds := (now - start_time dm) mod 86400 |}.

Definition reset_dialog (now : Z) (dm : DialogManager) : DialogManager :=
  {| turn_order := turn_order dm;
     max_history := max_history dm;
     agent_queue := turn_order dm;
     history := [];
     total_tokens := 0;
     reply_count := 0;
     start_time := now |}.

(** ** One turn: [DialogManager.get_next_reply]

    The world of one call: whether formatting the first-reply template or
    the agent's system prompt raises, what the backend does, and the clock
    read by [add_to_history]. *)
Record turn_world := {
  first_prompt_fails : bool;
  system_prompt_fails : bool;
  backend : backend_call;
  clock : Z
}.

Definition build_system_prompt (fails : bool) : result unit :=
  if fails then Raise KeyError else Ok tt.

Definition error_fallback (agent_id : pystr) : pystr :=
  if bool_decide (agent_id = py "agent_1")
  then py "[РАДОСТЬ] Что-то я задумался. Продолжим?"
  else py "[ЛЮБОПЫТСТВО] Ой, а давай вернёмся к теме!".

Definition count_reply (tokens : Z) (dm : DialogManager) : DialogManager :=
  {| turn_order := turn_order dm;
     max_history := max_history dm;
     agent_queue := agent_queue dm;
     history := history dm;
     total_tokens := total_tokens dm + tokens;
     reply_count := reply_count dm + 1;
     start_time := start_time dm |}.

Definition reply : Type := pystr * pystr * pystr * Z.

Section Turn.
Context {U : UnicodeExt}.

(** The body of the [try] statement. *)
Definition try_generate (pb : PromptBuilder) (w : turn_world) (agent_id : pystr)
  (is_first : bool) (topic : option pystr) : result (pystr * Z) :=
  let with_topic :=
    match topic with
    | Some t => negb (falsy t)
    | None => false
    end in
  _ ← build_system_prompt
        (if is_first && with_topic then first_prompt_fails w else system_prompt_fails w);
  _ ← get_temperature pb agent_id;
  _ ← get_max_tokens pb agent_id;
  generate_response (backend w) 3.

(** The [try] statement with its [except Exception] handler. *)
Definition generate_or_fallback (pb : PromptBuilder) (w : turn_world) (agent_id : pystr)
  (is_first : bool) (topic : option pystr) : pystr * Z :=
  match try_generate pb w agent_id is_first topic with
  | Ok r => r
  | Raise _ => (error_fallback agent_id, 10)
  end.

Definition get_next_reply (pb : PromptBuilder) (w : turn_world) (topic : option pystr)
  (dm : DialogManager) : result (reply * DialogManager) :=
  '(agent_id, dm) ← get_next_agent dm;
  agent_config ← get_agent_config pb agent_id;
  let agent_name := name agent_config in
  _ ← get_recent_history None dm;
  let is_first := reply_count dm =? 0 in
  let '(response_text, tokens) := generate_or_fallback pb w agent_id is_first topic in
  let response_text := _validate_and_fix_reply response_text agent_id in
  let dm := count_reply tokens dm in
  let '(emotion_tag, clean_text) :=
    _extract_emotion response_text (map tag (emotions agent_config)) in
  temperature ← get_temperature pb agent_id;
  let metadata : gmap string value :=
    {[ "agent_id"%string := VStr agent_id; "agent_name"%string := VStr agent_name;
       "emotion"%string := VStr emotion_tag; "tokens"%string := VInt tokens;
       "temperature"%string := VFloat temperature ]} in
  let dm := add_to_history (py "assistant") response_text (Some metadata) (clock w) dm in
  Ok ((agent_id, response_text, clean_text, tokens), dm).

(** A session: one call per element, each with its [topic] argument. *)
Fixpoint run_turns (pb : PromptBuilder) (calls : list (option pystr * turn_world))
  (dm : DialogManager) : result (list reply * DialogManager) :=
  match calls with
  | [] => Ok ([], dm)
  | (topic, w) :: more =>
    '(r, dm) ← get_next_reply pb w topic dm;
    '(rs, dm) ← run_turns pb more dm;
    Ok (r :: rs, dm)
  end.

End Turn.

(** [n] calls of [get_next_agent] in a row. *)
Fixpoint advances (n : nat) (dm : DialogManager) : result DialogManager :=
  match n with
  | O => Ok dm
  | S k => '(_, dm) ← get_next_agent dm; advances k dm
  end.

(** [n] calls of [add_to_history], one per record. *)
Definition add_all (records : list (pystr * pystr)) (now : Z) (dm : DialogManager)
  : DialogManager :=
  fold_left (fun dm '(role, content) => add_to_history role content None now dm) records dm.

(** ** A configuration and worlds to run the model on *)

Definition demo_config : PromptBuilder :=
  {| agents :=
       {[ py "agent_1" :=
            {| name := py "Профессор Кот";
               emotions := [ {| tag := py "[РАДОСТЬ]"; animation := py "Happy" |};
                             {| tag := py "[УДИВЛЕНИЕ]"; animation := py "Surprised" |} ];
               temperature := Some (7 # 10)%Q;
               max_tokens := Some 350 |};
          py "agent_2" :=
            {| name := py "Доктор Кошка";
               emotions := [ {| tag := py "[ЛЮБОПЫТСТВО]"; animation := py "Curious" |};
                             {| tag := py "[РАДОСТЬ]"; animation := py "Happy" |} ];
               temperature := None;
               max_tokens := None |} ]};
     dialog_turn_order := Some [py "agent_1"; py "agent_2"] |}.

(** The backend raises: the token cannot be obtained. *)
Definition world_raises (now : Z) : turn_world :=
  {| first_prompt_fails := false;
     system_prompt_fails := false;
     backend := {| token_fails := true; attempts := fun _ => HttpFails false false |};
     clock := now |}.

(** Every attempt fails on the network: the retries run out. *)
Definition world_exhausts (now : Z) : turn_world :=
  {| first_prompt_fails := false;
     system_prompt_fails := false;
     backend := {| token_fails := false; attempts := fun _ => HttpFails false false |};
     clock := now |}.

(** The backend answers [answer] at the first attempt. *)
Definition world_answers (answer : pystr) (tokens : Z) (now : Z) : turn_world :=
  {| first_prompt_fails := false;
     system_prompt_fails := false;
     backend := {| token_fails := false; attempts := fun _ => HttpAnswer answer tokens |};
     clock := now |}.

(** [old.join(pieces)], the inverse of [text.split(old)]. *)
Fixpoint join_with (old : pystr) (pieces : list pystr) : pystr :=
  match pieces with
  | [] => []
  | [p] => p
  | p :: rest => p ++ old ++ join_with old rest
  end.

(** The extractor as the specification words it: of the known tags the
    one whose first occurrence comes first in the text is removed, at that
    occurrence only. *)
Fixpoint first_tag_here (tags : list pystr) (s : pystr) : option pystr :=
  match tags with
  | [] => None
  | tag :: more => if starts_with tag s then Some tag else first_tag_here more s
  end.

Fixpoint extract_first_occurrence (tags : list pystr) (s : pystr) : option (pystr * pystr) :=
  match first_tag_here tags s with
  | Some tag => Some (tag, drop (length tag) s)
  | None =>
    match s with
    | [] => None
    | c :: r =>
      match extract_first_occurrence tags r with
      | Some (tag, rest) => Some (tag, c :: rest)
      | None => None
      end
    end
  end.

Definition spec_extract {U : UnicodeExt} (text : pystr) (tags : list pystr) : pystr * pystr :=
  match extract_first_occurrence tags text with
  | Some (tag, rest) => (tag, strip rest)
  | None => (default_emotion, strip text)
  end.

(** The pattern [q] is a proper part of the pattern [p]. *)
Definition proper_part (q p : pystr) : bool := (length q <? length p)%nat && contains q p.

(** No character of [tail] can stand for a character of the literal
    [pat], whatever the case. *)
Definition never_matches {U : UnicodeExt} (pat tail : pystr) : bool :=
  forallb (fun c => forallb (fun p => negb (ignorecase_eq c p)) pat) tail.

(** A session that can run: somebody is in the queue, every participant
    of the queue is configured, and the entries of the history have the two
    keys that [get_recent_history] reads. *)
Definition session_ok (pb : PromptBuilder) (dm : DialogManager) : Prop :=
  agent_queue dm <> []
  /\ (forall a, a ∈ agent_queue dm -> is_Some (agents pb !! a))
  /\ Forall (fun e : gmap string value =>
               is_Some (e !! "role"%string) /\ is_Some (e !! "content"%string))
            (history dm).

Definition reply_agent (r : reply) : pystr := r.1.1.1.
Definition full_text (r : reply) : pystr := r.1.1.2.
Definition clean_text (r : reply) : pystr := r.1.2.
Definition reply_tokens (r : reply) : Z := r.2.

(** The backend fails at a call, in one of the two ways. *)
Definition backend_fails {U : UnicodeExt} (call : option pystr * turn_world) : Prop :=
  backend_raises (backend call.2) \/ exhausts_retries (backend call.2).

(** ** Whole words

    A maximal run of [\w] characters is a whole word of the text.
    [map_words f [] s] rewrites every whole word of [s] with [f] and keeps
    all other characters; [cur] is the word being read. *)
Section Words.
Context {U : UnicodeExt}.

Definition on_word (f : pystr -> pystr) (cur : pystr) : pystr :=
  match cur with
  | [] => []
  | _ :: _ => f cur
  end.

Fixpoint map_words (f : pystr -> pystr) (cur s : pystr) : pystr :=
  match s with
  | [] => on_word f cur
  | c :: r =>
    if is_word c then map_words f (cur ++ [c]) r
    else on_word f cur ++ c :: map_words f [] r
  end.

(** The word [run] is the term [w], whatever the case. *)
Definition same_word (w run : pystr) : bool :=
  (length run =? length w)%nat && lit_match w run.

(** What [re.sub] with the pattern of [w] does to a whole word. *)
Definition replace_word (w repl run : pystr) : pystr :=
  if same_word w run then repl else run.

(** What one round of the loop of step 4 does to a whole word of
    [fixed_text]. *)
Definition forbidden_word_pass (fixed_text w : pystr) (run : pystr) : pystr :=
  if contains w (str_lower fixed_text) then replace_word w (py "коллега") run else run.

(** The text is empty or starts with a character that is not of a word. *)
Definition starts_nonword (s : pystr) : Prop := word_opt (head s) = false.

(** The whole words of the text, in order. *)
Fixpoint words_of (cur s : pystr) : list pystr :=
  match s with
  | [] => flush cur
  | c :: r =>
    if is_word c then words_of (cur ++ [c]) r
    else flush cur ++ words_of [] r
  end.

(** [run.lower() == w] *)
Definition lowers_to (w run : pystr) : bool := bool_decide (str_lower run = w).

(** The word is a forbidden word written in any case. *)
Definition forbidden (run : pystr) : bool :=
  existsb (fun w => lowers_to w run) FORBIDDEN_WORDS.

(** The pattern of a forbidden word matches the word. *)
Definition pattern_forbidden (run : pystr) : bool :=
  existsb (fun w => same_word w run) FORBIDDEN_WORDS.

End Words.

(** A non-empty literal of Cyrillic small letters а..я. *)
Definition cyrillic_small_word (w : pystr) : bool :=
  negb (falsy w) && forallb (fun p => (0x430 <=? p) && (p <=? 0x44F)) w.

(** ** Sessions and attempts: what the further statements speak of *)

(** The tokens of a list of replies. *)
Definition sum_tokens (rs : list reply) : Z := foldr Z.add 0 (map reply_tokens rs).

(** The history entry [e] records the reply [r] of the call [call]. *)
Definition recorded (call : option pystr * turn_world) (r : reply)
  (e : gmap string value) : Prop :=
  e !! "role"%string = Some (VStr (py "assistant"))
  /\ e !! "content"%string = Some (VStr (full_text r))
  /\ e !! "agent_id"%string = Some (VStr (reply_agent r))
  /\ e !! "tokens"%string = Some (VInt (reply_tokens r))
  /\ e !! "timestamp"%string = Some (VTime (clock call.2)).

(** What [add_to_history] keeps of a history: [h[-m:]] when [h] is
    longer than [m]. *)
Definition keep_last {A : Type} (m : Z) (h : list A) : list A :=
  if Z.of_nat (length h) >? m then slice_from (- m) h else h.

(** The attempt settles the call: the answer is accepted, or the token
    refresh of the handler raises. *)
Definition accepted {U : UnicodeExt} (answer : pystr) : bool :=
  negb (falsy answer || (length (strip answer) <? 10)%nat).

(** ** The stream loop: [AIAvatarStream.run_stream] of main.py

    Of the loop and of [run_dialog_round] the part that reads or changes
    the [DialogManager] is modelled: the test of the [while], the read of
    [agent_queue[0]], the call of [get_next_reply] and the handler of
    [run_dialog_round], which catches every exception of the round.  The
    speech synthesis, the playback and the scene switch of a round change
    nothing of the [DialogManager], and their exceptions end in the same
    handler.  The world of a round: the flag [self.running] when the test
    of the [while] reads it, and the world of the call. *)
Record round_world := {
  running : bool;
  turn : turn_world
}.

(** The session after a call of [get_next_reply] that raised:
    [get_next_agent] has rotated the queue, unless it raised itself, and
    nothing else was assigned. *)
Definition state_after_raise (dm : DialogManager) : DialogManager :=
  match get_next_agent dm with
  | Ok (_, dm) => dm
  | Raise _ => dm
  end.

Section Stream.
Context {U : UnicodeExt}.

(** The [while] loop from round [i] on; [fuel] bounds the number of
    rounds, [None] says that the loop is still running when it is used up.
    The result is the replies generated and the session at the end. *)
Fixpoint stream_loop (pb : PromptBuilder) (turns : Z) (topic : pystr)
  (worlds : nat -> round_world) (fuel i : nat) (dm : DialogManager)
  : option (list reply * DialogManager) :=
  match fuel with
  | O => None
  | S fuel =>
    if running (worlds i) && (reply_count dm <? turns) then
      match agent_queue dm with
      | [] => Some ([], dm)     (* [agent_queue[0]] raises, the outer handler ends the loop *)
      | _ :: _ =>
        let first_topic := if reply_count dm =? 0 then Some topic else None in
        match get_next_reply pb (turn (worlds i)) first_topic dm with
        | Ok (r, dm) =>
          match stream_loop pb turns topic worlds fuel (S i) dm with
          | Some (rs, dm) => Some (r :: rs, dm)
          | None => None
          end
        | Raise _ => stream_loop pb turns topic worlds fuel (S i) (state_after_raise dm)
        end
      end
    else Some ([], dm)
  end.

Definition run_stream (pb : PromptBuilder) (turns : Z) (topic : pystr)
  (worlds : nat -> round_world) (fuel : nat) (now : Z) (dm : DialogManager)
  : option (list reply * DialogManager) :=
  stream_loop pb turns topic worlds fuel 0 (reset_dialog now dm).

End Stream.


(** * Properties *)

(** ** The turn queue *)

Lemma rotate_left_length {A : Type} (q : list A) : length (rotate_left q) = length q.
Proof. destruct q as [|x r]; simpl; [done|]. rewrite length_app. simpl. lia. Qed.

Lemma get_next_agent_ok (dm : DialogManager) (a : pystr) (rest : list pystr) :
  agent_queue dm = a :: rest ->
  exists dm', get_next_agent dm = Ok (a, dm')
              /\ agent_queue dm' = rest ++ [a]
              /\ history dm' = history dm /\ max_history dm' = max_history dm
              /\ reply_count dm' = reply_count dm /\ total_tokens dm' = total_tokens dm
              /\ turn_order dm' = turn_order dm /\ start_time dm' = start_time dm.
Proof.
  intros Hq. unfold get_next_agent. rewrite Hq. simpl.
  eexists. split; [reflexivity|]. simpl. repeat split; reflexivity.
Qed.

Lemma advances_rotate (k : nat) : forall (dm : DialogManager),
  (k <= length (agent_queue dm))%nat ->
  exists dm', advances k dm = Ok dm'
              /\ agent_queue dm' = drop k (agent_queue dm) ++ take k (agent_queue dm).
Proof.
  induction k as [|k IH]; intros dm Hk.
  - exists dm. simpl. by rewrite drop_0, app_nil_r.
  - destruct (agent_queue dm) as [|a rest] eqn:Hq; [simpl in Hk; lia|].
    destruct (get_next_agent_ok dm a rest Hq) as (dm1 & Hstep & Hq1 & _).
    destruct (IH dm1) as (dm2 & Hrun & Hq2).
    { rewrite Hq1, length_app. simpl in *. lia. }
    exists dm2. split.
    + simpl. rewrite Hstep. exact Hrun.
    + rewrite Hq2, Hq1. simpl in Hk.
      rewrite drop_app_le, take_app_le by lia.
      simpl. by rewrite <- app_assoc.
Qed.

(** C8. Strict rotation: a call of [get_next_agent] on a non-empty queue
    returns the current participant and makes the one that was second the
    current one; after as many calls as the queue is long the queue is as
    it was, so a session created with a turn order of length n >= 1 has the
    first participant of that order current again after n calls; for the
    order a, b this is after two calls. *)
Theorem C8_turn_queue_rotation (dm : DialogManager) :
  agent_queue dm <> [] ->
  (exists a dm1, get_next_agent dm = Ok (a, dm1)
     /\ head (agent_queue dm) = Some a
     /\ (forall second, agent_queue dm !! 1%nat = Some second ->
                        head (agent_queue dm1) = Some second))
  /\ (exists dm', advances (length (agent_queue dm)) dm = Ok dm'
                  /\ agent_queue dm' = agent_queue dm)
  /\ (forall pb order mh now, order <> [] ->
        exists dm', advances (length order) (__init__ pb (Some order) mh now) = Ok dm'
                    /\ head (agent_queue dm') = head order)
  /\ (forall pb mh now,
        exists dm', advances 2 (__init__ pb (Some [py "a"; py "b"]) mh now) = Ok dm'
                    /\ head (agent_queue dm') = Some (py "a")).
Proof.
  intros Hne.
  assert (Hfull : forall d : DialogManager,
            exists d', advances (length (agent_queue d)) d = Ok d'
                       /\ agent_queue d' = agent_queue d).
  { intros d. destruct (advances_rotate (length (agent_queue d)) d) as (d' & Hrun & Hq); [lia|].
    exists d'. split; [done|]. by rewrite Hq, drop_all, take_ge by lia. }
  split; [|split; [|split]].
  - destruct (agent_queue dm) as [|a rest] eqn:Hq; [done|].
    destruct (get_next_agent_ok dm a rest Hq) as (dm1 & Hstep & Hq1 & _).
    exists a, dm1. split; [done|]. split; [done|].
    intros second Hsec. rewrite Hq1. destruct rest as [|b rest']; simpl in *; congruence.
  - apply Hfull.
  - intros pb order mh now _.
    destruct (Hfull (__init__ pb (Some order) mh now)) as (d' & Hrun & Hq).
    exists d'. simpl in *. by rewrite Hq.
  - intros pb mh now.
    destruct (Hfull (__init__ pb (Some [py "a"; py "b"]) mh now)) as (d' & Hrun & Hq).
    exists d'. simpl in *. by rewrite Hq.
Qed.

Lemma C8_turn_queue_rotation_witness :
  let dm := __init__ demo_config None 10 0 in
  agent_queue dm <> [] /\
  exists dm', advances (length (agent_queue dm)) dm = Ok dm' /\ agent_queue dm' = agent_queue dm.
Proof.
  intros dm.
  assert (Hne : agent_queue dm <> []) by (vm_compute; discriminate).
  split; [exact Hne|].
  exact (proj1 (proj2 (C8_turn_queue_rotation dm Hne))).
Defined.

(** ** The history buffer *)

Lemma slice_from_neg_drop {A : Type} (m : Z) (l : list A) :
  0 < m ->
  slice_from (- m) l = drop (length l - Z.to_nat m) l.
Proof.
  intros Hm. unfold slice_from.
  destruct (Z.ltb_spec (- m) 0) as [_|]; [|lia].
  f_equal. lia.
Qed.

Lemma slice_from_zero {A : Type} (l : list A) : slice_from (- 0) l = l.
Proof.
  unfold slice_from. change (- 0) with 0. change (0 <? 0) with false. cbv iota.
  rewrite Z.min_l by lia. reflexivity.
Qed.

(** With a capacity of at least one record the buffer is bounded, the
    oldest records are the ones dropped and the order is kept. *)
Lemma add_to_history_bounded (role content : pystr) (metadata : option (gmap string value))
  (now : Z) (dm : DialogManager) :
  1 <= max_history dm ->
  let h' := history (add_to_history role content metadata now dm) in
  Z.of_nat (length h') <= max_history dm
  /\ h' = drop (length (history dm) + 1 - Z.to_nat (max_history dm))
               (history dm ++ [new_entry role content metadata now]).
Proof.
  intros Hm. unfold add_to_history. simpl.
  set (h := history dm ++ [new_entry role content metadata now]).
  assert (Hlen : length h = (length (history dm) + 1)%nat)
    by (unfold h; rewrite length_app; reflexivity).
  destruct (Z.gtb_spec (Z.of_nat (length h)) (max_history dm)) as [Hgt|Hle].
  - rewrite slice_from_neg_drop by lia. rewrite Hlen. split; [|reflexivity].
    rewrite length_drop. lia.
  - split; [lia|].
    replace (length (history dm) + 1 - Z.to_nat (max_history dm))%nat with 0%nat by lia.
    reflexivity.
Qed.

Example history_of_five_keeps_last_three (pb : PromptBuilder) (r1 r2 r3 r4 r5 : pystr * pystr) :
  map (fun e => (e !! "role"%string, e !! "content"%string))
      (history (add_all [r1; r2; r3; r4; r5] 7 (__init__ pb None 3 0)))
  = map (fun r => (Some (VStr r.1), Some (VStr r.2))) [r3; r4; r5].
Proof. destruct r1, r2, r3, r4, r5. reflexivity. Qed.

(** C3. Failing case of the bound: with [max_history = 0] the slice
    [history[-0:]] is the whole list, so nothing is ever dropped and the
    buffer is longer than its configured maximum after every call. *)
Theorem C3_history_unbounded_at_zero (role content : pystr)
  (metadata : option (gmap string value)) (now : Z) (dm : DialogManager) :
  max_history dm = 0 ->
  history (add_to_history role content metadata now dm)
    = history dm ++ [new_entry role content metadata now]
  /\ Z.of_nat (length (history (add_to_history role content metadata now dm)))
       > max_history (add_to_history role content metadata now dm).
Proof.
  intros Hm. unfold add_to_history. simpl. rewrite Hm.
  rewrite slice_from_zero.
  destruct (Z.gtb_spec (Z.of_nat (length (history dm ++ [new_entry role content metadata now]))) 0);
    (split; [reflexivity|]); rewrite length_app; simpl; lia.
Qed.

Lemma C3_history_unbounded_at_zero_witness :
  let dm := __init__ demo_config None 0 0 in
  max_history dm = 0 /\
  Z.of_nat (length (history (add_to_history (py "user") (py "Тест") None 1 dm)))
    > max_history (add_to_history (py "user") (py "Тест") None 1 dm).
Proof.
  intros dm. split; [reflexivity|].
  exact (proj2 (C3_history_unbounded_at_zero (py "user") (py "Тест") None 1 dm eq_refl)).
Defined.

(** C10. The entry that [add_to_history] stores is [new_entry]: its role
    and content are the arguments when [metadata] has none of the keys
    role, content, timestamp, and every key of [metadata], these three
    included, takes the value [metadata] gives it. *)
Theorem C10_metadata_overrides_entry (role content : pystr)
  (metadata : option (gmap string value)) (now : Z) (dm : DialogManager) :
  let e := new_entry role content metadata now in
  let dm' := add_to_history role content metadata now dm in
  (0 <= max_history dm -> last (history dm') = Some e)
  /\ ((forall m, metadata = Some m ->
         m !! "role"%string = None /\ m !! "content"%string = None
         /\ m !! "timestamp"%string = None) ->
      e !! "role"%string = Some (VStr role) /\ e !! "content"%string = Some (VStr content)
      /\ e !! "timestamp"%string = Some (VTime now))
  /\ (forall m k v, metadata = Some m -> m !! k = Some v -> e !! k = Some v).
Proof.
  intros e dm'. split; [|split].
  - intros Hm. unfold dm', add_to_history. simpl. fold e.
    destruct (Z.gtb_spec (Z.of_nat (length (history dm ++ [e]))) (max_history dm)) as [Hgt|Hle].
    + destruct (Z.eq_dec (max_history dm) 0) as [H0|H0].
      * rewrite H0, slice_from_zero. apply last_snoc.
      * rewrite slice_from_neg_drop by lia.
        rewrite length_app in *. simpl in *.
        rewrite drop_app_le by lia. apply last_snoc.
    + apply last_snoc.
  - intros Hnone. unfold e, new_entry.
    destruct metadata as [m|]; [|by simplify_map_eq].
    destruct (Hnone m eq_refl) as (Hr & Hc & Ht).
    case_bool_decide; [by simplify_map_eq|].
    rewrite !lookup_union_r by done. by simplify_map_eq.
  - intros m k v -> Hk. unfold e, new_entry.
    case_bool_decide as Hempty; [subst m; by rewrite lookup_empty in Hk|].
    by apply lookup_union_Some_l.
Qed.

Lemma C10_metadata_overrides_entry_witness :
  let m : gmap string value := {[ "content"%string := VStr (py "другой текст") ]} in
  m !! "content"%string = Some (VStr (py "другой текст")) /\
  new_entry (py "user") (py "Тест") (Some m) 5 !! "content"%string
    = Some (VStr (py "другой текст")).
Proof.
  intros m. split; [reflexivity|].
  exact (proj2 (proj2 (C10_metadata_overrides_entry (py "user") (py "Тест") (Some m) 5
                         (__init__ demo_config None 10 0)))
               m "content"%string (VStr (py "другой текст")) eq_refl eq_refl).
Defined.

(** ** Statistics *)

(** C9. [get_statistics] never raises [ZeroDivisionError]; on a session
    with a current participant it returns, with the average equal to
    [total_tokens / reply_count] when [reply_count > 0] and to [0] when
    [reply_count = 0]; on a fresh session the average is [0]. *)
Theorem C9_average_never_divides_by_zero (now : Z) (dm : DialogManager) :
  get_statistics now dm <> Raise ZeroDivisionError
  /\ (agent_queue dm <> [] ->
      exists st, get_statistics now dm = Ok st
        /\ (reply_count dm > 0 ->
            average_tokens_per_reply st
              = (inject_Z (total_tokens dm) / inject_Z (reply_count dm))%Q)
        /\ (reply_count dm = 0 -> average_tokens_per_reply st = 0%Q))
  /\ (forall pb order mh t0, order <> [] ->
      exists st, get_statistics now (__init__ pb (Some order) mh t0) = Ok st
                 /\ total_replies st = 0 /\ average_tokens_per_reply st = 0%Q).
Proof.
  split; [|split].
  - unfold get_statistics, truediv.
    destruct (Z.gtb_spec (reply_count dm) 0) as [Hpos|Hle].
    + destruct (Z.eqb_spec (reply_count dm) 0); [lia|].
      simpl. destruct (head (agent_queue dm)); simpl; discriminate.
    + simpl. destruct (head (agent_queue dm)); simpl; discriminate.
  - intros Hq. unfold get_statistics, truediv.
    destruct (agent_queue dm) as [|a rest] eqn:Hqa; [done|].
    destruct (Z.gtb_spec (reply_count dm) 0) as [Hpos|Hle].
    + destruct (Z.eqb_spec (reply_count dm) 0); [lia|].
      simpl. eexists. split; [reflexivity|]. simpl. split; [done|lia].
    + simpl. eexists. split; [reflexivity|]. simpl. split; [lia|done].
  - intros pb order mh t0 Hne. unfold get_statistics, __init__. simpl.
    destruct order as [|a rest]; [done|]. simpl.
    eexists. split; [reflexivity|]. simpl. done.
Qed.

Lemma C9_average_never_divides_by_zero_witness :
  let dm := count_reply 30 (count_reply 12 (__init__ demo_config None 10 0)) in
  agent_queue dm <> [] /\ reply_count dm > 0 /\
  exists st, get_statistics 9 dm = Ok st
             /\ average_tokens_per_reply st = (inject_Z 42 / inject_Z 2)%Q.
Proof.
  intros dm.
  assert (Hq : agent_queue dm <> []) by (vm_compute; discriminate).
  assert (Hpos : reply_count dm > 0) by (vm_compute; reflexivity).
  split; [exact Hq|]. split; [exact Hpos|].
  destruct (proj1 (proj2 (C9_average_never_divides_by_zero 9 dm)) Hq) as (st & Hst & Havg & _).
  exists st. split; [exact Hst|]. exact (Havg Hpos).
Defined.

(** ** The transcript export *)

(** C5. Failing case of the export: [save_dialog_log] writes
    [self.history], the bounded buffer.  After three turns of a session
    with [max_history = 2] the transcript counts three replies and holds
    the records of the last two only. *)
Theorem C5_export_holds_only_the_buffer {U : UnicodeExt} :
  (forall now dm, log_history <$> save_dialog_log false now dm = Some (history dm))
  /\ let t1 := py "[РАДОСТЬ] Первая реплика диалога" in
     let t2 := py "[ЛЮБОПЫТСТВО] Вторая реплика диалога" in
     let t3 := py "[РАДОСТЬ] Третья реплика диалога" in
     let calls := [ (Some (py "тема"), world_answers t1 11 1);
                    (None, world_answers t2 12 2);
                    (None, world_answers t3 13 3) ] in
     match run_turns demo_config calls (__init__ demo_config None 2 0) with
     | Ok (rs, dm) =>
       map (fun r : reply => r.1.1.2) rs = [t1; t2; t3]
       /\ match save_dialog_log false 4 dm with
          | Some d =>
            log_total_replies d = 3
            /\ log_total_tokens d = 36
            /\ map (fun e => e !! "content"%string) (log_history d)
               = [Some (VStr t2); Some (VStr t3)]
          | None => False
          end
     | Raise _ => False
     end.
Proof.
  split; [reflexivity|].
  vm_compute. repeat split; reflexivity.
Qed.

(** ** The emotion tag extractor *)

Lemma starts_with_app (p s : pystr) : starts_with p (p ++ s) = true.
Proof. induction p as [|a p IH]; simpl; [done|]. by rewrite Z.eqb_refl. Qed.

Lemma starts_with_split (p s : pystr) :
  starts_with p s = true -> s = p ++ drop (length p) s.
Proof.
  revert s. induction p as [|a p IH]; intros s Hs; simpl in *; [done|].
  destruct s as [|b s]; [done|].
  apply andb_true_iff in Hs as [Hab Hs]. apply Z.eqb_eq in Hab. subst b.
  simpl. f_equal. by apply IH.
Qed.

Lemma replace_aux_skip (old new : pystr) (a s : pystr) :
  replace_aux old new (length a) (a ++ s) = replace_aux old new 0 s.
Proof. induction a as [|c a IH]; simpl; [done|]. exact IH. Qed.

Lemma join_with_cons (old p q : pystr) (rest : list pystr) :
  join_with old (p :: q :: rest) = p ++ old ++ join_with old (q :: rest).
Proof. reflexivity. Qed.

(** [text.replace(tag, "")] deletes copies of [tag] and nothing else: the
    text is the pieces it keeps with [tag] in between. *)
Lemma replace_removes_only_tag (o : Z) (old' : pystr) (n : nat) : forall (s : pystr),
  (length s <= n)%nat ->
  exists pieces, pieces <> []
    /\ s = join_with (o :: old') pieces
    /\ str_replace (o :: old') [] s = concat pieces.
Proof.
  unfold str_replace.
  induction n as [|n IH]; intros s Hn.
  - destruct s; [|simpl in Hn; lia]. exists [[]]. done.
  - destruct s as [|c r]; [exists [[]]; done|].
    simpl in Hn. cbn [replace_aux].
    destruct (starts_with (o :: old') (c :: r)) eqn:Hst.
    + pose proof (starts_with_split _ _ Hst) as Hsplit.
      simpl in Hsplit. injection Hsplit as Hc Hr. subst c.
      set (r' := drop (length old') r) in *.
      destruct (IH r') as (pieces & Hne & Hjoin & Hrep).
      { unfold r'. rewrite length_drop. lia. }
      exists ([] :: pieces). split; [done|].
      destruct pieces as [|p rest]; [done|].
      rewrite join_with_cons. split.
      * rewrite <- Hjoin. cbn [app]. f_equal. exact Hr.
      * change (concat ([] :: p :: rest)) with (concat (p :: rest)).
        rewrite <- Hrep. cbn [app length].
        replace (S (length old') - 1)%nat with (length old') by lia.
        rewrite Hr at 1. apply replace_aux_skip.
    + destruct (IH r) as (pieces & Hne & Hjoin & Hrep); [lia|].
      destruct pieces as [|p rest]; [done|].
      exists ((c :: p) :: rest). split; [done|]. split.
      * destruct rest; simpl in *; by rewrite Hjoin.
      * simpl. by rewrite Hrep.
Qed.

(** C4, as the code has it.  The tag returned is the first tag of the
    participant's list, in list order, that occurs in the text; every
    occurrence of that tag is deleted and nothing else (other tags of the
    list and unknown bracketed substrings stay), and the rest is trimmed.
    When no tag of the list occurs the result is the neutral tag with the
    trimmed text. *)
Theorem C4_extract_emotion_first_listed_tag {U : UnicodeExt} (text : pystr) (tags : list pystr) :
  (forall i tag, tags !! i = Some tag -> contains tag text = true ->
     (forall j t, (j < i)%nat -> tags !! j = Some t -> contains t text = false) ->
     _extract_emotion text tags = (tag, strip (str_replace tag [] text))
     /\ (tag <> [] -> exists pieces,
           text = join_with tag pieces /\ str_replace tag [] text = concat pieces))
  /\ ((forall t, t ∈ tags -> contains t text = false) ->
      _extract_emotion text tags = (default_emotion, strip text))
  /\ _extract_emotion (py "[JOY] Hello") [py "[JOY]"] = (py "[JOY]", py "Hello")
  /\ _extract_emotion (py "Hello") [py "[JOY]"] = (py "[НЕЙТРАЛЬНО]", py "Hello")
  /\ _extract_emotion (py "[SAD] Hello [JOY] [FOO]") [py "[JOY]"; py "[SAD]"]
     = (py "[JOY]", py "[SAD] Hello  [FOO]").
Proof.
  split; [|split; [|repeat split; vm_compute; reflexivity]].
  - revert text. induction tags as [|t0 tags IH]; intros text i tag Hi Hc Hbefore; [done|].
    destruct i as [|i]; simpl in Hi.
    + injection Hi as ->. simpl. rewrite Hc. split; [done|].
      intros Hne. destruct tag as [|o old']; [done|].
      destruct (replace_removes_only_tag o old' (length text) text) as (ps & _ & Hj & Hr); [lia|].
      by exists ps.
    + simpl. rewrite (Hbefore 0%nat t0) by (simpl; done || lia).
      apply (IH text i tag Hi Hc). intros j t Hj Ht.
      apply (Hbefore (S j) t); [lia|done].
  - induction tags as [|t0 tags IH]; intros Hnone; [done|].
    simpl. rewrite Hnone by apply list_elem_of_here.
    apply IH. intros t Ht. apply Hnone. by apply list_elem_of_further.
Qed.

Lemma C4_extract_emotion_first_listed_tag_witness :
  let text := py "[РАДОСТЬ] Привет [РАДОСТЬ] снова [ТЕСТ]" in
  let tags := [py "[УДИВЛЕНИЕ]"; py "[РАДОСТЬ]"] in
  contains (py "[РАДОСТЬ]") text = true /\
  _extract_emotion (U := plain_ext) text tags = (py "[РАДОСТЬ]", py "Привет  снова [ТЕСТ]").
Proof.
  intros text tags.
  assert (Hc : contains (py "[РАДОСТЬ]") text = true) by (vm_compute; reflexivity).
  split; [exact Hc|].
  refine (eq_trans (proj1 (proj1 (C4_extract_emotion_first_listed_tag (U := plain_ext) text tags)
                     1%nat (py "[РАДОСТЬ]") eq_refl Hc _)) _).
  - intros j t Hj Ht. destruct j as [|j]; [|lia].
    vm_compute in Ht. injection Ht as <-. vm_compute. reflexivity.
  - vm_compute. reflexivity.
Defined.

(** C4 as stated fails: the second occurrence of the extracted tag is
    removed as well, and the tag is chosen by its place in the list, not in
    the text. *)
Lemma C4_counterexample :
  let tags := [py "[JOY]"; py "[SAD]"] in
  (_extract_emotion (U := plain_ext) (py "[JOY] Hello [JOY]") tags = (py "[JOY]", py "Hello")
   /\ spec_extract (U := plain_ext) (py "[JOY] Hello [JOY]") tags = (py "[JOY]", py "Hello [JOY]"))
  /\ (_extract_emotion (U := plain_ext) (py "[SAD] Hello [JOY]") tags = (py "[JOY]", py "[SAD] Hello")
      /\ spec_extract (U := plain_ext) (py "[SAD] Hello [JOY]") tags = (py "[SAD]", py "Hello [JOY]"))
  /\ ~ (forall text tags, _extract_emotion (U := plain_ext) text tags
                           = spec_extract (U := plain_ext) text tags).
Proof.
  intros tags.
  assert (H1 : _extract_emotion (U := plain_ext) (py "[JOY] Hello [JOY]") tags = (py "[JOY]", py "Hello"))
    by (vm_compute; reflexivity).
  assert (H2 : spec_extract (U := plain_ext) (py "[JOY] Hello [JOY]") tags = (py "[JOY]", py "Hello [JOY]"))
    by (vm_compute; reflexivity).
  split; [done|]. split; [split; vm_compute; reflexivity|].
  intros Hall. rewrite Hall, H2 in H1. discriminate H1.
Qed.

(** ** The reply sanitizer: gender correction *)

Ltac case_rule i H :=
  repeat (destruct i as [|i]; [vm_compute in H; injection H as <-|]);
  try (vm_compute in H; discriminate H).

(** C6. For [agent_2] the rules are applied in the order of the list, and
    in that list a pattern that is a proper part of another one comes after
    it (the phrases of two words before the single words they hold); every
    pattern, phrase or word, is turned into exactly its replacement by the
    whole pass; and "Я уверен, что прав" becomes "я уверена, что прав",
    which holds "уверена" and has no whole word "уверен". *)
Theorem C6_longer_gender_patterns_first {U : UnicodeExt} :
  (forall i j p q, replacements !! i = Some p -> replacements !! j = Some q ->
     proper_part q.1 p.1 = true -> (i < j)%nat)
  /\ (forall text, fix_gender (py "agent_2") text
        = fold_left (fun fixed_text '(wrong, correct) => re_sub wrong correct fixed_text)
                    replacements text)
  /\ Forall (fun rule => fix_gender (py "agent_2") rule.1 = rule.2) replacements
  /\ (let fixed := _validate_and_fix_reply (py "Я уверен, что прав") (py "agent_2") in
      fixed = py "я уверена, что прав"
      /\ contains (py "уверена") fixed = true
      /\ re_search (py "уверен") fixed = false).
Proof.
  split; [|split; [|split]].
  - intros i j p q Hi Hj Hpart.
    case_rule i Hi; case_rule j Hj; first [lia | vm_compute in Hpart; discriminate Hpart].
  - intros text. reflexivity.
  - repeat constructor.
  - vm_compute. repeat split; reflexivity.
Qed.

Lemma C6_longer_gender_patterns_first_witness :
  replacements !! 0%nat = Some (py "я уверен", py "я уверена") /\
  replacements !! 8%nat = Some (py "уверен", py "уверена") /\
  proper_part (py "уверен") (py "я уверен") = true /\
  (0 < 8)%nat.
Proof.
  split; [reflexivity|]. split; [reflexivity|]. split; [reflexivity|].
  exact (proj1 (C6_longer_gender_patterns_first (U := plain_ext)) 0%nat 8%nat
           (py "я уверен", py "я уверена") (py "уверен", py "уверена")
           eq_refl eq_refl eq_refl).
Defined.

(** ** The reply sanitizer: the length cap *)

Section Sanitizer.
Context {U : UnicodeExt}.

Lemma fold_left_invariant {A B : Type} (P : A -> Prop) (f : A -> B -> A) (l : list B) :
  (forall a b, In b l -> P a -> P (f a b)) ->
  forall a, P a -> P (fold_left f l a).
Proof.
  induction l as [|b l IH]; intros Hf a Ha; simpl; [done|].
  apply IH.
  - intros a' b' Hb'. apply Hf. by right.
  - apply Hf; [by left|done].
Qed.

Lemma ends_with_app (p a : pystr) : ends_with p (a ++ p) = true.
Proof. unfold ends_with. rewrite rev_app_distr. apply starts_with_app. Qed.

Lemma lit_match_before_tail (pat tail : pystr) : forall s,
  never_matches pat tail = true ->
  lit_match pat (s ++ tail) = true ->
  (length pat <= length s)%nat.
Proof.
  induction pat as [|p pat IH]; intros s Hnm Hm; simpl; [lia|].
  destruct s as [|c s].
  - destruct tail as [|c tail]; simpl in Hm; [done|].
    apply andb_true_iff in Hm as [Hc _].
    unfold never_matches in Hnm. simpl in Hnm.
    rewrite Hc in Hnm. done.
  - simpl in Hm. apply andb_true_iff in Hm as [_ Hm]. simpl.
    apply le_n_S. apply IH; [|done].
    unfold never_matches in *. apply forallb_forall. intros x Hx.
    rewrite forallb_forall in Hnm. specialize (Hnm x Hx).
    simpl in Hnm. by apply andb_true_iff in Hnm as [_ Hnm].
Qed.

Lemma never_matches_tail (pat : pystr) (c : Z) (tail : pystr) :
  never_matches pat (c :: tail) = true -> never_matches pat tail = true.
Proof. unfold never_matches. simpl. intros H. by apply andb_true_iff in H as [_ H]. Qed.

Lemma sub_aux_on_tail (p : Z) (pat repl tail : pystr) : forall prev,
  never_matches (p :: pat) tail = true ->
  sub_aux (p :: pat) repl prev 0 tail = tail.
Proof.
  induction tail as [|c tail IH]; intros prev Hnm; [done|].
  cbn [sub_aux].
  assert (Hno : match_here (p :: pat) prev (c :: tail) = false).
  { unfold match_here. cbn [lit_match].
    unfold never_matches in Hnm. cbn [forallb] in Hnm.
    apply andb_true_iff in Hnm as [Hc _]. apply andb_true_iff in Hc as [Hc _].
    apply negb_true_iff in Hc. rewrite Hc.
    by rewrite andb_false_r. }
  rewrite Hno. f_equal. apply IH. by eapply never_matches_tail.
Qed.

Lemma sub_aux_keeps_tail (p : Z) (pat repl tail : pystr) :
  never_matches (p :: pat) tail = true ->
  forall s prev skip, (skip <= length s)%nat ->
  exists a, sub_aux (p :: pat) repl prev skip (s ++ tail) = a ++ tail.
Proof.
  intros Hnm. induction s as [|c r IH]; intros prev skip Hskip.
  - simpl in Hskip. replace skip with 0%nat by lia.
    exists []. simpl. by apply sub_aux_on_tail.
  - rewrite <- app_comm_cons. cbn [sub_aux]. destruct skip as [|k].
    + destruct (match_here (p :: pat) prev (c :: r ++ tail)) eqn:Hm.
      * assert (Hlen : (length (p :: pat) <= length (c :: r))%nat).
        { apply (lit_match_before_tail _ tail); [done|].
          unfold match_here in Hm.
          apply andb_true_iff in Hm as [Hm _]. by apply andb_true_iff in Hm as [_ Hm]. }
        destruct (IH (Some c) (length (p :: pat) - 1)%nat) as [a Ha]; [simpl in *; lia|].
        exists (repl ++ a). by rewrite Ha, app_assoc.
      * destruct (IH (Some c) 0%nat) as [a Ha]; [lia|].
        exists (c :: a). by rewrite Ha.
    + simpl in Hskip. destruct (IH (Some c) k) as [a Ha]; [lia|]. by exists a.
Qed.

Lemma re_sub_keeps_tail (pat repl tail s : pystr) :
  never_matches pat tail = true ->
  exists a, re_sub pat repl (s ++ tail) = a ++ tail.
Proof.
  intros Hnm. destruct pat as [|p pat]; [by exists s|].
  apply sub_aux_keeps_tail; [done|lia].
Qed.

Lemma sub_aux_no_match (pat repl : pystr) : forall s prev,
  search_aux pat prev s = false -> sub_aux pat repl prev 0 s = s.
Proof.
  induction s as [|c r IH]; intros prev Hs; [done|].
  simpl in Hs. apply orb_false_iff in Hs as [Hm Hs].
  cbn [sub_aux]. rewrite Hm. f_equal. by apply IH.
Qed.

Lemma re_sub_no_match (pat repl s : pystr) :
  re_search pat s = false -> re_sub pat repl s = s.
Proof. destruct pat; [done|]. apply sub_aux_no_match. Qed.

Lemma rules_never_match_dots :
  forallb (fun rule : pystr * pystr => never_matches rule.1 (py "...")) replacements = true
  /\ forallb (fun word => never_matches word (py "...")) FORBIDDEN_WORDS = true.
Proof. split; vm_compute; reflexivity. Qed.

Lemma fix_gender_keeps_dots (agent_id s : pystr) :
  exists a, fix_gender agent_id (s ++ py "...") = a ++ py "...".
Proof.
  unfold fix_gender. case_bool_decide; [|by exists s].
  apply (fold_left_invariant (fun t => exists a, t = a ++ py "...")); [|by exists s].
  intros t [wrong correct] Hin [a ->].
  apply re_sub_keeps_tail.
  destruct rules_never_match_dots as [Hr _].
  rewrite forallb_forall in Hr. exact (Hr _ Hin).
Qed.

Lemma fix_forbidden_keeps_dots (s : pystr) :
  exists a, fix_forbidden (s ++ py "...") = a ++ py "...".
Proof.
  unfold fix_forbidden.
  apply (fold_left_invariant (fun t => exists a, t = a ++ py "...")); [|by exists s].
  intros t word Hin [a ->]. unfold fix_forbidden_word.
  destruct (contains word (str_lower (a ++ py "..."))); [|by exists a].
  apply re_sub_keeps_tail.
  destruct rules_never_match_dots as [_ Hw].
  rewrite forallb_forall in Hw. exact (Hw _ Hin).
Qed.

Lemma fix_gender_no_match (agent_id s : pystr) :
  (forall rule : pystr * pystr, In rule replacements -> re_search rule.1 s = false) ->
  fix_gender agent_id s = s.
Proof.
  intros Hno. unfold fix_gender. case_bool_decide; [|done].
  apply (fold_left_invariant (fun t => t = s)); [|done].
  intros t [wrong correct] Hin ->. apply re_sub_no_match. exact (Hno _ Hin).
Qed.

Lemma fix_forbidden_no_match (s : pystr) :
  (forall word, In word FORBIDDEN_WORDS -> re_search word s = false) ->
  fix_forbidden s = s.
Proof.
  intros Hno. unfold fix_forbidden.
  apply (fold_left_invariant (fun t => t = s)); [|done].
  intros t word Hin ->. unfold fix_forbidden_word.
  destruct (contains word (str_lower s)); [|done].
  apply re_sub_no_match. exact (Hno _ Hin).
Qed.

Lemma not_empty_reply (text : pystr) :
  (5 <= length (strip text))%nat -> is_empty_reply text = false.
Proof.
  intros Hlen. unfold is_empty_reply. apply orb_false_iff. split.
  - destruct text; [simpl in Hlen; lia|done].
  - apply Nat.ltb_ge. exact Hlen.
Qed.

End Sanitizer.

(** C2, as the code has it.  A text of more than 1000 characters that
    keeps fewer than 5 after trimming is replaced by the filler of the
    participant.  One that keeps at least 5 is cut to its first 997
    characters plus "..." (1000 characters) before the substitution passes
    run; what [_validate_and_fix_reply] returns ends in "...", and it is
    the cut text itself, 1000 characters long, when no rule of the two
    passes matches it. *)
Theorem C2_long_reply_is_cut_and_ends_in_ellipsis {U : UnicodeExt} (text agent_id : pystr) :
  (1000 < length text)%nat ->
  let capped := take 997 text ++ py "..." in
  let fixed := _validate_and_fix_reply text agent_id in
  ((length (strip text) < 5)%nat -> fixed = empty_reply_filler agent_id)
  /\ ((5 <= length (strip text))%nat ->
      length capped = 1000%nat
      /\ fixed = fix_forbidden (fix_gender agent_id capped)
      /\ ends_with (py "...") fixed = true
      /\ ((forall rule : pystr * pystr, In rule replacements ->
             re_search rule.1 capped = false) ->
          (forall word, In word FORBIDDEN_WORDS -> re_search word capped = false) ->
          fixed = capped)).
Proof.
  intros Hlong capped fixed. split.
  - intros Hshort. unfold fixed, _validate_and_fix_reply, is_empty_reply.
    destruct (Nat.ltb_spec (length (strip text)) 5) as [_|]; [|lia].
    by rewrite orb_true_r.
  - intros Htrim.
    assert (Hfixed : fixed = fix_forbidden (fix_gender agent_id capped)).
    { unfold fixed, _validate_and_fix_reply, cap_length.
      rewrite (not_empty_reply text Htrim).
      destruct (Nat.ltb_spec 1000 (length text)); [done|lia]. }
    split; [|split; [done|split]].
    + unfold capped. rewrite length_app, length_take.
      change (length (py "...")) with 3%nat. lia.
    + rewrite Hfixed. unfold capped.
      destruct (fix_gender_keeps_dots agent_id (take 997 text)) as [a ->].
      destruct (fix_forbidden_keeps_dots a) as [b ->].
      apply ends_with_app.
    + intros Hrules Hwords. rewrite Hfixed.
      rewrite (fix_gender_no_match agent_id capped Hrules).
      apply (fix_forbidden_no_match capped Hwords).
Qed.

Lemma C2_long_reply_is_cut_and_ends_in_ellipsis_witness :
  let text := replicate 1200 1072 in
  (1000 < length text)%nat /\ (5 <= length (strip (U := plain_ext) text))%nat /\
  ends_with (py "...") (_validate_and_fix_reply (U := plain_ext) text (py "agent_2")) = true.
Proof.
  intros text.
  assert (Hlong : (1000 < length text)%nat) by (vm_compute; lia).
  assert (Htrim : (5 <= length (strip (U := plain_ext) text))%nat) by (vm_compute; lia).
  split; [exact Hlong|]. split; [exact Htrim|].
  exact (proj1 (proj2 (proj2 (proj2 (C2_long_reply_is_cut_and_ends_in_ellipsis (U := plain_ext)
                                       text (py "agent_2") Hlong) Htrim)))).
Defined.

(** C2 as stated fails: a long text of white space is replaced by the
    filler, which has no ellipsis. *)
Lemma C2_counterexample :
  let text := replicate 1001 32 in
  (1000 < length text)%nat
  /\ _validate_and_fix_reply (U := plain_ext) text (py "agent_1")
     = py "[РАДОСТЬ] Интересная мысль! Продолжим обсуждение?"
  /\ ends_with (py "...") (_validate_and_fix_reply (U := plain_ext) text (py "agent_1")) = false.
Proof. vm_compute. repeat split; (reflexivity || lia). Qed.

(** The cut comes before the substitutions, which lengthen the text:
    250 times "брат " comes out 1597 characters long. *)
Example long_reply_grows_after_cut :
  let text := concat (replicate 250 (py "брат ")) in
  length text = 1250%nat
  /\ length (_validate_and_fix_reply (U := plain_ext) text (py "agent_1")) = 1597%nat.
Proof. vm_compute. split; reflexivity. Qed.

(** ** The reply sanitizer: forbidden words *)

Section WordRuns.
Context {U : UnicodeExt}.
Hypothesis laws : unicode_laws U.

Lemma run_ind (P : pystr -> Prop) :
  P [] ->
  (forall c s, is_word c = false -> P s -> P (c :: s)) ->
  (forall r s, r <> [] -> Forall (fun c => is_word c = true) r -> starts_nonword s ->
               P s -> P (r ++ s)) ->
  forall s, P s.
Proof using Type.
  intros Hnil Hsym Hrun s.
  cut (P s /\ forall r, r <> [] -> Forall (fun c => is_word c = true) r -> P (r ++ s)).
  { intros [H _]. exact H. }
  induction s as [|c s [IH1 IH2]].
  - split; [done|]. intros r Hr Hw. by apply Hrun.
  - destruct (is_word c) eqn:Hc.
    + split.
      * apply (IH2 [c]); [done|by constructor].
      * intros r Hr Hw. rewrite (cons_middle c r s), app_assoc.
        apply IH2; [by destruct r|]. apply Forall_app. split; [done|by constructor].
    + assert (Hcs : P (c :: s)) by (by apply Hsym).
      split; [done|]. intros r Hr Hw. by apply Hrun.
Qed.

(** *** Characters that can stand for a Cyrillic small letter *)

Lemma tolower_small (p : Z) : 0x430 <= p <= 0x44F -> tolower p = p.
Proof using Type.
  intros Hp. unfold tolower.
  repeat match goal with
  | |- context [Z.leb ?a ?b] => destruct (Z.leb_spec a b)
  | |- context [Z.ltb ?a ?b] => destruct (Z.ltb_spec a b)
  end; simpl; lia.
Qed.

Lemma small_is_modelled (p : Z) : 0x430 <= p <= 0x44F -> modelled p = true.
Proof using Type.
  intros Hp. unfold modelled.
  repeat match goal with
  | |- context [Z.leb ?a ?b] => destruct (Z.leb_spec a b)
  | |- context [Z.ltb ?a ?b] => destruct (Z.ltb_spec a b)
  end; simpl; lia.
Qed.

(** Within the blocks the characters whose lower case is а..я are А..Я
    and а..я, all letters. *)
Lemma lowers_to_small_is_letter (c p : Z) :
  modelled c = true -> 0x430 <= p <= 0x44F -> tolower c = p -> isalnum c = true.
Proof using Type.
  intros Hmod Hp Hc. unfold isalnum. rewrite Hmod.
  unfold tolower, modelled in *. revert Hc Hmod.
  repeat match goal with
  | |- context [Z.leb ?a ?b] => destruct (Z.leb_spec a b)
  | |- context [Z.ltb ?a ?b] => destruct (Z.ltb_spec a b)
  end; simpl; intros; try discriminate; try lia; reflexivity.
Qed.

Lemma stands_for_small (c p : Z) :
  0x430 <= p <= 0x44F -> ignorecase_eq c p = true -> is_word c = true.
Proof using laws.
  intros Hp Hc. unfold is_word. apply orb_true_iff. left.
  unfold ignorecase_eq in Hc. destruct (modelled c) eqn:Hmod.
  - apply Z.eqb_eq in Hc. rewrite (tolower_small p Hp) in Hc.
    by apply (lowers_to_small_is_letter c p).
  - unfold isalnum. rewrite Hmod. by apply (ignorecase_letter U laws c p).
Qed.

Lemma small_word_chars (w : pystr) :
  cyrillic_small_word w = true ->
  w <> [] /\ Forall (fun p => 0x430 <= p <= 0x44F) w.
Proof using Type.
  unfold cyrillic_small_word. intros H. apply andb_true_iff in H as [Hne Hall].
  split; [by destruct w|].
  apply Forall_forall. intros p Hp. rewrite forallb_forall in Hall.
  apply list_elem_of_In in Hp.
  specialize (Hall p Hp). apply andb_true_iff in Hall as [H1 H2]. lia.
Qed.

(** A match of the literal covers word characters only. *)
Lemma lit_match_covers (w : pystr) : forall s,
  Forall (fun p => 0x430 <= p <= 0x44F) w ->
  lit_match w s = true ->
  (length w <= length s)%nat
  /\ Forall (fun c => is_word c = true) (take (length w) s).
Proof using laws.
  induction w as [|p w IH]; intros s Hw Hm.
  - simpl. split; [lia|constructor].
  - destruct s as [|c s]; [done|]. simpl in Hm.
    apply andb_true_iff in Hm as [Hc Hm].
    apply Forall_cons in Hw as [Hp Hw].
    destruct (IH s Hw Hm) as (Hlen & Hword).
    simpl. split; [lia|]. constructor; [|done]. by apply (stands_for_small c p).
Qed.

Lemma lit_match_app_le (w : pystr) : forall a b,
  (length w <= length a)%nat -> lit_match w (a ++ b) = lit_match w a.
Proof using Type.
  induction w as [|p w IH]; intros a b Hlen; [done|].
  destruct a as [|c a]; [simpl in Hlen; lia|].
  simpl. f_equal. apply IH. simpl in Hlen. lia.
Qed.

Lemma match_here_inside_word (w : pystr) (prev : option Z) (s : pystr) :
  word_opt prev = true -> word_opt (head s) = true -> match_here w prev s = false.
Proof using Type. intros Hp Hs. unfold match_here, boundary. by rewrite Hp, Hs. Qed.

Lemma match_here_at_symbol (w : pystr) (prev : option Z) (s : pystr) :
  cyrillic_small_word w = true ->
  word_opt (head s) = false -> match_here w prev s = false.
Proof using laws.
  intros Hw Hs. destruct (small_word_chars w Hw) as [Hne Hsmall].
  destruct (lit_match w s) eqn:Hm.
  - destruct (lit_match_covers w s Hsmall Hm) as (Hlen & Hword).
    destruct w as [|p w]; [done|]. destruct s as [|c s]; [simpl in Hlen; lia|].
    simpl in Hword, Hs. apply Forall_cons in Hword as [Hc _]. congruence.
  - unfold match_here. rewrite Hm. by rewrite andb_false_r.
Qed.

(** At the start of a whole word the pattern matches exactly when the
    word is the literal. *)
Lemma match_here_at_word (w : pystr) (prev : option Z) (r s : pystr) :
  cyrillic_small_word w = true ->
  word_opt prev = false ->
  r <> [] -> Forall (fun c => is_word c = true) r -> starts_nonword s ->
  match_here w prev (r ++ s) = same_word w r.
Proof using laws.
  intros Hw Hprev Hr Hword Hs.
  destruct (small_word_chars w Hw) as [Hne Hsmall].
  assert (Hstart : boundary prev (head (r ++ s)) = true).
  { unfold boundary. rewrite Hprev. destruct r as [|c r]; [done|].
    simpl. by apply Forall_cons in Hword as [-> _]. }
  unfold match_here, same_word. rewrite Hstart. cbn [andb].
  destruct (lit_match w (r ++ s)) eqn:Hm.
  - destruct (lit_match_covers w (r ++ s) Hsmall Hm) as (Hlen & Hcov).
    assert (Hle : (length w <= length r)%nat).
    { destruct (Nat.le_gt_cases (length w) (length r)) as [|Hgt]; [done|exfalso].
      destruct s as [|c s]; [rewrite app_nil_r in Hlen; lia|].
      unfold starts_nonword in Hs. simpl in Hs.
      assert (Hc : take (length w) (r ++ c :: s) !! length r = Some c).
      { rewrite lookup_take_lt by lia. by rewrite list_lookup_middle. }
      pose proof (Forall_lookup_1 _ _ _ _ Hcov Hc) as Hcw. simpl in Hcw. congruence. }
    rewrite lit_match_app_le in Hm by done. rewrite Hm, andb_true_r. cbn [andb].
    destruct (Nat.eqb_spec (length r) (length w)) as [Heq|Hneq].
    + rewrite <- Heq, take_app_length, drop_app_length.
      unfold boundary. rewrite Hs.
      destruct (last r) as [x|] eqn:Hlast; [|by apply last_None in Hlast].
      apply last_Some in Hlast as [r' ->].
      apply Forall_app in Hword as [_ Hx]. apply Forall_cons in Hx as [Hx _].
      simpl. by rewrite Hx.
    + assert (Hlt : (length w < length r)%nat) by lia.
      rewrite take_app_le, drop_app_le by lia.
      unfold boundary.
      destruct (lookup_lt_is_Some_2 r (length w) Hlt) as [y Hy].
      assert (Hhead : head (drop (length w) r ++ s) = Some y).
      { rewrite <- (take_drop (length w) r) in Hy.
        rewrite lookup_app_r in Hy by (rewrite length_take; lia).
        rewrite length_take in Hy.
        replace (length w - length w `min` length r)%nat with 0%nat in Hy by lia.
        destruct (drop (length w) r); [done|]. simpl in *. done. }
      rewrite Hhead.
      assert (Hyw : is_word y = true).
      { exact (Forall_lookup_1 _ _ _ _ Hword Hy). }
      destruct (last (take (length w) r)) as [x|] eqn:Hlast.
      * assert (Hxw : is_word x = true).
        { apply last_Some in Hlast as [r' Hr'].
          assert (Hin : x ∈ take (length w) r) by (rewrite Hr'; set_solver).
          apply elem_of_take in Hin as (i & Hi & _).
          by apply (Forall_lookup_1 _ _ _ _ Hword Hi). }
        simpl. by rewrite Hxw, Hyw.
      * apply last_None in Hlast. apply (f_equal length) in Hlast.
        rewrite length_take in Hlast. change (length []) with 0%nat in Hlast.
        assert (length w <> 0%nat) by (by destruct w). lia.
  - cbn [andb]. destruct (Nat.eqb_spec (length r) (length w)) as [Heq|Hneq]; [|done].
    cbn [andb]. rewrite <- (lit_match_app_le w r s) by lia. by rewrite Hm.
Qed.


(** *** The substitution, word by word *)

Lemma sub_aux_inside_word (w repl : pystr) : forall (r x : _) (s : pystr),
  is_word x = true -> Forall (fun c => is_word c = true) r ->
  sub_aux w repl (Some x) 0 (r ++ s) = r ++ sub_aux w repl (last (x :: r)) 0 s.
Proof using Type.
  induction r as [|c r IH]; intros x s Hx Hr; [done|].
  apply Forall_cons in Hr as [Hc Hr].
  rewrite <- app_comm_cons. cbn [sub_aux].
  rewrite match_here_inside_word by done.
  rewrite (IH c s Hc Hr). reflexivity.
Qed.

Lemma sub_aux_skip (w repl : pystr) : forall (a : pystr) (prev : option Z) (s : pystr),
  sub_aux w repl prev (length a) (a ++ s)
  = sub_aux w repl (match last a with Some x => Some x | None => prev end) 0 s.
Proof using Type.
  induction a as [|c a IH]; intros prev s; [done|].
  rewrite <- app_comm_cons. cbn [sub_aux length]. rewrite IH.
  destruct a as [|z a]; [reflexivity|].
  change (last (c :: z :: a)) with (last (z :: a)).
  destruct (last (z :: a)) eqn:E; [reflexivity|]. by apply last_None in E.
Qed.

Lemma sub_aux_at_word (w repl : pystr) (prev : option Z) (r s : pystr) :
  cyrillic_small_word w = true ->
  word_opt prev = false ->
  r <> [] -> Forall (fun c => is_word c = true) r -> starts_nonword s ->
  sub_aux w repl prev 0 (r ++ s)
  = replace_word w repl r ++ sub_aux w repl (last r) 0 s.
Proof using laws.
  intros Hw Hprev Hr Hword Hs.
  pose proof (match_here_at_word w prev r s Hw Hprev Hr Hword Hs) as Hm.
  destruct r as [|c r]; [done|].
  rewrite <- app_comm_cons in *. cbn [sub_aux]. rewrite Hm.
  apply Forall_cons in Hword as [Hc Hword]. unfold replace_word.
  destruct (same_word w (c :: r)) eqn:Hsame.
  - f_equal. unfold same_word in Hsame. apply andb_true_iff in Hsame as [Hlen _].
    apply Nat.eqb_eq in Hlen. rewrite <- Hlen. cbn [length].
    replace (S (length r) - 1)%nat with (length r) by lia.
    rewrite sub_aux_skip. destruct r as [|z r]; [reflexivity|].
    change (last (c :: z :: r)) with (last (z :: r)).
    destruct (last (z :: r)) eqn:E; [reflexivity|]. by apply last_None in E.
  - rewrite <- app_comm_cons. f_equal. by apply sub_aux_inside_word.
Qed.

Lemma search_aux_inside_word (w : pystr) : forall (r x : _) (s : pystr),
  is_word x = true -> Forall (fun c => is_word c = true) r ->
  search_aux w (Some x) (r ++ s) = search_aux w (last (x :: r)) s.
Proof using Type.
  induction r as [|c r IH]; intros x s Hx Hr; [done|].
  apply Forall_cons in Hr as [Hc Hr].
  rewrite <- app_comm_cons. cbn [search_aux].
  rewrite match_here_inside_word by done.
  rewrite (IH c s Hc Hr). reflexivity.
Qed.

Lemma search_aux_at_word (w : pystr) (prev : option Z) (r s : pystr) :
  cyrillic_small_word w = true ->
  word_opt prev = false ->
  r <> [] -> Forall (fun c => is_word c = true) r -> starts_nonword s ->
  search_aux w prev (r ++ s) = same_word w r || search_aux w (last r) s.
Proof using laws.
  intros Hw Hprev Hr Hword Hs.
  pose proof (match_here_at_word w prev r s Hw Hprev Hr Hword Hs) as Hm.
  destruct r as [|c r]; [done|].
  rewrite <- app_comm_cons in *. cbn [search_aux]. rewrite Hm.
  apply Forall_cons in Hword as [Hc Hword].
  f_equal. by apply search_aux_inside_word.
Qed.

Lemma map_words_run (f : pystr -> pystr) : forall (r cur s : pystr),
  Forall (fun c => is_word c = true) r ->
  map_words f cur (r ++ s) = map_words f (cur ++ r) s.
Proof using Type.
  induction r as [|c r IH]; intros cur s Hr; [by rewrite app_nil_r|].
  apply Forall_cons in Hr as [Hc Hr].
  rewrite <- app_comm_cons. cbn [map_words]. rewrite Hc, (IH _ _ Hr).
  by rewrite <- app_assoc.
Qed.

Lemma map_words_at_word (f : pystr -> pystr) (r s : pystr) :
  r <> [] -> Forall (fun c => is_word c = true) r -> starts_nonword s ->
  map_words f [] (r ++ s) = f r ++ map_words f [] s.
Proof using Type.
  intros Hr Hword Hs. rewrite map_words_run by done. cbn [app].
  destruct s as [|c s].
  - cbn. destruct r; [done|]. by rewrite app_nil_r.
  - unfold starts_nonword in Hs. cbn in Hs. cbn [map_words]. rewrite Hs.
    destruct r; [done|]. reflexivity.
Qed.

Lemma map_words_at_symbol (f : pystr -> pystr) (c : Z) (s : pystr) :
  is_word c = false -> map_words f [] (c :: s) = c :: map_words f [] s.
Proof using Type. intros Hc. cbn [map_words]. by rewrite Hc. Qed.

Lemma map_words_starts_nonword (f : pystr -> pystr) (s : pystr) :
  starts_nonword s -> starts_nonword (map_words f [] s).
Proof using Type.
  destruct s as [|c s]; [done|]. unfold starts_nonword. cbn. intros Hc. by rewrite Hc.
Qed.

(** [re.sub] with the pattern of a word rewrites the whole words that are
    that word and nothing else. *)
Lemma sub_aux_is_map_words (w repl : pystr) :
  cyrillic_small_word w = true ->
  forall s prev, (word_opt (head s) = true -> word_opt prev = false) ->
  sub_aux w repl prev 0 s
  = map_words (replace_word w repl) [] s.
Proof using laws.
  intros Hw s. pattern s. apply run_ind; clear s;
    [|intros c s Hc IH|intros r s Hr Hword Hs IH]; intros prev Hprev.
  - reflexivity.
  - rewrite map_words_at_symbol by done. cbn [sub_aux].
    rewrite match_here_at_symbol by done.
    f_equal. apply IH. intros _. cbn. exact Hc.
  - assert (Hp : word_opt prev = false).
    { apply Hprev. destruct r as [|c r]; [done|]. cbn. by apply Forall_cons in Hword as [-> _]. }
    rewrite sub_aux_at_word, map_words_at_word by done.
    f_equal. apply IH. intros Hhead. unfold starts_nonword in Hs. congruence.
Qed.

Lemma map_words_compose (f g : pystr -> pystr) :
  (forall r, r <> [] -> Forall (fun c => is_word c = true) r ->
     f r <> [] /\ Forall (fun c => is_word c = true) (f r)) ->
  forall s, map_words g [] (map_words f [] s) = map_words (fun r => g (f r)) [] s.
Proof using Type.
  intros Hf s. pattern s. apply run_ind; clear s;
    [|intros c s Hc IH|intros r s Hr Hword Hs IH].
  - reflexivity.
  - rewrite !map_words_at_symbol by done. by rewrite IH.
  - destruct (Hf r Hr Hword) as (Hfr & Hfw).
    rewrite (map_words_at_word f), (map_words_at_word (fun r => g (f r))) by done.
    rewrite map_words_at_word; try done; [|by apply map_words_starts_nonword].
    by rewrite IH.
Qed.

Lemma map_words_ext (f g : pystr -> pystr) :
  (forall r, r <> [] -> Forall (fun c => is_word c = true) r -> f r = g r) ->
  forall s, map_words f [] s = map_words g [] s.
Proof using Type.
  intros Hfg s. pattern s. apply run_ind; clear s;
    [|intros c s Hc IH|intros r s Hr Hword Hs IH].
  - reflexivity.
  - rewrite !map_words_at_symbol by done. by rewrite IH.
  - rewrite !map_words_at_word by done. by rewrite IH, Hfg.
Qed.

Lemma map_words_id (s : pystr) : map_words (fun r => r) [] s = s.
Proof using Type.
  pattern s. apply run_ind; clear s; [|intros c s Hc IH|intros r s Hr Hword Hs IH].
  - reflexivity.
  - rewrite map_words_at_symbol by done. by rewrite IH.
  - rewrite map_words_at_word by done. by rewrite IH.
Qed.

(** *** The whole words of a text *)

Lemma words_of_run : forall (r cur s : pystr),
  Forall (fun c => is_word c = true) r ->
  words_of cur (r ++ s) = words_of (cur ++ r) s.
Proof using Type.
  induction r as [|c r IH]; intros cur s Hr; [by rewrite app_nil_r|].
  apply Forall_cons in Hr as [Hc Hr].
  rewrite <- app_comm_cons. cbn [words_of]. rewrite Hc, (IH _ _ Hr).
  by rewrite <- app_assoc.
Qed.

Lemma words_of_at_word (r s : pystr) :
  r <> [] -> Forall (fun c => is_word c = true) r -> starts_nonword s ->
  words_of [] (r ++ s) = r :: words_of [] s.
Proof using Type.
  intros Hr Hword Hs. rewrite words_of_run by done. cbn [app].
  destruct s as [|c s].
  - cbn. by destruct r.
  - unfold starts_nonword in Hs. cbn in Hs. cbn [words_of]. rewrite Hs.
    by destruct r.
Qed.

Lemma words_of_at_symbol (c : Z) (s : pystr) :
  is_word c = false -> words_of [] (c :: s) = words_of [] s.
Proof using Type. intros Hc. cbn [words_of]. by rewrite Hc. Qed.

Lemma words_of_are_words (s run : pystr) :
  In run (words_of [] s) -> run <> [] /\ Forall (fun c => is_word c = true) run.
Proof using Type.
  pattern s. apply run_ind; clear s; [|intros c s Hc IH|intros r s Hr Hword Hs IH].
  - intros [].
  - rewrite words_of_at_symbol by done. exact IH.
  - rewrite words_of_at_word by done. intros [<-|Hin]; [done|by apply IH].
Qed.

Lemma words_of_map_words (f : pystr -> pystr) :
  (forall r, r <> [] -> Forall (fun c => is_word c = true) r ->
     f r <> [] /\ Forall (fun c => is_word c = true) (f r)) ->
  forall s, words_of [] (map_words f [] s) = map f (words_of [] s).
Proof using Type.
  intros Hf s. pattern s. apply run_ind; clear s;
    [|intros c s Hc IH|intros r s Hr Hword Hs IH].
  - reflexivity.
  - rewrite map_words_at_symbol, !words_of_at_symbol by done. exact IH.
  - destruct (Hf r Hr Hword) as (Hfr & Hfw).
    rewrite map_words_at_word, (words_of_at_word r s) by done.
    rewrite words_of_at_word; try done; [|by apply map_words_starts_nonword].
    cbn [map]. by rewrite IH.
Qed.

(** *** The test [word in fixed_text.lower()] *)

Lemma contains_app_r (p a b : pystr) : contains p b = true -> contains p (a ++ b) = true.
Proof using Type.
  intros Hb. induction a as [|c a IH]; [done|].
  cbn [app contains]. rewrite IH. apply orb_true_r.
Qed.

Lemma contains_prefix (p s : pystr) : contains p (p ++ s) = true.
Proof using Type. destruct (p ++ s) eqn:E; cbn [contains]; rewrite <- E, starts_with_app; done. Qed.

Lemma str_lower_app (a b : pystr) : str_lower (a ++ b) = str_lower a ++ str_lower b.
Proof using Type. unfold str_lower. apply flat_map_app. Qed.

(** The lower case of a whole word of the text is part of the lower case
    of the text. *)
Lemma word_in_lower (s run : pystr) :
  In run (words_of [] s) -> contains (str_lower run) (str_lower s) = true.
Proof using Type.
  pattern s. apply run_ind; clear s; [|intros c s Hc IH|intros r s Hr Hword Hs IH].
  - intros [].
  - rewrite words_of_at_symbol by done. intros Hin.
    change (c :: s) with ([c] ++ s). rewrite str_lower_app.
    apply contains_app_r. by apply IH.
  - rewrite words_of_at_word by done. rewrite str_lower_app. intros [<-|Hin].
    + apply contains_prefix.
    + apply contains_app_r. by apply IH.
Qed.

(** A word whose lower case is the literal is matched by the pattern of
    the literal. *)
Lemma lowers_to_same_word : forall (run w : pystr),
  Forall (fun p => 0x430 <= p <= 0x44F) w ->
  str_lower run = w -> same_word w run = true.
Proof using laws.
  unfold same_word.
  induction run as [|c run IH]; intros w Hw Hlow.
  - cbn in Hlow. by subst w.
  - change (c :: run) with ([c] ++ run) in Hlow. rewrite str_lower_app in Hlow.
    unfold str_lower at 1 in Hlow. cbn [flat_map] in Hlow. rewrite app_nil_r in Hlow.
    unfold lower_full in Hlow. destruct (modelled c) eqn:Hmod.
    + cbn [app] in Hlow. subst w. apply Forall_cons in Hw as [Hp Hw].
      specialize (IH (str_lower run) Hw eq_refl).
      apply andb_true_iff in IH as [Hlen Hm]. apply Nat.eqb_eq in Hlen.
      cbn [length lit_match]. rewrite Hm, andb_true_r.
      apply andb_true_iff. split; [apply Nat.eqb_eq; by rewrite Hlen|].
      unfold ignorecase_eq. rewrite Hmod. apply Z.eqb_eq.
      by rewrite (tolower_small (tolower c) Hp).
    + exfalso. pose proof (lower_not_empty U laws c Hmod) as Hne.
      destruct (ext_lower c) as [|x l] eqn:Hx; [done|].
      cbn [app] in Hlow. subst w. apply Forall_cons in Hw as [Hp _].
      apply (lower_not_small U laws c x Hmod); [rewrite Hx; by left|exact Hp].
Qed.

(** *** Step 4 as a whole *)

Lemma forbidden_words_are_small : forallb cyrillic_small_word FORBIDDEN_WORDS = true.
Proof using Type. reflexivity. Qed.

Lemma forbidden_word_is_small (w : pystr) :
  In w FORBIDDEN_WORDS ->
  cyrillic_small_word w = true /\ Forall (fun p => 0x430 <= p <= 0x44F) w.
Proof using Type.
  intros Hin. pose proof forbidden_words_are_small as H. rewrite forallb_forall in H.
  split; [by apply H|]. apply small_word_chars. by apply H.
Qed.

Lemma neutral_term_is_a_word :
  Forall (fun c => is_word c = true) (py "коллега")
  /\ forallb (fun w => negb (lowers_to w (py "коллега"))) FORBIDDEN_WORDS = true.
Proof using Type. split; [repeat constructor|vm_compute; reflexivity]. Qed.

Lemma neutral_term_not_forbidden (w : pystr) :
  In w FORBIDDEN_WORDS -> lowers_to w (py "коллега") = false.
Proof using Type.
  intros Hin. destruct neutral_term_is_a_word as [_ H]. rewrite forallb_forall in H.
  apply negb_true_iff. by apply H.
Qed.

Lemma forbidden_word_pass_cases (t w run : pystr) :
  forbidden_word_pass t w run = run
  \/ (forbidden_word_pass t w run = py "коллега" /\ same_word w run = true
       /\ contains w (str_lower t) = true).
Proof using Type.
  unfold forbidden_word_pass, replace_word.
  destruct (contains w (str_lower t)); [|by left].
  destruct (same_word w run); [by right|by left].
Qed.

Lemma forbidden_word_pass_keeps_words (t w r : pystr) :
  r <> [] -> Forall (fun c => is_word c = true) r ->
  forbidden_word_pass t w r <> []
  /\ Forall (fun c => is_word c = true) (forbidden_word_pass t w r).
Proof using Type.
  intros Hr Hword.
  destruct (forbidden_word_pass_cases t w r) as [->|(-> & _)]; [done|].
  split; [vm_compute; discriminate|apply neutral_term_is_a_word].
Qed.

(** One round of the loop rewrites the whole words that the pattern
    matches, when the test lets it run. *)
Lemma fix_forbidden_word_is_map_words (t w : pystr) :
  In w FORBIDDEN_WORDS ->
  fix_forbidden_word t w = map_words (forbidden_word_pass t w) [] t.
Proof using laws.
  intros Hin. destruct (forbidden_word_is_small w Hin) as [Hw _].
  unfold fix_forbidden_word.
  rewrite (map_words_ext (forbidden_word_pass t w)
             (if contains w (str_lower t) then replace_word w (py "коллега") else fun r => r))
    by (intros r _ _; unfold forbidden_word_pass; by destruct (contains w (str_lower t))).
  destruct (contains w (str_lower t)); [|by rewrite map_words_id].
  unfold re_sub. destruct w as [|p w]; [done|]. by apply sub_aux_is_map_words.
Qed.

(** A whole word that is [w] in some case is rewritten by the round of
    [w]. *)
Lemma forbidden_word_pass_hits (t w run : pystr) :
  In w FORBIDDEN_WORDS -> In run (words_of [] t) -> lowers_to w run = true ->
  forbidden_word_pass t w run = py "коллега".
Proof using laws.
  intros Hin Hrun Hlow. destruct (forbidden_word_is_small w Hin) as [_ Hsmall].
  unfold lowers_to in Hlow. apply bool_decide_eq_true in Hlow.
  unfold forbidden_word_pass, replace_word.
  pose proof (word_in_lower t run Hrun) as Hguard. rewrite Hlow in Hguard.
  rewrite Hguard. by rewrite (lowers_to_same_word run w Hsmall Hlow).
Qed.

Lemma forbidden_fold (ws : list pystr) :
  (forall w, In w ws -> In w FORBIDDEN_WORDS) ->
  forall t, exists f,
    fold_left fix_forbidden_word ws t = map_words f [] t
    /\ (forall r, r <> [] -> Forall (fun c => is_word c = true) r ->
          f r <> [] /\ Forall (fun c => is_word c = true) (f r))
    /\ (forall run, f run = run
          \/ (f run = py "коллега" /\ existsb (fun w => same_word w run) ws = true))
    /\ (forall run, In run (words_of [] t) ->
          existsb (fun w => lowers_to w run) ws = true -> f run = py "коллега")
    /\ (forall run, In run (words_of [] (fold_left fix_forbidden_word ws t)) ->
          existsb (fun w => lowers_to w run) ws = false).
Proof using laws.
  induction ws as [|w ws IH]; intros Hws t.
  - exists (fun r => r). cbn [fold_left existsb].
    split; [by rewrite map_words_id|]. split; [done|]. split; [by left|]. done.
  - assert (Hw : In w FORBIDDEN_WORDS) by (apply Hws; by left).
    assert (Hws' : forall w', In w' ws -> In w' FORBIDDEN_WORDS)
      by (intros w' Hw'; apply Hws; by right).
    set (g := forbidden_word_pass t w).
    assert (Hg : forall r, r <> [] -> Forall (fun c => is_word c = true) r ->
                   g r <> [] /\ Forall (fun c => is_word c = true) (g r))
      by (intros r; apply forbidden_word_pass_keeps_words).
    assert (Ht1 : fix_forbidden_word t w = map_words g [] t)
      by (by apply fix_forbidden_word_is_map_words).
    destruct (IH Hws' (fix_forbidden_word t w)) as (f' & Hfold & Hkeep & Hcases & Hhit & Hnone).
    assert (Hrep : f' (py "коллега") = py "коллега").
    { destruct (Hcases (py "коллега")) as [H|[H _]]; exact H. }
    assert (Hwords1 : words_of [] (fix_forbidden_word t w) = map g (words_of [] t)).
    { rewrite Ht1. by apply words_of_map_words. }
    exists (fun r => f' (g r)). cbn [fold_left existsb].
    split; [|split; [|split; [|split]]].
    + rewrite Hfold, Ht1. by apply map_words_compose.
    + intros r Hr Hword. destruct (Hg r Hr Hword) as [Hgr Hgw]. by apply Hkeep.
    + intros run. destruct (forbidden_word_pass_cases t w run) as [Hrun|(Hrun & Hsame & _)];
        fold g in Hrun; rewrite Hrun.
      * destruct (Hcases run) as [H|[H Hex]]; [by left|right].
        split; [done|]. rewrite Hex. apply orb_true_r.
      * right. split; [done|]. by rewrite Hsame.
    + intros run Hin Hex.
      destruct (lowers_to w run) eqn:Hlow.
      * unfold g. rewrite (forbidden_word_pass_hits t w run Hw Hin Hlow). exact Hrep.
      * cbn [orb] in Hex.
        destruct (forbidden_word_pass_cases t w run) as [Hrun|(Hrun & _)];
          fold g in Hrun; rewrite Hrun; [|exact Hrep].
        apply Hhit; [|exact Hex]. rewrite Hwords1, <- Hrun. by apply in_map.
    + intros run Hin. rewrite (Hnone run Hin), orb_false_r.
      rewrite Hfold, (words_of_map_words f' Hkeep), Hwords1 in Hin.
      apply in_map_iff in Hin as (r1 & <- & Hin).
      apply in_map_iff in Hin as (r & <- & Hin).
      destruct (Hcases (g r)) as [->|[-> _]]; [|by apply neutral_term_not_forbidden].
      destruct (forbidden_word_pass_cases t w r) as [Hrun|(Hrun & _)];
        fold g in Hrun; rewrite Hrun; [|by apply neutral_term_not_forbidden].
      destruct (lowers_to w r) eqn:Hlow; [|reflexivity].
      pose proof (forbidden_word_pass_hits t w r Hw Hin Hlow) as Hhit'.
      fold g in Hhit'. rewrite Hrun in Hhit'. rewrite Hhit' in Hlow.
      by rewrite (neutral_term_not_forbidden w Hw) in Hlow.
Qed.

(** The pattern of [w] matches somewhere exactly when it matches a
    whole word. *)
Lemma search_aux_is_some_word (w : pystr) :
  cyrillic_small_word w = true ->
  forall s prev, (word_opt (head s) = true -> word_opt prev = false) ->
  search_aux w prev s = existsb (same_word w) (words_of [] s).
Proof using laws.
  intros Hw s. pattern s. apply run_ind; clear s;
    [|intros c s Hc IH|intros r s Hr Hword Hs IH]; intros prev Hprev.
  - reflexivity.
  - rewrite words_of_at_symbol by done. cbn [search_aux].
    rewrite match_here_at_symbol by done.
    apply IH. intros _. cbn. exact Hc.
  - assert (Hp : word_opt prev = false).
    { apply Hprev. destruct r as [|c r]; [done|]. cbn. by apply Forall_cons in Hword as [-> _]. }
    rewrite search_aux_at_word, words_of_at_word by done.
    cbn [existsb]. f_equal. apply IH. intros Hhead. unfold starts_nonword in Hs. congruence.
Qed.

Lemma same_word_lowers_to (no_variants : no_case_variants U) : forall (w run : pystr),
  Forall (fun p => 0x430 <= p <= 0x44F) w ->
  same_word w run = true -> str_lower run = w.
Proof using Type.
  unfold same_word.
  induction w as [|p w IH]; intros run Hw Hsame.
  - apply andb_true_iff in Hsame as [Hlen _]. apply Nat.eqb_eq in Hlen.
    by destruct run.
  - apply andb_true_iff in Hsame as [Hlen Hm]. apply Nat.eqb_eq in Hlen.
    destruct run as [|c run]; [done|]. cbn [lit_match] in Hm.
    apply andb_true_iff in Hm as [Hc Hm]. apply Forall_cons in Hw as [Hp Hw].
    change (c :: run) with ([c] ++ run). rewrite str_lower_app.
    rewrite (IH run Hw) by (cbn [length] in Hlen; apply andb_true_iff; split;
                            [apply Nat.eqb_eq; lia|done]).
    unfold str_lower. cbn [flat_map]. rewrite app_nil_r.
    unfold ignorecase_eq in Hc. unfold lower_full.
    destruct (modelled c) eqn:Hmod.
    + apply Z.eqb_eq in Hc. rewrite (tolower_small p Hp) in Hc. by rewrite Hc.
    + by rewrite (no_variants c p Hmod Hp) in Hc.
Qed.

End WordRuns.

Lemma plain_ext_laws : unicode_laws plain_ext /\ no_case_variants plain_ext.
Proof.
  assert (Hsmall : forall c, modelled c = false -> ~ (0x430 <= c <= 0x44F)).
  { intros c Hmod Hc. by rewrite small_is_modelled in Hmod. }
  split; [split|].
  - intros c _. discriminate.
  - intros c x Hmod [<-|[]]. by apply Hsmall.
  - intros c p Hmod Hp Heq. simpl in Heq. apply Z.eqb_eq in Heq. subst p.
    by destruct (Hsmall c Hmod).
  - intros c p Hmod Hp. simpl. apply Z.eqb_neq. intros ->. by destruct (Hsmall p Hmod).
Qed.

(** C7. For a text that keeps at least 5 characters after trimming,
    step 4 of [_validate_and_fix_reply] rewrites whole words of the text it
    receives (the text after the cut and the gender pass, which is the
    input itself for a text of at most 1000 characters and a participant
    other than agent_2) and keeps every other character: a whole word that
    is a forbidden word in any case becomes "коллега", and a word is
    changed only when the pattern of a forbidden word matches it.  No whole
    word of the result is a forbidden word in any case; and where
    re.IGNORECASE knows no variant letters, the pattern of no forbidden
    word matches in the result. *)
Theorem C7_forbidden_words_replaced {U : UnicodeExt} (text agent_id : pystr) :
  unicode_laws U ->
  (5 <= length (strip text))%nat ->
  let received := fix_gender agent_id (cap_length text) in
  let fixed := _validate_and_fix_reply text agent_id in
  (exists f, fixed = map_words f [] received
     /\ (forall run, In run (words_of [] received) -> forbidden run = true ->
           f run = py "коллега")
     /\ (forall run, f run = run \/ (f run = py "коллега" /\ pattern_forbidden run = true)))
  /\ (forall run, In run (words_of [] fixed) -> forbidden run = false)
  /\ (no_case_variants U ->
      forall word, In word FORBIDDEN_WORDS -> re_search word fixed = false)
  /\ ((length text <= 1000)%nat -> agent_id <> py "agent_2" -> received = text).
Proof.
  intros laws Htrim received fixed.
  assert (Hfixed : fixed = fix_forbidden received).
  { unfold fixed, _validate_and_fix_reply. by rewrite (not_empty_reply text Htrim). }
  destruct (forbidden_fold laws FORBIDDEN_WORDS (fun w H => H) received)
    as (f & Hfold & _ & Hcases & Hhit & Hnone).
  fold (fix_forbidden received) in Hfold, Hnone. rewrite <- Hfixed in Hfold, Hnone.
  split; [|split; [|split]].
  - exists f. split; [exact Hfold|]. split; [exact Hhit|exact Hcases].
  - exact Hnone.
  - intros no_variants word Hin.
    destruct (forbidden_word_is_small word Hin) as [Hw Hsmall].
    destruct (small_word_chars word Hw) as [Hne _].
    replace (re_search word fixed) with (search_aux word None fixed) by (by destruct word).
    rewrite (search_aux_is_some_word laws word Hw) by done.
    destruct (existsb (same_word word) (words_of [] fixed)) eqn:Hex; [exfalso|reflexivity].
    apply existsb_exists in Hex as (run & Hrun & Hsame).
    pose proof (same_word_lowers_to no_variants word run Hsmall Hsame) as Hlow.
    assert (Hforb : forbidden run = true).
    { unfold forbidden. apply existsb_exists. exists word. split; [done|].
      unfold lowers_to. by apply bool_decide_eq_true. }
    unfold forbidden in Hforb. by rewrite (Hnone run Hrun) in Hforb.
  - intros Hlen Hagent. unfold received, fix_gender, cap_length.
    rewrite bool_decide_eq_false_2 by done.
    destruct (Nat.ltb_spec 1000 (length text)); [lia|done].
Qed.

Lemma C7_forbidden_words_replaced_witness :
  let text := py "Слушай, БРАТ, я был рад, дружище!" in
  unicode_laws plain_ext
  /\ (5 <= length (strip (U := plain_ext) text))%nat
  /\ (forall run,
        In run (words_of (U := plain_ext) []
                  (_validate_and_fix_reply (U := plain_ext) text (py "agent_2"))) ->
        forbidden (U := plain_ext) run = false)
  /\ re_search (U := plain_ext) (py "брат")
       (_validate_and_fix_reply (U := plain_ext) text (py "agent_2")) = false.
Proof.
  intros text.
  assert (Htrim : (5 <= length (strip (U := plain_ext) text))%nat) by (vm_compute; lia).
  split; [exact (proj1 plain_ext_laws)|]. split; [exact Htrim|].
  destruct (C7_forbidden_words_replaced (U := plain_ext) text (py "agent_2")
              (proj1 plain_ext_laws) Htrim) as (_ & Hnone & Hsearch & _).
  split; [exact Hnone|].
  apply (Hsearch (proj2 plain_ext_laws)). right. left. reflexivity.
Defined.

Example forbidden_words_example {U : UnicodeExt} :
  _validate_and_fix_reply (py "Эй, БРАТ, брат_2 и братство, брат!") (py "agent_1")
    = py "Эй, коллега, брат_2 и братство, коллега!"
  /\ words_of [] (py "Эй, БРАТ, брат_2!") = [py "Эй"; py "БРАТ"; py "брат_2"].
Proof. vm_compute. split; reflexivity. Qed.

(** With the variant letter U+1C84 the word "браᲄ" is matched by the
    pattern of "брат" but is not "брат" in lower case: the test of step 4
    fails and the word stays, unless the text also holds "брат" itself. *)
Example variant_letter_words :
  _validate_and_fix_reply (U := tall_te_ext) (py "Привет, браᲄ!") (py "agent_1")
    = py "Привет, браᲄ!"
  /\ re_search (U := tall_te_ext) (py "брат") (py "Привет, браᲄ!") = true
  /\ forbidden (U := tall_te_ext) (py "браᲄ") = false
  /\ _validate_and_fix_reply (U := tall_te_ext) (py "Брат и браᲄ!") (py "agent_1")
     = py "коллега и коллега!".
Proof. vm_compute. repeat split; reflexivity. Qed.

(** ** A turn with a failing backend *)

Section Turns.
Context {U : UnicodeExt}.

Lemma new_entry_has_keys (role content : pystr) (metadata : option (gmap string value)) (now : Z) :
  is_Some (new_entry role content metadata now !! "role"%string)
  /\ is_Some (new_entry role content metadata now !! "content"%string).
Proof.
  unfold new_entry. destruct metadata as [m|].
  - case_bool_decide.
    + split; by simplify_map_eq.
    + split; apply lookup_union_is_Some; right; by simplify_map_eq.
  - split; by simplify_map_eq.
Qed.

Lemma slice_from_drop {A : Type} (start : Z) (l : list A) :
  exists k, slice_from start l = drop k l.
Proof. unfold slice_from. eauto. Qed.

Lemma mapM_format_entry_ok (h : list (gmap string value)) :
  Forall (fun e : gmap string value =>
            is_Some (e !! "role"%string) /\ is_Some (e !! "content"%string)) h ->
  exists formatted, mapM format_entry h = Ok formatted.
Proof.
  induction 1 as [|e h [[r Hr] [c Hc]] _ [vs IH]]; [by exists []|].
  exists ((r, c) :: vs).
  change (mapM format_entry (e :: h))
    with (y ← format_entry e; k ← mapM format_entry h; mret (y :: k)).
  assert (He : format_entry e = Ok (r, c)) by (unfold format_entry; by rewrite Hr, Hc).
  rewrite He. cbn [mbind result_bind]. rewrite IH. reflexivity.
Qed.

Lemma get_recent_history_ok (pb : PromptBuilder) (n : option Z) (dm : DialogManager) :
  session_ok pb dm -> exists formatted, get_recent_history n dm = Ok formatted.
Proof.
  intros (_ & _ & Hh). unfold get_recent_history.
  destruct (slice_from_drop (- default (max_history dm) n) (history dm)) as [k ->].
  apply mapM_format_entry_ok. by apply Forall_drop.
Qed.

Lemma add_to_history_keeps_keys (role content : pystr) (metadata : option (gmap string value))
  (now : Z) (dm : DialogManager) :
  Forall (fun e : gmap string value =>
            is_Some (e !! "role"%string) /\ is_Some (e !! "content"%string)) (history dm) ->
  Forall (fun e : gmap string value =>
            is_Some (e !! "role"%string) /\ is_Some (e !! "content"%string))
         (history (add_to_history role content metadata now dm)).
Proof.
  intros Hh. unfold add_to_history. simpl.
  assert (Hall : Forall (fun e : gmap string value =>
            is_Some (e !! "role"%string) /\ is_Some (e !! "content"%string))
            (history dm ++ [new_entry role content metadata now])).
  { apply Forall_app. split; [done|]. constructor; [apply new_entry_has_keys|constructor]. }
  destruct (_ >? _); [|done].
  destruct (slice_from_drop (- max_history dm) (history dm ++ [new_entry role content metadata now]))
    as [k ->].
  by apply Forall_drop.
Qed.

(** In a session that can run a turn always returns, whatever the backend
    does. *)
Lemma get_next_reply_returns (pb : PromptBuilder) (w : turn_world) (topic : option pystr)
  (dm : DialogManager) (a : pystr) (rest : list pystr) :
  session_ok pb dm ->
  agent_queue dm = a :: rest ->
  exists cfg dm',
    agents pb !! a = Some cfg
    /\ (let gen := generate_or_fallback pb w a (reply_count dm =? 0) topic in
        let text := _validate_and_fix_reply gen.1 a in
        get_next_reply pb w topic dm
        = Ok ((a, text, (_extract_emotion text (map tag (emotions cfg))).2, gen.2), dm')
        /\ total_tokens dm' = total_tokens dm + gen.2)
    /\ agent_queue dm' = rest ++ [a]
    /\ reply_count dm' = reply_count dm + 1
    /\ session_ok pb dm'.
Proof.
  intros Hok Hq.
  destruct (get_next_agent_ok dm a rest Hq)
    as (dm1 & Hstep & Hq1 & Hh1 & Hm1 & Hr1 & Ht1 & _).
  pose proof Hok as (Hne & Hcfg & Hh).
  destruct (Hcfg a) as [cfg Hcfga]; [rewrite Hq; apply list_elem_of_here|].
  assert (Hok1 : session_ok pb dm1).
  { split; [|split].
    - rewrite Hq1. by destruct rest.
    - intros b Hb. apply Hcfg. rewrite Hq. rewrite Hq1 in Hb.
      apply elem_of_app in Hb as [Hb|Hb].
      + by apply list_elem_of_further.
      + apply list_elem_of_singleton in Hb. subst b. apply list_elem_of_here.
    - by rewrite Hh1. }
  destruct (get_recent_history_ok pb None dm1 Hok1) as [formatted Hrecent].
  exists cfg.
  unfold get_next_reply. rewrite Hstep. cbn [mbind result_bind].
  unfold get_agent_config at 1. rewrite Hcfga. cbn [of_option mbind result_bind].
  rewrite Hrecent. cbn [mbind result_bind].
  rewrite Hr1.
  destruct (generate_or_fallback pb w a (reply_count dm =? 0) topic) as [text tokens].
  cbn [fst snd].
  destruct (_extract_emotion (_validate_and_fix_reply text a) (map tag (emotions cfg)))
    as [emotion_tag clean_text].
  unfold get_temperature, get_agent_config. rewrite Hcfga. cbn [of_option mbind result_bind fst snd].
  cbv zeta. cbn [fst snd].
  eexists. split; [reflexivity|]. split; [split; [reflexivity|]|split; [|split]].
  - simpl. by rewrite Ht1.
  - simpl. exact Hq1.
  - simpl. by rewrite Hr1.
  - destruct Hok1 as (Hne1 & Hcfg1 & Hh1').
    split; [|split]; [exact Hne1|exact Hcfg1|].
    apply add_to_history_keeps_keys. exact Hh1'.
Qed.


Lemma exhausted_retries_give_no_answer (b : backend_call) :
  exhausts_retries b -> generate_response b 3 = Ok (NO_ANSWER, 0).
Proof.
  intros [Htok Hall]. unfold generate_response. rewrite Htok.
  pose proof (Hall 0%nat ltac:(lia)) as H0.
  pose proof (Hall 1%nat ltac:(lia)) as H1.
  pose proof (Hall 2%nat ltac:(lia)) as H2.
  unfold attempt_fails in *. cbn [retry_loop].
  destruct (attempts b 0) as [h0 r0|a0 t0].
  - apply negb_true_iff in H0. rewrite H0.
    destruct (attempts b 1) as [h1 r1|a1 t1].
    + apply negb_true_iff in H1. rewrite H1.
      destruct (attempts b 2) as [h2 r2|a2 t2].
      * apply negb_true_iff in H2. by rewrite H2.
      * by rewrite H2.
    + rewrite H1. change (1 <? 3 - 1)%nat with true. cbv iota.
      destruct (attempts b 2) as [h2 r2|a2 t2].
      * apply negb_true_iff in H2. by rewrite H2.
      * by rewrite H2.
  - rewrite H0. change (0 <? 3 - 1)%nat with true. cbv iota.
    destruct (attempts b 1) as [h1 r1|a1 t1].
    + apply negb_true_iff in H1. rewrite H1.
      destruct (attempts b 2) as [h2 r2|a2 t2].
      * apply negb_true_iff in H2. by rewrite H2.
      * by rewrite H2.
    + rewrite H1. change (1 <? 3 - 1)%nat with true. cbv iota.
      destruct (attempts b 2) as [h2 r2|a2 t2].
      * apply negb_true_iff in H2. by rewrite H2.
      * by rewrite H2.
Qed.

Lemma raising_backend_gives_fallback (pb : PromptBuilder) (w : turn_world) (a : pystr)
  (is_first : bool) (topic : option pystr) :
  backend_raises (backend w) ->
  generate_or_fallback pb w a is_first topic = (error_fallback a, 10).
Proof.
  intros [e He]. unfold generate_or_fallback, try_generate. rewrite He.
  destruct (build_system_prompt _); [|done]. cbn [mbind result_bind].
  destruct (get_temperature pb a); [|done]. cbn [mbind result_bind].
  destruct (get_max_tokens pb a); done.
Qed.

Lemma exhausted_backend_gives_no_answer (pb : PromptBuilder) (w : turn_world) (a : pystr)
  (cfg : agent_config) (is_first : bool) (topic : option pystr) :
  agents pb !! a = Some cfg ->
  exhausts_retries (backend w) ->
  first_prompt_fails w = false -> system_prompt_fails w = false ->
  generate_or_fallback pb w a is_first topic = (NO_ANSWER, 0).
Proof.
  intros Hcfg Hex Hp1 Hp2. unfold generate_or_fallback, try_generate.
  rewrite Hp1, Hp2, (exhausted_retries_give_no_answer _ Hex).
  unfold get_temperature, get_max_tokens, get_agent_config. rewrite Hcfg.
  by destruct (is_first && _).
Qed.

(** What the [try] statement yields when the backend fails in one of the
    two ways. *)
Lemma failing_backend_outcomes (pb : PromptBuilder) (w : turn_world) (a : pystr)
  (is_first : bool) (topic : option pystr) :
  backend_raises (backend w) \/ exhausts_retries (backend w) ->
  generate_or_fallback pb w a is_first topic = (error_fallback a, 10)
  \/ generate_or_fallback pb w a is_first topic = (NO_ANSWER, 0).
Proof.
  intros [Hr|Hex]; [left; by apply raising_backend_gives_fallback|].
  unfold generate_or_fallback, try_generate.
  rewrite (exhausted_retries_give_no_answer _ Hex).
  destruct (build_system_prompt _); [|by left]. cbn [mbind result_bind].
  destruct (get_temperature pb a); [|by left]. cbn [mbind result_bind].
  destruct (get_max_tokens pb a); [by right|by left].
Qed.

Lemma fallback_passes_the_sanitizer (a : pystr) :
  _validate_and_fix_reply (error_fallback a) a = error_fallback a.
Proof.
  unfold error_fallback. case_bool_decide as H1.
  - subst a. vm_compute. reflexivity.
  - unfold _validate_and_fix_reply, fix_gender. case_bool_decide as H2.
    + vm_compute. reflexivity.
    + vm_compute. reflexivity.
Qed.

Lemma no_answer_passes_the_sanitizer (a : pystr) :
  _validate_and_fix_reply NO_ANSWER a = NO_ANSWER.
Proof.
  unfold _validate_and_fix_reply, fix_gender. case_bool_decide; vm_compute; reflexivity.
Qed.

Lemma error_fallback_not_empty (a : pystr) : error_fallback a <> [].
Proof. unfold error_fallback. case_bool_decide; vm_compute; discriminate. Qed.

Lemma rotated_lookup {A : Type} (a : A) (rest : list A) (i : nat) :
  (rest ++ [a]) !! (i mod S (length rest))%nat = (a :: rest) !! (S i mod S (length rest))%nat.
Proof.
  set (n := S (length rest)).
  assert (Hk : (i mod n < n)%nat) by (apply Nat.mod_upper_bound; unfold n; lia).
  pose proof (Nat.div_mod_eq i n) as Hi.
  destruct (decide (i mod n = length rest)%nat) as [Hlast|Hin].
  - assert (Hs : (S i mod n = 0)%nat).
    { replace (S i) with (0 + (i / n + 1) * n)%nat by (unfold n in *; lia).
      rewrite Nat.Div0.mod_add. apply Nat.Div0.mod_0_l. }
    rewrite Hs, Hlast. rewrite lookup_app_r by lia.
    by replace (length rest - length rest)%nat with 0%nat by lia.
  - assert (Hs : (S i mod n = S (i mod n))%nat).
    { replace (S i) with (S (i mod n) + (i / n) * n)%nat at 1 by lia.
      rewrite Nat.Div0.mod_add. apply Nat.mod_small. unfold n in *. lia. }
    rewrite Hs. rewrite lookup_app_l by (unfold n in *; lia). reflexivity.
Qed.


End Turns.

(** C1, as the code has it.  In a session that can run (a non-empty
    queue of configured participants), N calls of [get_next_reply] whose
    backend calls all fail return N replies and raise nothing; the count of
    replies grows by N; the participants take their turns in rotation; no
    reply is empty.  When the backend call raises, the reply is the
    fallback utterance of the participant whose turn it is, with 10 tokens
    (so N raising calls add 10 N tokens).  When the backend runs out of
    retries it returns its own sentence and 0 tokens, and that is the reply. *)
Theorem C1_failing_backend_never_stops_the_session {U : UnicodeExt} (pb : PromptBuilder) :
  forall (calls : list (option pystr * turn_world)) (dm : DialogManager),
  session_ok pb dm ->
  Forall backend_fails calls ->
  exists rs dm',
    run_turns pb calls dm = Ok (rs, dm')
    /\ length rs = length calls
    /\ reply_count dm' = reply_count dm + Z.of_nat (length calls)
    /\ (forall i call r, calls !! i = Some call -> rs !! i = Some r ->
          agent_queue dm !! (i mod length (agent_queue dm))%nat = Some (reply_agent r)
          /\ full_text r <> []
          /\ (backend_raises (backend call.2) ->
                full_text r = error_fallback (reply_agent r) /\ reply_tokens r = 10)
          /\ (exhausts_retries (backend call.2) ->
                first_prompt_fails call.2 = false -> system_prompt_fails call.2 = false ->
                full_text r = NO_ANSWER /\ reply_tokens r = 0))
    /\ (Forall (fun call : option pystr * turn_world => backend_raises (backend call.2)) calls ->
          total_tokens dm' = total_tokens dm + 10 * Z.of_nat (length calls)).
Proof.
  induction calls as [|[topic w] more IH]; intros dm Hok Hfail.
  - exists [], dm. split; [reflexivity|]. split; [reflexivity|]. split; [simpl; lia|].
    split; [intros i call r Hi; done|intros _; simpl; lia].
  - apply Forall_cons in Hfail as [Hw Hmore].
    destruct (agent_queue dm) as [|a rest] eqn:Hq; [by destruct Hok|].
    destruct (get_next_reply_returns pb w topic dm a rest Hok Hq)
      as (cfg & dm1 & Hcfg & [Hreply Htok1] & Hq1 & Hr1 & Hok1).
    destruct (IH dm1 Hok1 Hmore) as (rs & dm2 & Hrun & Hlen & Hcount & Heach & Hsum).
    set (gen := generate_or_fallback pb w a (reply_count dm =? 0) topic) in *.
    set (text := _validate_and_fix_reply gen.1 a) in *.
    set (r0 := (a, text, (_extract_emotion text (map tag (emotions cfg))).2, gen.2) : reply) in *.
    exists (r0 :: rs), dm2. split; [|split; [|split; [|split]]].
    + cbn [run_turns]. rewrite Hreply. cbn [mbind result_bind]. rewrite Hrun. reflexivity.
    + simpl. by rewrite Hlen.
    + rewrite Hcount, Hr1. simpl length. lia.
    + intros i call r Hi Hri. destruct i as [|i].
      * simpl in Hi, Hri. injection Hi as <-. injection Hri as <-.
        split; [by rewrite Nat.Div0.mod_0_l|].
        unfold full_text, reply_agent, reply_tokens, r0, text. cbn [fst snd].
        split; [|split].
        -- destruct (failing_backend_outcomes pb w a (reply_count dm =? 0) topic Hw) as [Hg|Hg];
             fold gen in Hg; rewrite Hg; cbn [fst].
           ++ rewrite fallback_passes_the_sanitizer. apply error_fallback_not_empty.
           ++ rewrite no_answer_passes_the_sanitizer. vm_compute. discriminate.
        -- intros Hraise.
           pose proof (raising_backend_gives_fallback pb w a (reply_count dm =? 0) topic Hraise) as Hg.
           fold gen in Hg. rewrite Hg. cbn [fst snd].
           by rewrite fallback_passes_the_sanitizer.
        -- intros Hex Hp1 Hp2.
           pose proof (exhausted_backend_gives_no_answer pb w a cfg (reply_count dm =? 0) topic
                         Hcfg Hex Hp1 Hp2) as Hg.
           fold gen in Hg. rewrite Hg. cbn [fst snd].
           by rewrite no_answer_passes_the_sanitizer.
      * simpl in Hi, Hri.
        destruct (Heach i call r Hi Hri) as (Hagent & Hrest).
        split; [|exact Hrest].
        rewrite Hq1 in Hagent. rewrite length_app in Hagent. simpl in Hagent.
        replace (length rest + 1)%nat with (S (length rest)) in Hagent by lia.
        rewrite rotated_lookup in Hagent. exact Hagent.
    + intros Hall. apply Forall_cons in Hall as [Hraise Hall].
      rewrite (Hsum Hall), Htok1.
      pose proof (raising_backend_gives_fallback pb w a (reply_count dm =? 0) topic Hraise) as Hg.
      fold gen in Hg. rewrite Hg. cbn [snd]. simpl length. lia.
Qed.

Lemma C1_failing_backend_never_stops_the_session_witness :
  let calls := [ (Some (py "старение клеток"), world_raises 1);
                 (None, world_raises 2);
                 (None, world_exhausts 3) ] in
  let dm := __init__ demo_config None 10 0 in
  session_ok demo_config dm
  /\ Forall (backend_fails (U := plain_ext)) calls
  /\ exists rs dm', run_turns (U := plain_ext) demo_config calls dm = Ok (rs, dm')
                    /\ length rs = 3%nat /\ reply_count dm' = 3.
Proof.
  intros calls dm.
  assert (Hok : session_ok demo_config dm).
  { split; [vm_compute; discriminate|]. split; [|constructor].
    intros a Ha. change (agent_queue dm) with [py "agent_1"; py "agent_2"] in Ha.
    apply elem_of_cons in Ha as [->|Ha]; [eexists; vm_compute; reflexivity|].
    apply list_elem_of_singleton in Ha as ->. eexists; vm_compute; reflexivity. }
  assert (Hfail : Forall (backend_fails (U := plain_ext)) calls).
  { constructor; [left; exists RequestError; reflexivity|].
    constructor; [left; exists RequestError; reflexivity|].
    constructor; [|constructor].
    right. split; [reflexivity|]. intros i _. reflexivity. }
  split; [exact Hok|]. split; [exact Hfail|].
  destruct (C1_failing_backend_never_stops_the_session (U := plain_ext) demo_config calls dm
              Hok Hfail) as (rs & dm' & Hrun & Hlen & Hcount & _).
  exists rs, dm'. split; [exact Hrun|]. split; [exact Hlen|exact Hcount].
Defined.

(** C1 as stated fails: when the retries of the backend run out the reply
    is the sentence of the backend, not the fallback of the participant,
    and the turn adds 0 tokens, not 10. *)
Lemma C1_counterexample :
  let calls := [ (None, world_exhausts 1) ] in
  let dm := __init__ demo_config None 10 0 in
  Forall (backend_fails (U := plain_ext)) calls
  /\ match run_turns (U := plain_ext) demo_config calls dm with
     | Ok (rs, dm') =>
       map reply_agent rs = [py "agent_1"]
       /\ map full_text rs = [py "Извините, не удалось получить ответ от GigaChat."]
       /\ map full_text rs <> map (fun r => error_fallback (reply_agent r)) rs
       /\ map reply_tokens rs = [0]
       /\ total_tokens dm' = total_tokens dm + 0
     | Raise _ => False
     end.
Proof.
  intros calls dm. split.
  - constructor; [|constructor]. right. split; [reflexivity|]. intros i _. reflexivity.
  - vm_compute. repeat split; (reflexivity || discriminate).
Qed.

(** * Further properties of the code *)

(** ** White space at the two ends *)

Section Strip.
Context {U : UnicodeExt}.

Lemma lstrip_split (s : pystr) :
  exists p, s = p ++ lstrip s /\ Forall (fun c => isspace c = true) p.
Proof.
  induction s as [|c s (p & Hs & Hp)]; [by exists []|].
  simpl. destruct (isspace c) eqn:Hc.
  - exists (c :: p). split; [by rewrite Hs at 1|by constructor].
  - by exists [].
Qed.

Lemma lstrip_head (s : pystr) : forall c, head (lstrip s) = Some c -> isspace c = false.
Proof.
  induction s as [|x s IH]; intros c; [done|].
  simpl. destruct (isspace x) eqn:Hx; [apply IH|].
  simpl. by intros [= <-].
Qed.

Lemma lstrip_fixed (s : pystr) :
  (forall c, head s = Some c -> isspace c = false) -> lstrip s = s.
Proof.
  destruct s as [|c s]; [done|]. intros H. simpl. by rewrite (H c eq_refl).
Qed.

Lemma last_rev (s : pystr) : last (rev s) = head s.
Proof. destruct s as [|c s]; [done|]. simpl. apply last_snoc. Qed.

Lemma head_rev (s : pystr) : head (rev s) = last s.
Proof. rewrite <- (rev_involutive s) at 2. by rewrite last_rev. Qed.

Lemma rstrip_split (s : pystr) :
  exists q, s = rstrip s ++ q /\ Forall (fun c => isspace c = true) q.
Proof.
  unfold rstrip. destruct (lstrip_split (rev s)) as (p & Hs & Hp).
  exists (rev p). split; [|by apply Forall_rev].
  rewrite <- rev_app_distr, <- Hs. by rewrite rev_involutive.
Qed.

Lemma rstrip_last (s : pystr) : forall c, last (rstrip s) = Some c -> isspace c = false.
Proof.
  intros c. unfold rstrip. rewrite last_rev. apply lstrip_head.
Qed.

Lemma rstrip_fixed (s : pystr) :
  (forall c, last s = Some c -> isspace c = false) -> rstrip s = s.
Proof.
  intros H. unfold rstrip. rewrite lstrip_fixed; [apply rev_involutive|].
  intros c Hc. apply H. by rewrite <- head_rev.
Qed.

(** Trimming on the right keeps a first character that is not white
    space. *)
Lemma rstrip_head (s : pystr) :
  (forall c, head s = Some c -> isspace c = false) ->
  forall c, head (rstrip s) = Some c -> isspace c = false.
Proof.
  intros H c Hc. destruct (rstrip_split s) as (q & Hs & Hq).
  destruct (rstrip s) as [|x r]; [done|]. simpl in Hc. injection Hc as ->.
  apply H. by rewrite Hs.
Qed.

Lemma strip_ends (s : pystr) :
  (forall c, head (strip s) = Some c -> isspace c = false)
  /\ (forall c, last (strip s) = Some c -> isspace c = false).
Proof.
  unfold strip. split.
  - apply rstrip_head, lstrip_head.
  - apply rstrip_last.
Qed.

Lemma strip_fixed (s : pystr) :
  (forall c, head s = Some c -> isspace c = false) ->
  (forall c, last s = Some c -> isspace c = false) ->
  strip s = s.
Proof. intros Hh Hl. unfold strip. rewrite lstrip_fixed by done. by apply rstrip_fixed. Qed.

Lemma strip_idempotent (s : pystr) : strip (strip s) = strip s.
Proof. destruct (strip_ends s). by apply strip_fixed. Qed.

Lemma length_lstrip (s : pystr) : (length (lstrip s) <= length s)%nat.
Proof.
  destruct (lstrip_split s) as (p & Hs & _). rewrite Hs at 2. rewrite length_app. lia.
Qed.

Lemma length_strip (s : pystr) : (length (strip s) <= length s)%nat.
Proof.
  unfold strip, rstrip. rewrite length_rev.
  etrans; [apply length_lstrip|]. rewrite length_rev. apply length_lstrip.
Qed.

End Strip.

(** ** The sanitizer never shortens *)

Section Lengths.
Context {U : UnicodeExt}.

Lemma length_sub_aux (p : Z) (pat repl : pystr) :
  (length (p :: pat) <= length repl)%nat ->
  forall s prev skip,
  (length s <= length (sub_aux (p :: pat) repl prev skip s) + skip)%nat.
Proof.
  intros Hlen. induction s as [|c r IH]; intros prev skip; [simpl; lia|].
  cbn [sub_aux]. destruct skip as [|k].
  - destruct (match_here (p :: pat) prev (c :: r)).
    + rewrite length_app. specialize (IH (Some c) (length (p :: pat) - 1)%nat).
      simpl in *. lia.
    + specialize (IH (Some c) 0%nat). simpl in *. lia.
  - specialize (IH (Some c) k). simpl. lia.
Qed.

Lemma length_re_sub (pat repl s : pystr) :
  (length pat <= length repl)%nat -> (length s <= length (re_sub pat repl s))%nat.
Proof.
  intros Hlen. destruct pat as [|p pat]; [done|]. unfold re_sub.
  pose proof (length_sub_aux p pat repl Hlen s None 0%nat). lia.
Qed.

Lemma rules_never_shorten :
  forallb (fun rule : pystr * pystr => (length rule.1 <=? length rule.2)%nat) replacements = true
  /\ forallb (fun word => (length word <=? length (py "коллега"))%nat) FORBIDDEN_WORDS = true.
Proof. split; reflexivity. Qed.

Lemma length_fix_gender (agent_id s : pystr) :
  (length s <= length (fix_gender agent_id s))%nat.
Proof.
  unfold fix_gender. case_bool_decide; [|done].
  apply (fold_left_invariant (fun t => (length s <= length t)%nat)); [|done].
  intros t [wrong correct] Hin Ht.
  destruct rules_never_shorten as [Hr _]. rewrite forallb_forall in Hr.
  specialize (Hr _ Hin). apply Nat.leb_le in Hr.
  etrans; [exact Ht|]. by apply length_re_sub.
Qed.

Lemma length_fix_forbidden (s : pystr) :
  (length s <= length (fix_forbidden s))%nat.
Proof.
  unfold fix_forbidden.
  apply (fold_left_invariant (fun t => (length s <= length t)%nat)); [|done].
  intros t word Hin Ht. unfold fix_forbidden_word.
  destruct (contains word (str_lower t)); [|done].
  destruct rules_never_shorten as [_ Hw]. rewrite forallb_forall in Hw.
  specialize (Hw _ Hin). apply Nat.leb_le in Hw.
  etrans; [exact Ht|]. by apply length_re_sub.
Qed.

Lemma length_cap_length (text : pystr) :
  length (cap_length text) = Nat.min (length text) 1000.
Proof.
  unfold cap_length. destruct (Nat.ltb_spec 1000 (length text)) as [Hlong|Hshort].
  - rewrite length_app, length_take. change (length (py "...")) with 3%nat. lia.
  - lia.
Qed.

Lemma filler_facts (agent_id : pystr) :
  (10 < length (empty_reply_filler agent_id))%nat
  /\ (5 <= length (strip (empty_reply_filler agent_id)))%nat
  /\ contains (py "[") (empty_reply_filler agent_id) = true
  /\ _validate_and_fix_reply (empty_reply_filler agent_id) agent_id
     = empty_reply_filler agent_id.
Proof.
  unfold empty_reply_filler. case_bool_decide as H1.
  - subst agent_id. vm_compute. repeat split; lia.
  - unfold _validate_and_fix_reply, fix_gender.
    case_bool_decide; vm_compute; repeat split; lia.
Qed.

Lemma short_reply_is_filler (text agent_id : pystr) :
  (length (strip text) < 5)%nat ->
  _validate_and_fix_reply text agent_id = empty_reply_filler agent_id.
Proof.
  intros Hshort. unfold _validate_and_fix_reply, is_empty_reply.
  destruct (Nat.ltb_spec (length (strip text)) 5) as [_|]; [|lia].
  by rewrite orb_true_r.
Qed.

Lemma sanitizer_keeps_length (text agent_id : pystr) :
  (5 <= length (strip text))%nat ->
  (Nat.min (length text) 1000 <= length (_validate_and_fix_reply text agent_id))%nat.
Proof.
  intros Htrim. unfold _validate_and_fix_reply.
  rewrite (not_empty_reply text Htrim).
  rewrite <- length_cap_length.
  etrans; [apply (length_fix_gender agent_id)|]. apply length_fix_forbidden.
Qed.

Lemma sanitized_at_least_five (text agent_id : pystr) :
  (5 <= length (_validate_and_fix_reply text agent_id))%nat.
Proof.
  destruct (Nat.lt_ge_cases (length (strip text)) 5) as [Hshort|Htrim].
  - rewrite (short_reply_is_filler text agent_id Hshort).
    destruct (filler_facts agent_id) as (Hlen & _). lia.
  - pose proof (sanitizer_keeps_length text agent_id Htrim).
    pose proof (length_strip text). lia.
Qed.

End Lengths.

(** X1. A text that keeps fewer than 5 characters after trimming (the
    empty text too) is replaced by the filler of the participant: more than
    10 characters, with an emotion tag, different from the text, and itself
    left as it is by the sanitizer. *)
Theorem X1_short_reply_becomes_filler {U : UnicodeExt} (text agent_id : pystr) :
  (length (strip text) < 5)%nat ->
  let fixed := _validate_and_fix_reply text agent_id in
  fixed = empty_reply_filler agent_id
  /\ fixed <> text
  /\ (10 < length fixed)%nat
  /\ contains (py "[") fixed = true
  /\ _validate_and_fix_reply fixed agent_id = fixed.
Proof.
  intros Hshort fixed.
  assert (Hfixed : fixed = empty_reply_filler agent_id)
    by (by apply short_reply_is_filler).
  destruct (filler_facts agent_id) as (Hlen & Htrim & Htag & Hid).
  rewrite Hfixed. repeat split; try done.
  intros Heq. rewrite <- Heq in Hshort. lia.
Qed.

Lemma X1_short_reply_becomes_filler_witness :
  (length (strip (U := plain_ext) (py " ?? ")) < 5)%nat
  /\ _validate_and_fix_reply (U := plain_ext) (py " ?? ") (py "agent_2")
     = py "[ЛЮБОПЫТСТВО] Ой, а расскажи подробнее!".
Proof.
  assert (H : (length (strip (U := plain_ext) (py " ?? ")) < 5)%nat) by (vm_compute; lia).
  split; [exact H|].
  rewrite (proj1 (X1_short_reply_becomes_filler (U := plain_ext) (py " ?? ") (py "agent_2") H)).
  vm_compute. reflexivity.
Defined.

(** X2. The sanitizer never returns fewer than 5 characters, and a text
    that is not replaced by the filler is never shortened below its first
    1000 characters: the substitutions only lengthen. *)
Theorem X2_sanitizer_never_shortens {U : UnicodeExt} (text agent_id : pystr) :
  let fixed := _validate_and_fix_reply text agent_id in
  (5 <= length fixed)%nat
  /\ ((5 <= length (strip text))%nat ->
      (Nat.min (length text) 1000 <= length fixed)%nat).
Proof.
  intros fixed. split.
  - apply sanitized_at_least_five.
  - apply sanitizer_keeps_length.
Qed.

Lemma X2_sanitizer_never_shortens_witness :
  let text := py "Привет, брат! Как дела?" in
  (5 <= length (strip (U := plain_ext) text))%nat
  /\ (Nat.min (length text) 1000
      <= length (_validate_and_fix_reply (U := plain_ext) text (py "agent_1")))%nat.
Proof.
  intros text.
  assert (H : (5 <= length (strip (U := plain_ext) text))%nat) by (vm_compute; lia).
  split; [exact H|].
  exact (proj2 (X2_sanitizer_never_shortens (U := plain_ext) text (py "agent_1")) H).
Defined.

(** ** The text for the speech synthesis *)

Section Extract.
Context {U : UnicodeExt}.

Lemma length_replace_aux_nil (old : pystr) : forall (s : pystr) (skip : nat),
  (length (replace_aux old [] skip s) <= length s)%nat.
Proof.
  induction s as [|c r IH]; intros skip; [done|].
  cbn [replace_aux]. destruct skip as [|k].
  - destruct (starts_with old (c :: r)).
    + specialize (IH (length old - 1)%nat). simpl in *. lia.
    + specialize (IH 0%nat). simpl in *. lia.
  - specialize (IH k). simpl. lia.
Qed.

Lemma length_str_replace_nil (old s : pystr) :
  (length (str_replace old [] s) <= length s)%nat.
Proof.
  destruct old as [|o old]; [|apply length_replace_aux_nil].
  unfold str_replace. simpl. induction s as [|c s IH]; simpl; lia.
Qed.

Lemma extract_emotion_cases (text : pystr) : forall (tags : list pystr),
  (In (_extract_emotion text tags).1 tags
   /\ contains (_extract_emotion text tags).1 text = true
   /\ (_extract_emotion text tags).2
      = strip (str_replace (_extract_emotion text tags).1 [] text))
  \/ ((_extract_emotion text tags).1 = default_emotion
      /\ (forall t, In t tags -> contains t text = false)
      /\ (_extract_emotion text tags).2 = strip text).
Proof.
  induction tags as [|t more IH]; [right; by repeat split|].
  cbn [_extract_emotion]. destruct (contains t text) eqn:Ht.
  - left. cbn [fst snd]. split; [by left|done].
  - destruct IH as [(Hin & Hc & Hclean)|(Hdef & Hnone & Hclean)].
    + left. split; [by right|done].
    + right. split; [done|]. split; [|done].
      intros t' [<-|Hin]; [done|by apply Hnone].
Qed.

Lemma extracted_text_trimmed (text : pystr) (tags : list pystr) :
  strip (_extract_emotion text tags).2 = (_extract_emotion text tags).2
  /\ (forall c, head (_extract_emotion text tags).2 = Some c
                \/ last (_extract_emotion text tags).2 = Some c -> isspace c = false)
  /\ (length (_extract_emotion text tags).2 <= length text)%nat.
Proof.
  assert (Hclean : exists s, (_extract_emotion text tags).2 = strip s
                             /\ (length s <= length text)%nat).
  { destruct (extract_emotion_cases text tags) as [(_ & _ & H)|(_ & _ & H)].
    - eexists. split; [exact H|]. apply length_str_replace_nil.
    - eexists. split; [exact H|]. done. }
  destruct Hclean as (s & -> & Hlen).
  split; [apply strip_idempotent|]. split.
  - destruct (strip_ends s) as [Hh Hl]. intros c [Hc|Hc]; [by apply Hh|by apply Hl].
  - etrans; [apply length_strip|exact Hlen].
Qed.

End Extract.

(** X3. The emotion returned by [_extract_emotion] is a tag of the list
    that occurs in the text, or the default tag when no tag of the list
    occurs.  The text returned for the speech synthesis is trimmed: it
    neither starts nor ends with white space, trimming it again changes
    nothing, and it is never longer than the text. *)
Theorem X3_clean_text_is_trimmed {U : UnicodeExt} (text : pystr) (tags : list pystr) :
  let emotion_tag := (_extract_emotion text tags).1 in
  let clean := (_extract_emotion text tags).2 in
  ((In emotion_tag tags /\ contains emotion_tag text = true)
   \/ (emotion_tag = default_emotion
       /\ (forall t, In t tags -> contains t text = false)))
  /\ strip clean = clean
  /\ (forall c, head clean = Some c \/ last clean = Some c -> isspace c = false)
  /\ (length clean <= length text)%nat.
Proof.
  intros emotion_tag clean. split; [|apply extracted_text_trimmed].
  destruct (extract_emotion_cases text tags) as [(Hin & Hc & _)|(Hdef & Hnone & _)];
    [left|right]; done.
Qed.

(** ** The window of [get_recent_history] *)

Lemma slice_from_window {A : Type} (n : Z) (l : list A) :
  slice_from (- n) l
  = if n =? 0 then l
    else if 0 <? n then drop (length l - Z.to_nat n) l
    else drop (Z.to_nat (- n)) l.
Proof.
  destruct (Z.eqb_spec n 0) as [->|Hn]; [apply slice_from_zero|].
  destruct (Z.ltb_spec 0 n) as [Hpos|Hneg]; [by apply slice_from_neg_drop|].
  unfold slice_from. destruct (Z.ltb_spec (- n) 0) as [|_]; [lia|].
  destruct (Z.le_gt_cases (- n) (Z.of_nat (length l))) as [Hle|Hgt].
  - by rewrite Z.min_l by lia.
  - rewrite Z.min_r by lia. rewrite Nat2Z.id.
    rewrite !drop_ge by lia. reflexivity.
Qed.

Lemma format_entry_cases (e : gmap string value) :
  match format_entry e with
  | Ok rc => e !! "role"%string = Some rc.1 /\ e !! "content"%string = Some rc.2
  | Raise x => x = KeyError /\ (e !! "role"%string = None \/ e !! "content"%string = None)
  end.
Proof.
  unfold format_entry.
  destruct (e !! "role"%string) as [r|]; [|split; [done|by left]].
  destruct (e !! "content"%string) as [c|]; [done|split; [done|by right]].
Qed.

Lemma mapM_format_entry_view (h : list (gmap string value)) :
  forall out, mapM format_entry h = Ok out ->
  Forall2 (fun (e : gmap string value) (rc : value * value) =>
             e !! "role"%string = Some rc.1 /\ e !! "content"%string = Some rc.2) h out.
Proof.
  induction h as [|e h IH]; intros out Hout.
  - injection Hout as <-. constructor.
  - change (mapM format_entry (e :: h))
      with (y ← format_entry e; k ← mapM format_entry h; mret (y :: k)) in Hout.
    pose proof (format_entry_cases e) as He.
    destruct (format_entry e) as [rc|x]; [|discriminate].
    cbn [mbind result_bind] in Hout.
    destruct (mapM format_entry h) as [vs|] eqn:Hvs; [|discriminate].
    cbn [mbind result_bind] in Hout. injection Hout as <-.
    constructor; [done|]. by apply IH.
Qed.

Lemma mapM_format_entry_raises (h : list (gmap string value)) :
  forall x, mapM format_entry h = Raise x ->
  x = KeyError
  /\ Exists (fun e : gmap string value =>
               e !! "role"%string = None \/ e !! "content"%string = None) h.
Proof.
  induction h as [|e h IH]; intros x Hx; [done|].
  change (mapM format_entry (e :: h))
    with (y ← format_entry e; k ← mapM format_entry h; mret (y :: k)) in Hx.
  pose proof (format_entry_cases e) as He.
  destruct (format_entry e) as [rc|y].
  - cbn [mbind result_bind] in Hx.
    destruct (mapM format_entry h) as [vs|y] eqn:Hvs; [discriminate|].
    cbn [mbind result_bind] in Hx. injection Hx as <-.
    destruct (IH y eq_refl) as [-> Hex]. split; [done|by apply Exists_cons_tl].
  - cbn [mbind result_bind] in Hx. injection Hx as <-.
    destruct He as [-> He]. split; [done|by apply Exists_cons_hd].
Qed.

(** X4. [get_recent_history(n)] reads the window [history[-n:]] and
    nothing else: the last [n] entries for a positive [n], the whole
    history for [n = 0], the history without its first [-n] entries for a
    negative [n]; [n] is [max_history] when it is not given.  When every
    entry of the window has the keys role and content the result lists
    these two values of each entry of the window, in order; otherwise the
    call raises [KeyError], and it raises nothing else.  Entries outside
    the window are not read. *)
Theorem X4_recent_history_window (n : option Z) (dm : DialogManager) :
  let k := default (max_history dm) n in
  let window :=
    if k =? 0 then history dm
    else if 0 <? k then drop (length (history dm) - Z.to_nat k) (history dm)
    else drop (Z.to_nat (- k)) (history dm) in
  match get_recent_history n dm with
  | Ok out =>
    Forall2 (fun (e : gmap string value) (rc : value * value) =>
               e !! "role"%string = Some rc.1 /\ e !! "content"%string = Some rc.2)
            window out
  | Raise x =>
    x = KeyError
    /\ Exists (fun e : gmap string value =>
                 e !! "role"%string = None \/ e !! "content"%string = None) window
  end.
Proof.
  intros k window. unfold get_recent_history. fold k.
  rewrite (slice_from_window k (history dm)). fold window.
  destruct (mapM format_entry window) as [out|x] eqn:Hout.
  - by apply mapM_format_entry_view.
  - by apply mapM_format_entry_raises.
Qed.

Lemma drop_to_last {A : Type} (l : list A) (x : A) :
  last l = Some x -> drop (length l - 1) l = [x].
Proof.
  intros Hl. destruct (last_Some l x) as [[l' ->] _]; [done|].
  rewrite length_app. simpl.
  replace (length l' + 1 - 1)%nat with (length l') by lia.
  by rewrite drop_app_length.
Qed.

Lemma add_to_history_last (role content : pystr) (metadata : option (gmap string value))
  (now : Z) (dm : DialogManager) :
  0 <= max_history dm ->
  last (history (add_to_history role content metadata now dm))
  = Some (new_entry role content metadata now).
Proof.
  intros Hm. unfold add_to_history. simpl.
  set (e := new_entry role content metadata now).
  destruct (Z.gtb_spec (Z.of_nat (length (history dm ++ [e]))) (max_history dm)) as [Hgt|Hle].
  - destruct (Z.eq_dec (max_history dm) 0) as [H0|H0].
    + rewrite H0, slice_from_zero. apply last_snoc.
    + rewrite slice_from_neg_drop by lia.
      rewrite length_app in *. simpl in *.
      rewrite drop_app_le by lia. apply last_snoc.
  - apply last_snoc.
Qed.

(** X5. Round trip of the history: with a capacity that is not negative,
    [get_recent_history(1)] right after [add_to_history(role, content,
    metadata)] returns one record, the role and the content of the entry
    just stored: the two arguments, unless [metadata] has a key role or
    content, whose value is returned then.  The older entries are not
    read, so the call returns even if one of them is malformed. *)
Theorem X5_last_record_round_trip (role content : pystr)
  (metadata : option (gmap string value)) (now : Z) (dm : DialogManager) :
  0 <= max_history dm ->
  let given (key : string) (v : value) :=
    match metadata with
    | Some m => default v (m !! key)
    | None => v
    end in
  get_recent_history (Some 1) (add_to_history role content metadata now dm)
  = Ok [(given "role"%string (VStr role), given "content"%string (VStr content))].
Proof.
  intros Hm given. unfold get_recent_history. cbn [default].
  rewrite (slice_from_neg_drop 1) by lia. change (Z.to_nat 1) with 1%nat.
  rewrite (drop_to_last _ _ (add_to_history_last role content metadata now dm Hm)).
  assert (Hr : new_entry role content metadata now !! "role"%string
               = Some (given "role"%string (VStr role))).
  { unfold new_entry, given. destruct metadata as [m|]; [|by simplify_map_eq].
    case_bool_decide as He; [subst m; by simplify_map_eq|].
    destruct (m !! "role"%string) as [v|] eqn:Hv.
    - by apply lookup_union_Some_l.
    - rewrite lookup_union_r by done. by simplify_map_eq. }
  assert (Hc : new_entry role content metadata now !! "content"%string
               = Some (given "content"%string (VStr content))).
  { unfold new_entry, given. destruct metadata as [m|]; [|by simplify_map_eq].
    case_bool_decide as He; [subst m; by simplify_map_eq|].
    destruct (m !! "content"%string) as [v|] eqn:Hv.
    - by apply lookup_union_Some_l.
    - rewrite lookup_union_r by done. by simplify_map_eq. }
  change (mapM format_entry [new_entry role content metadata now])
    with (y ← format_entry (new_entry role content metadata now); mret [y]).
  unfold format_entry. rewrite Hr, Hc. reflexivity.
Qed.

Lemma X5_last_record_round_trip_witness :
  let dm := __init__ demo_config None 10 0 in
  0 <= max_history dm
  /\ get_recent_history (Some 1) (add_to_history (py "user") (py "Привет") None 3 dm)
     = Ok [(VStr (py "user"), VStr (py "Привет"))].
Proof.
  intros dm.
  assert (Hm : 0 <= max_history dm) by (vm_compute; discriminate).
  split; [exact Hm|].
  exact (X5_last_record_round_trip (py "user") (py "Привет") None 3 dm Hm).
Defined.

(** ** Whole sessions *)

Lemma keep_last_drop {A : Type} (m : Z) (h : list A) :
  0 <= m ->
  keep_last m h = if m =? 0 then h else drop (length h - Z.to_nat m) h.
Proof.
  intros Hm. unfold keep_last.
  destruct (Z.eqb_spec m 0) as [->|H0].
  - rewrite slice_from_zero. by destruct (_ >? _).
  - destruct (Z.gtb_spec (Z.of_nat (length h)) m) as [Hgt|Hle].
    + apply slice_from_neg_drop. lia.
    + replace (length h - Z.to_nat m)%nat with 0%nat by lia. reflexivity.
Qed.

Lemma keep_last_app {A : Type} (m : Z) (h es : list A) :
  0 <= m -> keep_last m (keep_last m h ++ es) = keep_last m (h ++ es).
Proof.
  intros Hm. rewrite !keep_last_drop by done.
  destruct (Z.eqb_spec m 0) as [|H0]; [done|].
  destruct (Nat.le_gt_cases (length h) (Z.to_nat m)) as [Hle|Hgt].
  - replace (length h - Z.to_nat m)%nat with 0%nat by lia. reflexivity.
  - set (k := (length h - Z.to_nat m)%nat).
    rewrite !length_app, length_drop.
    replace (length h - k + length es - Z.to_nat m)%nat with (length es) by (unfold k; lia).
    replace (length h + length es - Z.to_nat m)%nat with (k + length es)%nat by (unfold k; lia).
    rewrite <- (drop_app_le h es k) by (unfold k; lia).
    rewrite drop_drop. reflexivity.
Qed.

Lemma history_after_add (role content : pystr) (metadata : option (gmap string value))
  (now : Z) (dm : DialogManager) :
  history (add_to_history role content metadata now dm)
  = keep_last (max_history dm) (history dm ++ [new_entry role content metadata now]).
Proof. reflexivity. Qed.

Lemma rotate_nat_add_mod (n i len : nat) :
  rotate_nat_add n i len = ((n + i) mod len)%nat.
Proof.
  unfold rotate_nat_add. rewrite <- Nat2Z.inj_add, <- Nat2Z.inj_mod. apply Nat2Z.id.
Qed.

Lemma rotate_rotate_left {A : Type} (n : nat) (q : list A) :
  rotate n (rotate_left q) = rotate (S n) q.
Proof.
  destruct q as [|a rest].
  { unfold rotate. cbn [rotate_left]. by rewrite !drop_nil, !take_nil. }
  cbn [rotate_left]. apply list_eq. intros i.
  destruct (Nat.lt_ge_cases i (S (length rest))) as [Hi|Hi].
  - rewrite !lookup_rotate_r by (rewrite ?length_app; simpl; lia).
    rewrite !rotate_nat_add_mod. rewrite length_app. simpl length.
    replace (length rest + 1)%nat with (S (length rest)) by lia.
    rewrite rotated_lookup. reflexivity.
  - rewrite !lookup_ge_None_2; [done| |]; rewrite length_rotate, ?length_app; simpl; lia.
Qed.

Lemma rotate_0 {A : Type} (q : list A) : rotate 0 q = q.
Proof.
  unfold rotate. rewrite Nat.Div0.mod_0_l. by rewrite drop_0, app_nil_r.
Qed.

Lemma metadata_lookups (v1 v2 v3 v4 v5 : value) :
  let m : gmap string value :=
    {[ "agent_id"%string := v1; "agent_name"%string := v2;
       "emotion"%string := v3; "tokens"%string := v4;
       "temperature"%string := v5 ]} in
  m !! "agent_id"%string = Some v1 /\ m !! "agent_name"%string = Some v2
  /\ m !! "emotion"%string = Some v3 /\ m !! "tokens"%string = Some v4
  /\ m !! "role"%string = None /\ m !! "content"%string = None
  /\ m !! "timestamp"%string = None.
Proof. vm_compute. repeat split. Qed.

Lemma entry_lookups (v1 v2 v3 : value) :
  let m : gmap string value :=
    {[ "role"%string := v1; "content"%string := v2; "timestamp"%string := v3 ]} in
  m !! "role"%string = Some v1 /\ m !! "content"%string = Some v2
  /\ m !! "timestamp"%string = Some v3.
Proof. vm_compute. repeat split. Qed.

Section Session.
Context {U : UnicodeExt}.

(** One turn of a session that can run, whatever the backend does. *)
Lemma get_next_reply_effect (pb : PromptBuilder) (w : turn_world) (topic : option pystr)
  (dm : DialogManager) (a : pystr) (rest : list pystr) :
  session_ok pb dm ->
  agent_queue dm = a :: rest ->
  exists r e dm',
    get_next_reply pb w topic dm = Ok (r, dm')
    /\ reply_agent r = a
    /\ full_text r
       = _validate_and_fix_reply
           (generate_or_fallback pb w a (reply_count dm =? 0) topic).1 a
    /\ reply_tokens r = (generate_or_fallback pb w a (reply_count dm =? 0) topic).2
    /\ (exists cfg, agents pb !! a = Some cfg
          /\ clean_text r = (_extract_emotion (full_text r) (map tag (emotions cfg))).2
          /\ e !! "emotion"%string
             = Some (VStr (_extract_emotion (full_text r) (map tag (emotions cfg))).1)
          /\ e !! "agent_name"%string = Some (VStr (name cfg)))
    /\ recorded (topic, w) r e
    /\ history dm' = keep_last (max_history dm) (history dm ++ [e])
    /\ agent_queue dm' = rest ++ [a]
    /\ reply_count dm' = reply_count dm + 1
    /\ total_tokens dm' = total_tokens dm + reply_tokens r
    /\ max_history dm' = max_history dm
    /\ turn_order dm' = turn_order dm
    /\ start_time dm' = start_time dm
    /\ session_ok pb dm'.
Proof.
  intros Hok Hq.
  destruct (get_next_agent_ok dm a rest Hq)
    as (dm1 & Hstep & Hq1 & Hh1 & Hm1 & Hr1 & Ht1 & Hto1 & Hst1).
  pose proof Hok as (Hne & Hcfg & Hh).
  destruct (Hcfg a) as [cfg Hcfga]; [rewrite Hq; apply list_elem_of_here|].
  assert (Hok1 : session_ok pb dm1).
  { split; [|split].
    - rewrite Hq1. by destruct rest.
    - intros b Hb. apply Hcfg. rewrite Hq. rewrite Hq1 in Hb.
      apply elem_of_app in Hb as [Hb|Hb].
      + by apply list_elem_of_further.
      + apply list_elem_of_singleton in Hb. subst b. apply list_elem_of_here.
    - by rewrite Hh1. }
  destruct (get_recent_history_ok pb None dm1 Hok1) as [formatted Hrecent].
  unfold get_next_reply. rewrite Hstep. cbn [mbind result_bind].
  unfold get_agent_config at 1. rewrite Hcfga. cbn [of_option mbind result_bind].
  rewrite Hrecent. cbn [mbind result_bind].
  rewrite Hr1.
  destruct (generate_or_fallback pb w a (reply_count dm =? 0) topic) as [text tokens].
  cbn [fst snd].
  destruct (_extract_emotion (_validate_and_fix_reply text a) (map tag (emotions cfg)))
    as [emotion_tag clean] eqn:Hex.
  unfold get_temperature, get_agent_config. rewrite Hcfga. cbn [of_option mbind result_bind fst snd].
  cbv zeta.
  set (metadata := ({[ "agent_id"%string := VStr a; "agent_name"%string := VStr (name cfg);
                       "emotion"%string := VStr emotion_tag; "tokens"%string := VInt tokens;
                       "temperature"%string := VFloat (default (7 # 10)%Q (temperature cfg)) ]}
                    : gmap string value)).
  set (e := new_entry (py "assistant") (_validate_and_fix_reply text a) (Some metadata) (clock w)).
  assert (Hmeta : e = metadata ∪ ({[ "role"%string := VStr (py "assistant");
                                     "content"%string := VStr (_validate_and_fix_reply text a);
                                     "timestamp"%string := VTime (clock w) ]}
                                  : gmap string value)).
  { unfold e, new_entry. rewrite bool_decide_eq_false_2; [done|].
    unfold metadata. apply insert_non_empty. }
  destruct (metadata_lookups (VStr a) (VStr (name cfg)) (VStr emotion_tag) (VInt tokens)
              (VFloat (default (7 # 10)%Q (temperature cfg))))
    as (Hm_id & Hm_name & Hm_emotion & Hm_tokens & Hm_role & Hm_content & Hm_time).
  fold metadata in Hm_id, Hm_name, Hm_emotion, Hm_tokens, Hm_role, Hm_content, Hm_time.
  destruct (entry_lookups (VStr (py "assistant")) (VStr (_validate_and_fix_reply text a))
              (VTime (clock w))) as (He_role & He_content & He_time).
  eexists _, e, _. split; [reflexivity|].
  unfold reply_agent, full_text, reply_tokens, clean_text. cbn [fst snd].
  split; [reflexivity|]. split; [reflexivity|]. split; [reflexivity|].
  split.
  { exists cfg. rewrite Hex. cbn [fst snd]. split; [first [exact Hcfga|reflexivity]|]. split; [reflexivity|].
    rewrite Hmeta. split; apply lookup_union_Some_l; assumption. }
  split.
  { unfold recorded, reply_agent, full_text, reply_tokens. cbn [fst snd]. rewrite Hmeta.
    split; [|split; [|split; [|split]]].
    - rewrite lookup_union_r by exact Hm_role. exact He_role.
    - rewrite lookup_union_r by exact Hm_content. exact He_content.
    - apply lookup_union_Some_l. exact Hm_id.
    - apply lookup_union_Some_l. exact Hm_tokens.
    - rewrite lookup_union_r by exact Hm_time. exact He_time. }
  split.
  { rewrite history_after_add. cbn [count_reply history max_history]. by rewrite Hh1, Hm1. }
  split; [exact Hq1|]. split; [cbn [add_to_history count_reply reply_count]; by rewrite Hr1|].
  split; [cbn [add_to_history count_reply total_tokens]; by rewrite Ht1|].
  split; [exact Hm1|]. split; [exact Hto1|]. split; [exact Hst1|].
  destruct Hok1 as (Hne1 & Hcfg1 & Hh1').
  split; [exact Hne1|]. split; [exact Hcfg1|].
  apply (add_to_history_keeps_keys (py "assistant") (_validate_and_fix_reply text a)
           (Some metadata) (clock w) (count_reply tokens dm1)). exact Hh1'.
Qed.

End Session.
Lemma head_rotate {A : Type} (n : nat) (q : list A) :
  head (rotate n q) = q !! (n mod length q)%nat.
Proof.
  destruct q as [|a rest].
  { unfold rotate. by rewrite drop_nil, take_nil. }
  rewrite head_lookup, lookup_rotate_r by (simpl; lia).
  rewrite rotate_nat_add_mod. by rewrite Nat.add_0_r.
Qed.

Section Sessions.
Context {U : UnicodeExt}.

(** A session that can run, whatever the backends do: the replies, the
    entries stored for them and the state at the end. *)
Lemma run_turns_effect (pb : PromptBuilder) :
  forall (calls : list (option pystr * turn_world)) (dm : DialogManager),
  session_ok pb dm ->
  exists rs es dm',
    run_turns pb calls dm = Ok (rs, dm')
    /\ length rs = length calls
    /\ length es = length calls
    /\ (forall i call r e,
          calls !! i = Some call -> rs !! i = Some r -> es !! i = Some e ->
          agent_queue dm !! (i mod length (agent_queue dm))%nat = Some (reply_agent r)
          /\ (5 <= length (full_text r))%nat
          /\ recorded call r e
          /\ exists cfg, agents pb !! reply_agent r = Some cfg
               /\ clean_text r = (_extract_emotion (full_text r) (map tag (emotions cfg))).2
               /\ e !! "emotion"%string
                  = Some (VStr (_extract_emotion (full_text r) (map tag (emotions cfg))).1))
    /\ (calls = [] -> history dm' = history dm)
    /\ (0 <= max_history dm -> calls <> [] ->
        history dm' = keep_last (max_history dm) (history dm ++ es))
    /\ agent_queue dm' = rotate (length calls) (agent_queue dm)
    /\ reply_count dm' = reply_count dm + Z.of_nat (length calls)
    /\ total_tokens dm' = total_tokens dm + sum_tokens rs
    /\ max_history dm' = max_history dm
    /\ turn_order dm' = turn_order dm
    /\ start_time dm' = start_time dm
    /\ session_ok pb dm'.
Proof.
  induction calls as [|[topic w] more IH]; intros dm Hok.
  - exists [], [], dm. split; [reflexivity|]. split; [reflexivity|]. split; [reflexivity|].
    split; [intros i call r e Hi; done|].
    split; [done|]. split; [done|].
    split; [by rewrite rotate_0|].
    split; [simpl; lia|]. split; [unfold sum_tokens; simpl; lia|]. done.
  - destruct (agent_queue dm) as [|a rest] eqn:Hq; [by destruct Hok|].
    destruct (get_next_reply_effect pb w topic dm a rest Hok Hq)
      as (r0 & e0 & dm1 & Hreply & Hagent0 & Htext0 & Htok0 & Hcfg0 & Hrec0 & Hh1 & Hq1
          & Hr1 & Ht1 & Hm1 & Hto1 & Hst1 & Hok1).
    destruct (IH dm1 Hok1)
      as (rs & es & dm2 & Hrun & Hlen & Hlen' & Heach & Hnil & Hhist & Hq2 & Hr2 & Ht2
          & Hm2 & Hto2 & Hst2 & Hok2).
    exists (r0 :: rs), (e0 :: es), dm2.
    split; [cbn [run_turns]; rewrite Hreply; cbn [mbind result_bind]; by rewrite Hrun|].
    split; [simpl; by rewrite Hlen|]. split; [simpl; by rewrite Hlen'|].
    split.
    { intros i call r e Hi Hri Hei. destruct i as [|i].
      - simpl in Hi, Hri, Hei. injection Hi as <-. injection Hri as <-. injection Hei as <-.
        split; [rewrite Nat.Div0.mod_0_l; simpl; by rewrite Hagent0|].
        split; [rewrite Htext0; apply sanitized_at_least_five|].
        split; [exact Hrec0|].
        destruct Hcfg0 as (cfg & Hcfg & Hclean & Hemotion & _).
        exists cfg. rewrite Hagent0. done.
      - simpl in Hi, Hri, Hei.
        destruct (Heach i call r e Hi Hri Hei) as (Hagent & Hrest).
        split; [|exact Hrest].
        rewrite Hq1 in Hagent. rewrite length_app in Hagent. simpl in Hagent.
        replace (length rest + 1)%nat with (S (length rest)) in Hagent by lia.
        rewrite rotated_lookup in Hagent. exact Hagent. }
    split; [done|].
    split.
    { intros Hm _. destruct more as [|c more'].
      - rewrite Hnil by done. destruct es; [|done]. exact Hh1.
      - rewrite Hhist by (rewrite ?Hm1; done). rewrite Hm1, Hh1.
        rewrite keep_last_app by done. by rewrite <- app_assoc. }
    split.
    { rewrite Hq2, Hq1. change (rest ++ [a]) with (rotate_left (a :: rest)).
      apply rotate_rotate_left. }
    split; [rewrite Hr2, Hr1; simpl length; lia|].
    split; [rewrite Ht2, Ht1; unfold sum_tokens; simpl; lia|].
    split; [congruence|]. split; [congruence|]. split; [congruence|]. exact Hok2.
Qed.

End Sessions.

Lemma get_statistics_ok (now : Z) (dm : DialogManager) (a : pystr) (rest : list pystr) :
  agent_queue dm = a :: rest ->
  exists st, get_statistics now dm = Ok st
    /\ current_turn st = a
    /\ total_replies st = reply_count dm
    /\ stat_total_tokens st = total_tokens dm
    /\ history_length st = length (history dm).
Proof.
  intros Hq. unfold get_statistics, truediv. rewrite Hq.
  destruct (Z.gtb_spec (reply_count dm) 0) as [Hpos|Hle].
  - destruct (Z.eqb_spec (reply_count dm) 0); [lia|].
    cbn [mbind result_bind of_option head]. eexists. split; [reflexivity|]. by cbn.
  - cbn [mbind result_bind of_option head]. eexists. split; [reflexivity|]. by cbn.
Qed.

Lemma demo_session_ok (mh now : Z) :
  session_ok demo_config (__init__ demo_config None mh now).
Proof.
  split; [vm_compute; discriminate|]. split; [|constructor].
  intros a Ha.
  change (agent_queue (__init__ demo_config None mh now))
    with [py "agent_1"; py "agent_2"] in Ha.
  apply elem_of_cons in Ha as [->|Ha]; [eexists; vm_compute; reflexivity|].
  apply list_elem_of_singleton in Ha as ->. eexists; vm_compute; reflexivity.
Qed.



(** X7. The participants take their turns in rotation whatever the
    backends do: in a session that can run the reply number [i] (from 0) is
    by the participant at place [i mod n] of the queue of [n] participants
    the session started with; after [N] calls the queue is the starting
    queue rotated by [N] places, [get_statistics] returns and names the
    participant at place [N mod n] as the current one, and after a
    multiple of [n] calls the queue is the starting queue. *)
Theorem X7_turns_rotate_whatever_the_backend {U : UnicodeExt} (pb : PromptBuilder)
  (calls : list (option pystr * turn_world)) (dm : DialogManager) :
  session_ok pb dm ->
  let n := length (agent_queue dm) in
  exists rs dm',
    run_turns pb calls dm = Ok (rs, dm')
    /\ (forall i r, rs !! i = Some r ->
          agent_queue dm !! (i mod n)%nat = Some (reply_agent r))
    /\ agent_queue dm' = rotate (length calls) (agent_queue dm)
    /\ (forall now, exists st,
          get_statistics now dm' = Ok st
          /\ agent_queue dm !! (length calls mod n)%nat = Some (current_turn st)
          /\ total_replies st = reply_count dm + Z.of_nat (length calls))
    /\ ((length calls mod n)%nat = 0%nat -> agent_queue dm' = agent_queue dm).
Proof.
  intros Hok n.
  destruct (run_turns_effect pb calls dm Hok)
    as (rs & es & dm' & Hrun & Hlen & Hlen' & Heach & _ & _ & Hq & Hr & _ & _ & _ & _ & Hok').
  exists rs, dm'. split; [exact Hrun|]. split; [|split; [exact Hq|split]].
  - intros i r Hi.
    assert (Hlt : (i < length rs)%nat) by (by apply lookup_lt_Some in Hi).
    destruct (lookup_lt_is_Some_2 calls i) as [call Hcall]; [lia|].
    destruct (lookup_lt_is_Some_2 es i) as [e He]; [lia|].
    by destruct (Heach i call r e Hcall Hi He) as (Hagent & _).
  - intros now.
    destruct (agent_queue dm') as [|a rest] eqn:Hq'; [by destruct Hok'|].
    destruct (get_statistics_ok now dm' a rest Hq') as (st & Hst & Hcur & Htot & _).
    exists st. split; [exact Hst|]. split; [|by rewrite Htot, Hr].
    unfold n. rewrite <- head_rotate, <- Hq, Hcur. reflexivity.
  - intros Hmod. rewrite Hq. unfold rotate. fold n. rewrite Hmod.
    by rewrite drop_0, app_nil_r.
Qed.

Lemma X7_turns_rotate_whatever_the_backend_witness :
  let calls := [ (None, world_answers (py "[РАДОСТЬ] Начнём с теломер!") 21 1);
                 (None, world_raises 2);
                 (None, world_exhausts 3) ] in
  let dm := __init__ demo_config None 10 0 in
  session_ok demo_config dm
  /\ exists rs dm', run_turns (U := plain_ext) demo_config calls dm = Ok (rs, dm')
                    /\ agent_queue dm' = [py "agent_2"; py "agent_1"].
Proof.
  intros calls dm.
  assert (Hok : session_ok demo_config dm) by apply demo_session_ok.
  split; [exact Hok|].
  destruct (X7_turns_rotate_whatever_the_backend (U := plain_ext) demo_config calls dm Hok)
    as (rs & dm' & Hrun & _ & Hq & _).
  exists rs, dm'. split; [exact Hrun|]. rewrite Hq. reflexivity.
Defined.

(** X8. What a session leaves in the history.  With a capacity that is
    not negative, after at least one call of [get_next_reply] the history
    is the old history followed by one entry per reply, cut to its last
    [max_history] entries (not cut at all for [max_history = 0]); the entry
    of a reply has the role assistant, the full text of the reply as its
    content, the participant, the tokens and the time of the call.  With a
    capacity of at least 1 the history holds at most [max_history] entries
    after the session, however long it was before. *)
Theorem X8_history_after_session {U : UnicodeExt} (pb : PromptBuilder)
  (calls : list (option pystr * turn_world)) (dm : DialogManager) :
  session_ok pb dm ->
  0 <= max_history dm ->
  calls <> [] ->
  exists rs es dm',
    run_turns pb calls dm = Ok (rs, dm')
    /\ length es = length calls
    /\ (forall i call r e,
          calls !! i = Some call -> rs !! i = Some r -> es !! i = Some e ->
          recorded call r e)
    /\ history dm'
       = (if max_history dm =? 0 then history dm ++ es
          else drop (length (history dm ++ es) - Z.to_nat (max_history dm))
                    (history dm ++ es))
    /\ (1 <= max_history dm -> Z.of_nat (length (history dm')) <= max_history dm).
Proof.
  intros Hok Hm Hne.
  destruct (run_turns_effect pb calls dm Hok)
    as (rs & es & dm' & Hrun & Hlen & Hlen' & Heach & _ & Hhist & _).
  specialize (Hhist Hm Hne). rewrite keep_last_drop in Hhist by done.
  exists rs, es, dm'. split; [exact Hrun|]. split; [exact Hlen'|].
  split; [|split; [exact Hhist|]].
  - intros i call r e Hi Hri Hei.
    by destruct (Heach i call r e Hi Hri Hei) as (_ & _ & Hrec & _).
  - intros Hone. rewrite Hhist.
    destruct (Z.eqb_spec (max_history dm) 0) as [|_]; [lia|].
    rewrite length_drop. lia.
Qed.

Lemma X8_history_after_session_witness :
  let calls := [ (None, world_answers (py "[РАДОСТЬ] Начнём с теломер!") 21 1);
                 (None, world_raises 2);
                 (None, world_exhausts 3) ] in
  let dm := __init__ demo_config None 2 0 in
  session_ok demo_config dm /\ 0 <= max_history dm /\ calls <> []
  /\ exists rs dm', run_turns (U := plain_ext) demo_config calls dm = Ok (rs, dm')
                    /\ Z.of_nat (length (history dm')) <= 2.
Proof.
  intros calls dm.
  assert (Hok : session_ok demo_config dm) by apply demo_session_ok.
  assert (Hm : 0 <= max_history dm) by (vm_compute; discriminate).
  assert (Hne : calls <> []) by discriminate.
  split; [exact Hok|]. split; [exact Hm|]. split; [exact Hne|].
  destruct (X8_history_after_session (U := plain_ext) demo_config calls dm Hok Hm Hne)
    as (rs & es & dm' & Hrun & _ & _ & _ & Hbound).
  exists rs, dm'. split; [exact Hrun|]. apply Hbound. vm_compute. discriminate.
Defined.

(** X9. [reset_dialog] after a session gives the state a fresh
    [DialogManager] has: a session keeps [turn_order] and [max_history], so
    resetting after any number of turns is resetting before them, and for
    a session that started from [__init__] the reset state is the state
    [__init__] builds at the time of the reset (empty history, counters at
    zero, the queue at the start of the turn order). *)
Theorem X9_reset_restores_the_initial_state {U : UnicodeExt} (pb : PromptBuilder)
  (calls : list (option pystr * turn_world)) (dm : DialogManager) (now : Z) :
  session_ok pb dm ->
  exists rs dm',
    run_turns pb calls dm = Ok (rs, dm')
    /\ turn_order dm' = turn_order dm
    /\ max_history dm' = max_history dm
    /\ reset_dialog now dm' = reset_dialog now dm
    /\ (forall order mh t0, dm = __init__ pb order mh t0 ->
          reset_dialog now dm' = __init__ pb order mh now).
Proof.
  intros Hok.
  destruct (run_turns_effect pb calls dm Hok)
    as (rs & es & dm' & Hrun & _ & _ & _ & _ & _ & _ & _ & _ & Hm & Hto & _ & _).
  assert (Hreset : reset_dialog now dm' = reset_dialog now dm)
    by (unfold reset_dialog; by rewrite Hm, Hto).
  exists rs, dm'. split; [exact Hrun|]. split; [exact Hto|]. split; [exact Hm|].
  split; [exact Hreset|].
  intros order mh t0 ->. rewrite Hreset. reflexivity.
Qed.

Lemma X9_reset_restores_the_initial_state_witness :
  let calls := [ (None, world_answers (py "[РАДОСТЬ] Начнём с теломер!") 21 1);
                 (None, world_raises 2) ] in
  let dm := __init__ demo_config None 10 0 in
  session_ok demo_config dm
  /\ exists rs dm', run_turns (U := plain_ext) demo_config calls dm = Ok (rs, dm')
                    /\ reset_dialog 7 dm' = __init__ demo_config None 10 7.
Proof.
  intros calls dm.
  assert (Hok : session_ok demo_config dm) by apply demo_session_ok.
  split; [exact Hok|].
  destruct (X9_reset_restores_the_initial_state (U := plain_ext) demo_config calls dm 7 Hok)
    as (rs & dm' & Hrun & _ & _ & _ & Hinit).
  exists rs, dm'. split; [exact Hrun|]. exact (Hinit None 10 0 eq_refl).
Defined.

(** ** The exceptions of a turn *)


Section TurnErrors.
Context {U : UnicodeExt}.


End TurnErrors.


(** ** The retry loop of the backend *)

Section Retries.
Context {U : UnicodeExt}.

(** The attempts that fail quietly are passed over. *)
Lemma retry_loop_quiet (retry_count : nat) (world : nat -> http_outcome) :
  forall (k attempt todo : nat),
  (attempt + todo = retry_count)%nat ->
  (k <= todo)%nat ->
  (forall i, (attempt <= i < attempt + k)%nat -> attempt_fails (world i) = true) ->
  retry_loop retry_count attempt todo world
  = retry_loop retry_count (attempt + k) (todo - k) world.
Proof.
  induction k as [|k IH]; intros attempt todo Hsum Hk Hquiet.
  - by rewrite Nat.add_0_r, Nat.sub_0_r.
  - destruct todo as [|todo]; [lia|].
    pose proof (Hquiet attempt ltac:(lia)) as Hfail.
    cbn [retry_loop]. unfold attempt_fails in Hfail.
    replace (attempt + S k)%nat with (S attempt + k)%nat by lia.
    replace (S todo - S k)%nat with (todo - k)%nat by lia.
    destruct (world attempt) as [has_401 refresh_fails|answer tokens].
    + apply negb_true_iff in Hfail. rewrite Hfail.
      apply IH; [lia|lia|]. intros i Hi. apply Hquiet. lia.
    + rewrite Hfail. destruct (Nat.ltb_spec attempt (retry_count - 1)) as [Hlt|Hge].
      * apply IH; [lia|lia|]. intros i Hi. apply Hquiet. lia.
      * assert (todo = 0)%nat as -> by lia.
        assert (k = 0)%nat as -> by lia. reflexivity.
Qed.

(** What the loop does from [attempt] on: it runs out, or an attempt
    settles the call. *)
Lemma retry_loop_cases (retry_count : nat) (world : nat -> http_outcome) :
  forall (todo attempt : nat),
  (attempt + todo = retry_count)%nat ->
  ((forall i, (attempt <= i < retry_count)%nat -> attempt_fails (world i) = true)
   /\ retry_loop retry_count attempt todo world = Ok (NO_ANSWER, 0))
  \/ (exists k, (attempt <= k < retry_count)%nat
        /\ (forall i, (attempt <= i < k)%nat -> attempt_fails (world i) = true)
        /\ ((world k = HttpFails true true
             /\ retry_loop retry_count attempt todo world = Raise RequestError)
            \/ (exists answer tokens,
                  world k = HttpAnswer answer tokens /\ accepted answer = true
                  /\ retry_loop retry_count attempt todo world
                     = Ok (shorten_answer (strip answer), tokens)))).
Proof.
  induction todo as [|todo IH]; intros attempt Hsum.
  - left. split; [intros i Hi; lia|reflexivity].
  - cbn [retry_loop].
    destruct (world attempt) as [has_401 refresh_fails|answer tokens] eqn:Hw.
    + destruct (has_401 && refresh_fails) eqn:Hraise.
      * right. exists attempt. split; [lia|]. split; [intros i Hi; lia|]. left.
        apply andb_true_iff in Hraise as [-> ->]. done.
      * destruct (IH (S attempt) ltac:(lia)) as [[Hall Hres]|(k & Hk & Hquiet & Hres)].
        -- left. split; [|exact Hres]. intros i Hi.
           destruct (decide (i = attempt)) as [->|Hne]; [|apply Hall; lia].
           rewrite Hw. unfold attempt_fails. by rewrite Hraise.
        -- right. exists k. split; [lia|]. split; [|exact Hres]. intros i Hi.
           destruct (decide (i = attempt)) as [->|Hne]; [|apply Hquiet; lia].
           rewrite Hw. unfold attempt_fails. by rewrite Hraise.
    + destruct (falsy answer || (length (strip answer) <? 10)%nat) eqn:Hempty.
      * assert (Hfail : attempt_fails (world attempt) = true) by (by rewrite Hw).
        destruct (Nat.ltb_spec attempt (retry_count - 1)) as [Hlt|Hge].
        -- destruct (IH (S attempt) ltac:(lia)) as [[Hall Hres]|(k & Hk & Hquiet & Hres)].
           ++ left. split; [|exact Hres]. intros i Hi.
              destruct (decide (i = attempt)) as [->|Hne]; [done|apply Hall; lia].
           ++ right. exists k. split; [lia|]. split; [|exact Hres]. intros i Hi.
              destruct (decide (i = attempt)) as [->|Hne]; [done|apply Hquiet; lia].
        -- left. split; [|reflexivity]. intros i Hi.
           assert (i = attempt) as -> by lia. done.
      * right. exists attempt. split; [lia|]. split; [intros i Hi; lia|]. right.
        exists answer, tokens. split; [done|]. split; [|done].
        unfold accepted. by rewrite Hempty.
Qed.

(** The loop is settled by the first attempt that does not fail
    quietly. *)
Lemma retry_loop_first_settled (retry_count k : nat) (world : nat -> http_outcome) :
  (k < retry_count)%nat ->
  (forall i, (i < k)%nat -> attempt_fails (world i) = true) ->
  retry_loop retry_count 0 retry_count world
  = retry_loop retry_count k (retry_count - k) world.
Proof.
  intros Hk Hquiet.
  rewrite (retry_loop_quiet retry_count world k 0 retry_count); [done|lia|lia|].
  intros i Hi. apply Hquiet. lia.
Qed.

End Retries.

(** X11. [generate_response] returns the first acceptable answer and
    hides the retries: when the token is there, the attempts before
    attempt [k < retry_count] fail quietly (an exception of the request
    without a failed token refresh, or an answer that is empty or shorter
    than 10 characters after trimming) and attempt [k] brings an answer of
    at least 10 characters after trimming, the call returns this answer,
    trimmed and cut to the target duration, with the token count of that
    attempt; what the later attempts would do does not matter. *)
Theorem X11_first_acceptable_answer_wins {U : UnicodeExt} (b : backend_call)
  (retry_count k : nat) (answer : pystr) (tokens : Z) :
  token_fails b = false ->
  (k < retry_count)%nat ->
  (forall i, (i < k)%nat -> attempt_fails (attempts b i) = true) ->
  attempts b k = HttpAnswer answer tokens ->
  falsy answer = false ->
  (10 <= length (strip answer))%nat ->
  generate_response b retry_count = Ok (shorten_answer (strip answer), tokens).
Proof.
  intros Htok Hk Hquiet Hanswer Hfull Hlen.
  unfold generate_response. rewrite Htok.
  rewrite (retry_loop_first_settled retry_count k (attempts b) Hk Hquiet).
  destruct (retry_count - k)%nat as [|todo] eqn:Htodo; [lia|].
  cbn [retry_loop]. rewrite Hanswer, Hfull.
  destruct (Nat.ltb_spec (length (strip answer)) 10) as [|_]; [lia|]. reflexivity.
Qed.

Lemma X11_first_acceptable_answer_wins_witness :
  let answer := py "  [РАДОСТЬ] Теломеры укорачиваются при каждом делении.  " in
  let b := {| token_fails := false;
              attempts := fun i => match i with
                                   | O => HttpFails true false
                                   | 1%nat => HttpAnswer (py " да ") 3
                                   | _ => HttpAnswer answer 42
                                   end |} in
  generate_response (U := plain_ext) b 3
  = Ok (py "[РАДОСТЬ] Теломеры укорачиваются при каждом делении.", 42).
Proof.
  intros answer b.
  rewrite (X11_first_acceptable_answer_wins (U := plain_ext) b 3 2 answer 42).
  - vm_compute. reflexivity.
  - reflexivity.
  - lia.
  - intros [|[|i]] Hi; [reflexivity|reflexivity|lia].
  - reflexivity.
  - reflexivity.
  - vm_compute. lia.
Defined.

(** X12. Every outcome of [generate_response], for every [retry_count].
    It raises when the token cannot be obtained; otherwise the first
    attempt that does not fail quietly settles the call: a failure with
    "401" in its message followed by a failed token refresh raises, an
    answer of at least 10 characters after trimming is returned (trimmed,
    cut to the target duration, with its token count).  When all
    [retry_count] attempts fail quietly (none at all for [retry_count = 0])
    the call returns the sentence "Извините, не удалось получить ответ от
    GigaChat." and 0 tokens.  No other exception and no other result
    occurs. *)
Theorem X12_outcomes_of_generate_response {U : UnicodeExt} (b : backend_call)
  (retry_count : nat) :
  (token_fails b = true /\ generate_response b retry_count = Raise RequestError)
  \/ (token_fails b = false
      /\ (forall i, (i < retry_count)%nat -> attempt_fails (attempts b i) = true)
      /\ generate_response b retry_count = Ok (NO_ANSWER, 0))
  \/ (token_fails b = false
      /\ exists k, (k < retry_count)%nat
           /\ (forall i, (i < k)%nat -> attempt_fails (attempts b i) = true)
           /\ ((attempts b k = HttpFails true true
                /\ generate_response b retry_count = Raise RequestError)
               \/ (exists answer tokens,
                     attempts b k = HttpAnswer answer tokens
                     /\ falsy answer = false /\ (10 <= length (strip answer))%nat
                     /\ generate_response b retry_count
                        = Ok (shorten_answer (strip answer), tokens)))).
Proof.
  unfold generate_response. destruct (token_fails b) eqn:Htok; [by left|].
  right.
  destruct (retry_loop_cases retry_count (attempts b) retry_count 0%nat eq_refl)
    as [[Hall Hres]|(k & Hk & Hquiet & Hres)].
  - left. split; [done|]. split; [|exact Hres]. intros i Hi. apply Hall. lia.
  - right. split; [done|]. exists k. split; [lia|].
    split; [intros i Hi; apply Hquiet; lia|].
    destruct Hres as [Hraise|(answer & tokens & Hw & Hacc & Hres)]; [by left|right].
    exists answer, tokens. split; [exact Hw|].
    unfold accepted in Hacc. apply negb_true_iff, orb_false_iff in Hacc as [Hfull Hlen].
    split; [exact Hfull|]. split; [|exact Hres].
    by apply Nat.ltb_ge in Hlen.
Qed.

(** ** Words between white space *)

Section SplitJoin.
Context {U : UnicodeExt}.

Lemma split_ws_words : forall (s cur : pystr),
  Forall (fun c => isspace c = false) cur ->
  Forall (fun w : pystr => w <> [] /\ Forall (fun c => isspace c = false) w)
         (split_ws cur s).
Proof.
  induction s as [|c r IH]; intros cur Hcur.
  - simpl. destruct cur; [constructor|]. constructor; [done|constructor].
  - cbn [split_ws]. destruct (isspace c) eqn:Hc.
    + apply Forall_app. split; [|apply IH; constructor].
      destruct cur; [constructor|]. constructor; [done|constructor].
    + apply IH. apply Forall_app. split; [done|]. by constructor.
Qed.

Lemma length_join_sp (ws : list pystr) :
  Forall (fun w : pystr => w <> []) ws -> (length ws <= length (join_sp ws))%nat.
Proof.
  induction 1 as [|w ws Hw _ IH]; [done|].
  destruct w as [|c w]; [done|].
  cbn [join_sp]. destruct ws as [|w' ws]; [simpl; lia|].
  rewrite length_app. simpl in *. lia.
Qed.

Lemma head_join_sp (w : pystr) (ws : list pystr) :
  w <> [] -> head (join_sp (w :: ws)) = head w.
Proof.
  intros Hw. destruct w as [|c w]; [done|]. by destruct ws.
Qed.

Lemma last_dots (s : pystr) : last (s ++ py "...") = Some 46.
Proof. change (py "...") with ([46; 46] ++ [46]). by rewrite app_assoc, last_snoc. Qed.

(** The answer cut to 90 words is not an empty reply. *)
Lemma cut_answer_is_trimmed (ws : list pystr) :
  Forall (fun w : pystr => w <> [] /\ Forall (fun c => isspace c = false) w) ws ->
  (90 < length ws)%nat ->
  strip (join_sp (take 90 ws) ++ py "...") = join_sp (take 90 ws) ++ py "..."
  /\ (93 <= length (join_sp (take 90 ws) ++ py "..."))%nat.
Proof.
  intros Hws Hlen.
  assert (Htake : Forall (fun w : pystr => w <> [] /\ Forall (fun c => isspace c = false) w)
                         (take 90 ws)) by (by apply Forall_take).
  assert (Hlen' : length (take 90 ws) = 90%nat) by (rewrite length_take; lia).
  split.
  - apply strip_fixed.
    + intros c Hc. destruct (take 90 ws) as [|w ws']; [done|].
      apply Forall_cons in Htake as [[Hw Hns] _].
      destruct w as [|x w]; [done|].
      assert (c = x) as -> by (destruct ws'; cbn [join_sp app head] in Hc; congruence).
      by apply Forall_cons in Hns as [? _].
    + intros c. rewrite last_dots. intros [= <-]. reflexivity.
  - rewrite length_app. change (length (py "...")) with 3%nat.
    assert (length (take 90 ws) <= length (join_sp (take 90 ws)))%nat; [|lia].
    apply length_join_sp. eapply Forall_impl; [exact Htake|]. by intros w [? _].
Qed.

Lemma shorten_answer_cases (s : pystr) :
  shorten_answer s = s
  \/ ((90 < length (split_ws [] s))%nat
      /\ 450 < _estimate_audio_duration s
      /\ shorten_answer s = join_sp (take 90 (split_ws [] s)) ++ py "...").
Proof.
  unfold shorten_answer.
  destruct (Z.ltb_spec 450 (_estimate_audio_duration s)) as [Hlong|]; [|by left].
  destruct (Nat.ltb_spec 90 (length (split_ws [] s))) as [Hwords|]; [|by left].
  right. done.
Qed.

Lemma generated_text_cases (b : backend_call) (retry_count : nat) (text : pystr) (tokens : Z) :
  generate_response b retry_count = Ok (text, tokens) ->
  text = NO_ANSWER
  \/ exists answer, (10 <= length (strip answer))%nat
                    /\ text = shorten_answer (strip answer).
Proof.
  unfold generate_response. destruct (token_fails b); [discriminate|].
  destruct (retry_loop_cases retry_count (attempts b) retry_count 0%nat eq_refl)
    as [[_ Hres]|(k & _ & _ & [[_ Hres]|(answer & t & _ & Hacc & Hres)])];
    rewrite Hres; intros [= <- <-]; [by left|right].
  exists answer. split; [|done].
  unfold accepted in Hacc. apply negb_true_iff, orb_false_iff in Hacc as [_ Hlen].
  by apply Nat.ltb_ge in Hlen.
Qed.

Lemma generated_text_not_empty (b : backend_call) (retry_count : nat) (text : pystr)
  (tokens : Z) :
  generate_response b retry_count = Ok (text, tokens) ->
  (5 <= length (strip text))%nat.
Proof.
  intros Hgen.
  destruct (generated_text_cases b retry_count text tokens Hgen)
    as [->|(answer & Hlen & ->)]; [vm_compute; lia|].
  destruct (shorten_answer_cases (strip answer)) as [->|(Hwords & _ & ->)].
  - rewrite strip_idempotent. lia.
  - destruct (cut_answer_is_trimmed (split_ws [] (strip answer))) as [-> Hcut];
      [by apply split_ws_words|done|lia].
Qed.

Lemma error_fallback_trimmed (a : pystr) : (5 <= length (strip (error_fallback a)))%nat.
Proof. unfold error_fallback. case_bool_decide; vm_compute; lia. Qed.

Lemma generate_or_fallback_not_empty (pb : PromptBuilder) (w : turn_world) (a : pystr)
  (is_first : bool) (topic : option pystr) :
  (5 <= length (strip (generate_or_fallback pb w a is_first topic).1))%nat.
Proof.
  unfold generate_or_fallback, try_generate.
  destruct (build_system_prompt _); [|apply error_fallback_trimmed].
  cbn [mbind result_bind].
  destruct (get_temperature pb a); [|apply error_fallback_trimmed].
  cbn [mbind result_bind].
  destruct (get_max_tokens pb a); [|apply error_fallback_trimmed].
  cbn [mbind result_bind].
  destruct (generate_response (backend w) 3) as [[text tokens]|x] eqn:Hgen;
    [|apply error_fallback_trimmed].
  by apply (generated_text_not_empty (backend w) 3 text tokens).
Qed.

End SplitJoin.

(** X13. The filler of the sanitizer is never needed for a text that
    comes from the backend.  Whatever [generate_response] returns, for any
    [retry_count], keeps at least 5 characters after trimming, and so does
    the fallback of [get_next_reply]: on the text that [get_next_reply]
    hands to [_validate_and_fix_reply] the test of step 1 is always false,
    and the sanitized text is the text after the cut and the two
    substitution passes. *)
Theorem X13_backend_text_never_needs_the_filler {U : UnicodeExt} (pb : PromptBuilder)
  (w : turn_world) (a : pystr) (is_first : bool) (topic : option pystr)
  (b : backend_call) (retry_count : nat) :
  match generate_response b retry_count with
  | Ok (text, _) => is_empty_reply text = false
  | Raise _ => True
  end
  /\ (let text := (generate_or_fallback pb w a is_first topic).1 in
      is_empty_reply text = false
      /\ _validate_and_fix_reply text a = fix_forbidden (fix_gender a (cap_length text))).
Proof.
  split.
  - destruct (generate_response b retry_count) as [[text tokens]|x] eqn:Hgen; [|done].
    apply not_empty_reply. by apply (generated_text_not_empty b retry_count text tokens).
  - intros text.
    assert (Hne : is_empty_reply text = false)
      by apply not_empty_reply, generate_or_fallback_not_empty.
    split; [exact Hne|]. unfold _validate_and_fix_reply. by rewrite Hne.
Qed.

(** ** Counting words *)

Section WordCount.
Context {U : UnicodeExt}.

Lemma split_ws_started (r : pystr) : forall (cur cur' : pystr),
  cur <> [] -> cur' <> [] -> length (split_ws cur r) = length (split_ws cur' r).
Proof.
  induction r as [|c r IH]; intros cur cur' Hcur Hcur'.
  - by destruct cur, cur'.
  - cbn [split_ws]. destruct (isspace c).
    + rewrite !length_app. by destruct cur, cur'.
    + apply IH; by destruct cur, cur'.
Qed.

Lemma split_ws_from_nil (r cur : pystr) :
  (length (split_ws [] r) <= length (split_ws cur r))%nat.
Proof.
  destruct r as [|c r]; [simpl; lia|].
  cbn [split_ws]. destruct (isspace c).
  - rewrite !length_app. simpl. lia.
  - destruct cur as [|x cur]; [done|].
    by rewrite (split_ws_started r ([] ++ [c]) ((x :: cur) ++ [c])).
Qed.

(** A part of a text has no more words than the text. *)
Lemma words_of_suffix (r : pystr) : forall (a cur : pystr),
  (length (split_ws [] r) <= length (split_ws cur (a ++ r)))%nat.
Proof.
  induction a as [|c a IH]; intros cur; [apply split_ws_from_nil|].
  cbn [app split_ws]. destruct (isspace c).
  - rewrite length_app. specialize (IH []). lia.
  - apply IH.
Qed.

Lemma split_ws_not_nil (c : pystr) : forall (cur : pystr),
  cur <> [] -> (1 <= length (split_ws cur c))%nat.
Proof.
  induction c as [|x c IH]; intros cur Hcur.
  - destruct cur; [done|simpl; lia].
  - cbn [split_ws]. destruct (isspace x).
    + rewrite length_app. destruct cur; [done|simpl; lia].
    + apply IH. by destruct cur.
Qed.

Lemma words_of_prefix (c : pystr) : forall (b cur : pystr),
  (length (split_ws cur b) <= length (split_ws cur (b ++ c)))%nat.
Proof.
  induction b as [|x b IH]; intros cur.
  - cbn [app]. destruct cur as [|y cur]; [simpl; lia|].
    change (length (split_ws (y :: cur) [])) with 1%nat. by apply split_ws_not_nil.
  - cbn [app split_ws]. destruct (isspace x).
    + rewrite !length_app. specialize (IH []). lia.
    + apply IH.
Qed.

Lemma words_of_strip (s : pystr) :
  (length (split_ws [] (strip s)) <= length (split_ws [] s))%nat.
Proof.
  unfold strip.
  destruct (lstrip_split s) as (p & Hs & _).
  destruct (rstrip_split (lstrip s)) as (q & Hl & _).
  etrans; [apply (words_of_prefix q)|]. rewrite <- Hl.
  rewrite Hs at 2. apply words_of_suffix.
Qed.

Lemma after_last_suffix (d : Z) (s : pystr) : exists p, s = p ++ after_last d s.
Proof.
  induction s as [|c r [p Hp]]; [by exists []|].
  cbn [after_last]. destruct (_ || _).
  - exists (c :: p). by rewrite Hp at 1.
  - by exists [].
Qed.

(** The words that [_estimate_audio_duration] counts are words of the
    text. *)
Lemma estimate_from_words (text : pystr) :
  exists words : nat,
    _estimate_audio_duration text = Z.max 20 ((10 * Z.of_nat words + 1) / 3)
    /\ (words <= length (split_ws [] text))%nat.
Proof.
  unfold _estimate_audio_duration. eexists. split; [reflexivity|].
  destruct (contains [93] (strip text)).
  - etrans; [apply words_of_strip|].
    destruct (after_last_suffix 93 (strip text)) as [p Hp].
    etrans; [|apply words_of_strip]. rewrite Hp at 2. apply words_of_suffix.
  - apply words_of_strip.
Qed.

Lemma estimate_bound (text : pystr) (n : nat) :
  (length (split_ws [] text) <= n)%nat ->
  _estimate_audio_duration text <= Z.max 20 ((10 * Z.of_nat n + 1) / 3).
Proof.
  intros Hn. destruct (estimate_from_words text) as (words & -> & Hwords).
  apply Z.max_le_compat_l, Z.div_le_mono; lia.
Qed.

(** [' '.join(words)] followed by characters that are not white space
    splits into as many words. *)
Lemma split_ws_nonspace (x : pystr) : forall (cur y : pystr),
  Forall (fun c => isspace c = false) x ->
  split_ws cur (x ++ y) = split_ws (cur ++ x) y.
Proof.
  induction x as [|c x IH]; intros cur y Hx; [by rewrite app_nil_r|].
  apply Forall_cons in Hx as [Hc Hx]. cbn [app split_ws]. rewrite Hc.
  rewrite IH by done. by rewrite <- app_assoc.
Qed.

Lemma split_join_length (t : pystr) :
  Forall (fun c => isspace c = false) t ->
  forall (ws : list pystr) (cur : pystr),
  Forall (fun w : pystr => w <> [] /\ Forall (fun c => isspace c = false) w) ws ->
  ws <> [] ->
  length (split_ws cur (join_sp ws ++ t)) = length ws.
Proof.
  intros Ht. induction ws as [|w ws IH]; intros cur Hws Hne; [done|].
  apply Forall_cons in Hws as [[Hw Hns] Hws].
  destruct ws as [|w' ws].
  - cbn [join_sp]. rewrite split_ws_nonspace by done.
    rewrite <- (app_nil_r t), split_ws_nonspace by done.
    destruct w; [done|]. by destruct cur.
  - change (join_sp (w :: w' :: ws)) with (w ++ 32 :: join_sp (w' :: ws)).
    rewrite <- app_assoc, split_ws_nonspace by done.
    cbn [app split_ws].
    assert (Hsp : isspace 32 = true) by reflexivity. rewrite Hsp.
    rewrite length_app, (IH [] Hws) by done.
    destruct w; [done|]. by destruct cur.
Qed.

Lemma dots_not_space : Forall (fun c => isspace c = false) (py "...").
Proof. repeat constructor. Qed.

Lemma cut_answer_words (s : pystr) :
  (90 < length (split_ws [] s))%nat ->
  length (split_ws [] (join_sp (take 90 (split_ws [] s)) ++ py "...")) = 90%nat.
Proof.
  intros Hwords.
  rewrite (split_join_length (py "...") dots_not_space).
  - rewrite length_take. lia.
  - apply Forall_take. by apply split_ws_words.
  - destruct (split_ws [] s); [simpl in Hwords; lia|done].
Qed.

(** An estimate above 45 seconds needs more than 90 words. *)
Lemma long_estimate_many_words (s : pystr) :
  450 < _estimate_audio_duration s -> (90 < length (split_ws [] s))%nat.
Proof.
  intros Hlong. destruct (Nat.lt_ge_cases 90 (length (split_ws [] s))) as [|Hle]; [done|].
  pose proof (estimate_bound s 90 Hle) as Hb.
  change (Z.max 20 ((10 * Z.of_nat 90 + 1) / 3)) with 300 in Hb. lia.
Qed.

Lemma shorten_answer_long (s : pystr) :
  450 < _estimate_audio_duration s ->
  shorten_answer s = join_sp (take 90 (split_ws [] s)) ++ py "...".
Proof.
  intros Hlong. pose proof (long_estimate_many_words s Hlong) as Hwords.
  unfold shorten_answer.
  destruct (Z.ltb_spec 450 (_estimate_audio_duration s)); [|lia].
  destruct (Nat.ltb_spec 90 (length (split_ws [] s))); [done|lia].
Qed.

Lemma shorten_answer_short (s : pystr) :
  _estimate_audio_duration s <= 450 -> shorten_answer s = s.
Proof.
  intros Hshort. unfold shorten_answer.
  destruct (Z.ltb_spec 450 (_estimate_audio_duration s)); [lia|done].
Qed.

Lemma cut_answer_estimate (s : pystr) :
  (90 < length (split_ws [] s))%nat ->
  _estimate_audio_duration (join_sp (take 90 (split_ws [] s)) ++ py "...") <= 300.
Proof.
  intros Hwords.
  pose proof (estimate_bound _ 90 (Nat.eq_le_incl _ _ (cut_answer_words s Hwords))) as Hb.
  change (Z.max 20 ((10 * Z.of_nat 90 + 1) / 3)) with 300 in Hb. exact Hb.
Qed.

Lemma shorten_answer_estimate (s : pystr) :
  _estimate_audio_duration (shorten_answer s) <= 450.
Proof.
  destruct (Z.le_gt_cases (_estimate_audio_duration s) 450) as [Hshort|Hlong].
  - by rewrite shorten_answer_short.
  - rewrite shorten_answer_long by lia.
    pose proof (cut_answer_estimate s (long_estimate_many_words s ltac:(lia))). lia.
Qed.

End WordCount.

(** X14. The answers are cut to the target duration.  An answer whose
    estimate is above 45 seconds (450 tenths) has more than 90 words, so
    the inner test of the cut never fails; [shorten_answer] then returns
    the first 90 words joined by single spaces and "...", which counts 90
    words and is estimated at 30 seconds at most; any other answer is
    returned as it is.  Whatever [generate_response] returns is
    estimated between 2 and 45 seconds. *)
Theorem X14_answers_are_cut_to_the_target_duration {U : UnicodeExt} (s : pystr)
  (b : backend_call) (retry_count : nat) :
  (if 450 <? _estimate_audio_duration s
   then (90 < length (split_ws [] s))%nat
        /\ shorten_answer s = join_sp (take 90 (split_ws [] s)) ++ py "..."
        /\ length (split_ws [] (shorten_answer s)) = 90%nat
        /\ _estimate_audio_duration (shorten_answer s) <= 300
   else shorten_answer s = s)
  /\ match generate_response b retry_count with
     | Ok (text, _) => 20 <= _estimate_audio_duration text <= 450
     | Raise _ => True
     end.
Proof.
  split.
  - destruct (Z.ltb_spec 450 (_estimate_audio_duration s)) as [Hlong|Hshort].
    + pose proof (long_estimate_many_words s Hlong) as Hwords.
      split; [exact Hwords|]. split; [by apply shorten_answer_long|].
      rewrite shorten_answer_long by done.
      split; [by apply cut_answer_words|by apply cut_answer_estimate].
    + by apply shorten_answer_short.
  - destruct (generate_response b retry_count) as [[text tokens]|x] eqn:Hgen; [|done].
    split; [unfold _estimate_audio_duration; lia|].
    destruct (generated_text_cases b retry_count text tokens Hgen)
      as [->|(answer & _ & ->)]; [vm_compute; discriminate|].
    apply shorten_answer_estimate.
Qed.

(** ** Replies and clean texts *)

(** X15. The text for the speech synthesis of every reply.  In a
    session that can run, whatever the backends do, the clean text of each
    reply is what [_extract_emotion] makes of the full text with the tags
    of the participant who speaks: the full text trimmed when none of the
    tags occurs in it, the full text without every occurrence of one of
    the tags, trimmed, otherwise.  It neither starts nor ends with white
    space and is never longer than the full text. *)
Theorem X15_speech_text_of_every_reply {U : UnicodeExt} (pb : PromptBuilder)
  (calls : list (option pystr * turn_world)) (dm : DialogManager) :
  session_ok pb dm ->
  exists rs dm',
    run_turns pb calls dm = Ok (rs, dm')
    /\ forall i r, rs !! i = Some r ->
         (exists cfg, agents pb !! reply_agent r = Some cfg
            /\ ((clean_text r = strip (full_text r)
                 /\ forall t, In t (map tag (emotions cfg)) ->
                              contains t (full_text r) = false)
                \/ (exists t, In t (map tag (emotions cfg))
                      /\ contains t (full_text r) = true
                      /\ clean_text r = strip (str_replace t [] (full_text r)))))
         /\ strip (clean_text r) = clean_text r
         /\ (forall c, head (clean_text r) = Some c \/ last (clean_text r) = Some c ->
                       isspace c = false)
         /\ (length (clean_text r) <= length (full_text r))%nat.
Proof.
  intros Hok.
  destruct (run_turns_effect pb calls dm Hok)
    as (rs & es & dm' & Hrun & Hlen & Hlen' & Heach & _).
  exists rs, dm'. split; [exact Hrun|]. intros i r Hi.
  assert (Hlt : (i < length rs)%nat) by (by apply lookup_lt_Some in Hi).
  destruct (lookup_lt_is_Some_2 calls i) as [call Hcall]; [lia|].
  destruct (lookup_lt_is_Some_2 es i) as [e He]; [lia|].
  destruct (Heach i call r e Hcall Hi He) as (_ & _ & _ & cfg & Hcfg & Hclean & _).
  rewrite Hclean. split; [|apply extracted_text_trimmed].
  exists cfg. split; [exact Hcfg|].
  destruct (extract_emotion_cases (full_text r) (map tag (emotions cfg)))
    as [(Hin & Hc & Heq)|(_ & Hnone & Heq)].
  - right. eexists. split; [exact Hin|]. split; [exact Hc|exact Heq].
  - left. split; [exact Heq|exact Hnone].
Qed.

Lemma X15_speech_text_of_every_reply_witness :
  let calls := [ (None, world_answers (py "  [РАДОСТЬ] Начнём с теломер!  ") 21 1);
                 (None, world_raises 2) ] in
  let dm := __init__ demo_config None 10 0 in
  session_ok demo_config dm
  /\ exists rs dm', run_turns (U := plain_ext) demo_config calls dm = Ok (rs, dm')
       /\ forall i r, rs !! i = Some r -> strip (U := plain_ext) (clean_text r) = clean_text r.
Proof.
  intros calls dm.
  assert (Hok : session_ok demo_config dm) by apply demo_session_ok.
  split; [exact Hok|].
  destruct (X15_speech_text_of_every_reply (U := plain_ext) demo_config calls dm Hok)
    as (rs & dm' & Hrun & Heach).
  exists rs, dm'. split; [exact Hrun|]. intros i r Hi.
  exact (proj1 (proj2 (Heach i r Hi))).
Defined.

(** X16. The sanitizer leaves a clean text alone, white space at its
    ends included: a text of at most 1000 characters that keeps at least 5
    after trimming, in which the pattern of no forbidden word matches and,
    for agent_2, the pattern of no gender rule matches, is returned as it
    is. *)
Theorem X16_clean_text_is_left_alone {U : UnicodeExt} (text agent_id : pystr) :
  (5 <= length (strip text))%nat ->
  (length text <= 1000)%nat ->
  (forall word, In word FORBIDDEN_WORDS -> re_search word text = false) ->
  (agent_id = py "agent_2" ->
   forall rule : pystr * pystr, In rule replacements -> re_search rule.1 text = false) ->
  _validate_and_fix_reply text agent_id = text.
Proof.
  intros Htrim Hlen Hwords Hrules.
  unfold _validate_and_fix_reply. rewrite (not_empty_reply text Htrim).
  assert (Hcap : cap_length text = text).
  { unfold cap_length. destruct (Nat.ltb_spec 1000 (length text)); [lia|done]. }
  rewrite Hcap.
  assert (Hgender : fix_gender agent_id text = text).
  { destruct (decide (agent_id = py "agent_2")) as [Ha|Ha].
    - apply fix_gender_no_match. by apply Hrules.
    - unfold fix_gender. by rewrite bool_decide_eq_false_2. }
  rewrite Hgender. by apply fix_forbidden_no_match.
Qed.

Lemma X16_clean_text_is_left_alone_witness :
  let text := py "  [ЛЮБОПЫТСТВО] Братья мои, я рада!  " in
  _validate_and_fix_reply (U := plain_ext) text (py "agent_2") = text.
Proof.
  intros text.
  apply (X16_clean_text_is_left_alone (U := plain_ext) text (py "agent_2")).
  - vm_compute. lia.
  - vm_compute. lia.
  - intros word Hin. repeat (destruct Hin as [<-|Hin]; [vm_compute; reflexivity|]).
    destruct Hin.
  - intros _ rule Hin. repeat (destruct Hin as [<-|Hin]; [vm_compute; reflexivity|]).
    destruct Hin.
Defined.

(** ** The transcript of a session *)



(** ** The stream loop *)

Section Streams.
Context {U : UnicodeExt}.


Lemma get_next_reply_unknown_agent (pb : PromptBuilder) (w : turn_world)
  (topic : option pystr) (dm : DialogManager) (a : pystr) (rest : list pystr) :
  agent_queue dm = a :: rest ->
  agents pb !! a = None ->
  get_next_reply pb w topic dm = Raise ValueError.
Proof.
  intros Hq Hcfg. unfold get_next_reply, get_next_agent. rewrite Hq.
  cbn [head of_option mbind result_bind]. unfold get_agent_config. by rewrite Hcfg.
Qed.

Lemma stream_loop_stuck (pb : PromptBuilder) (turns : Z) (topic : pystr)
  (worlds : nat -> round_world) :
  (forall i, running (worlds i) = true) ->
  forall (fuel i : nat) (dm : DialogManager),
  agent_queue dm <> [] ->
  (forall a, a ∈ agent_queue dm -> agents pb !! a = None) ->
  reply_count dm < turns ->
  stream_loop pb turns topic worlds fuel i dm = None.
Proof.
  intros Hrun. induction fuel as [|fuel IH]; intros i dm Hne Hnone Hcount; [done|].
  cbn [stream_loop]. rewrite Hrun.
  destruct (Z.ltb_spec (reply_count dm) turns) as [_|]; [|lia]. cbn [andb].
  destruct (agent_queue dm) as [|a rest] eqn:Hq; [done|].
  rewrite (get_next_reply_unknown_agent pb _ _ dm a rest Hq)
    by (apply Hnone, list_elem_of_here).
  destruct (get_next_agent_ok dm a rest Hq)
    as (dm1 & Hstep & Hq1 & _ & _ & Hr1 & _).
  unfold state_after_raise. rewrite Hstep. apply IH.
  - rewrite Hq1. by destruct rest.
  - intros b Hb. apply Hnone. rewrite Hq1 in Hb.
    apply elem_of_app in Hb as [Hb|Hb].
    + by apply list_elem_of_further.
    + apply list_elem_of_singleton in Hb. subst b. apply list_elem_of_here.
  - by rewrite Hr1.
Qed.

End Streams.



(** X19. The stream that never ends.  When the turn order is not empty
    and none of its participants is configured, every call of
    [get_next_reply] raises [ValueError] after the queue was rotated,
    [run_dialog_round] catches it, [reply_count] stays at 0 and the test of
    the loop stays true: for a positive number of turns [run_stream] makes
    rounds for as long as nobody stops it and generates no reply. *)
Theorem X19_stream_never_ends_without_participants {U : UnicodeExt} (pb : PromptBuilder)
  (turns : Z) (topic : pystr) (worlds : nat -> round_world) (now : Z) (dm : DialogManager) :
  turn_order dm <> [] ->
  (forall a, a ∈ turn_order dm -> agents pb !! a = None) ->
  0 < turns ->
  (forall i, running (worlds i) = true) ->
  forall fuel, run_stream pb turns topic worlds fuel now dm = None.
Proof.
  intros Hne Hnone Hturns Hrun fuel. unfold run_stream.
  by apply stream_loop_stuck.
Qed.

Lemma X19_stream_never_ends_without_participants_witness :
  let worlds := fun _ : nat =>
    {| running := true; turn := world_answers (py "[РАДОСТЬ] Начнём с теломер!") 21 1 |} in
  let dm := __init__ demo_config (Some [py "agent_3"]) 10 0 in
  run_stream (U := plain_ext) demo_config 6 (py "теломеры") worlds 1000 5 dm = None.
Proof.
  intros worlds dm.
  apply (X19_stream_never_ends_without_participants (U := plain_ext)).
  - discriminate.
  - intros a Ha. apply list_elem_of_singleton in Ha as ->. vm_compute. reflexivity.
  - lia.
  - reflexivity.
Defined.

(** ** Sanitizing twice *)

Section Twice.
Context {U : UnicodeExt}.
Hypothesis laws : unicode_laws U.
Hypothesis no_variants : no_case_variants U.



End Twice.



(** ** What the estimate of the duration counts *)

Section Estimate.
Context {U : UnicodeExt}.

Lemma lstrip_app_nonspace (c : Z) (y : pystr) : forall (x : pystr),
  isspace c = false -> lstrip (x ++ c :: y) = lstrip x ++ c :: y.
Proof.
  intros x Hc. induction x as [|d x IH].
  - simpl. by rewrite Hc.
  - cbn [app lstrip]. by destruct (isspace d).
Qed.

Lemma strip_around_nonspace (c : Z) (a r : pystr) :
  isspace c = false -> strip (a ++ c :: r) = lstrip a ++ c :: rstrip r.
Proof.
  intros Hc. unfold strip. rewrite lstrip_app_nonspace by done.
  unfold rstrip. rewrite rev_app_distr. cbn [rev]. rewrite <- app_assoc. cbn [app].
  rewrite lstrip_app_nonspace by done.
  rewrite rev_app_distr. cbn [rev]. rewrite <- app_assoc. cbn [app].
  by rewrite rev_involutive.
Qed.

Lemma after_last_none (d : Z) (y : pystr) :
  Forall (fun c => c <> d) y -> after_last d y = y.
Proof.
  intros Hy. destruct y as [|c y]; [done|].
  apply Forall_cons in Hy as [Hc Hy]. cbn [after_last].
  destruct (Z.eqb_spec c d) as [|_]; [done|].
  assert (Hall : forallb (fun x => negb (x =? d)) y = true).
  { apply forallb_forall. intros x Hx. rewrite Forall_forall in Hy.
    apply negb_true_iff, Z.eqb_neq, Hy. by apply list_elem_of_In. }
  by rewrite Hall.
Qed.

Lemma after_last_app (d : Z) (y : pystr) : forall (x : pystr),
  Forall (fun c => c <> d) y -> after_last d (x ++ d :: y) = y.
Proof.
  intros x Hy. induction x as [|c x IH].
  - cbn [app after_last]. rewrite Z.eqb_refl. cbn [orb]. by apply after_last_none.
  - cbn [app after_last].
    assert (Hocc : forallb (fun z => negb (z =? d)) (x ++ d :: y) = false).
    { apply not_true_is_false. intros Hall. rewrite forallb_forall in Hall.
      specialize (Hall d). rewrite Z.eqb_refl in Hall.
      discriminate Hall. apply in_or_app. right. by left. }
    rewrite Hocc. by rewrite orb_true_r.
Qed.

Lemma contains_here (d : Z) (x y : pystr) : contains [d] (x ++ d :: y) = true.
Proof.
  apply contains_app_r. cbn [contains starts_with]. by rewrite Z.eqb_refl.
Qed.

Lemma split_ws_spaces (q : pystr) : forall (cur : pystr),
  Forall (fun c => isspace c = true) q -> split_ws cur q = flush cur.
Proof.
  induction q as [|c q IH]; intros cur Hq; [done|].
  apply Forall_cons in Hq as [Hc Hq]. cbn [split_ws]. rewrite Hc.
  rewrite IH by done. apply app_nil_r.
Qed.

Lemma split_ws_trailing (q : pystr) : forall (x cur : pystr),
  Forall (fun c => isspace c = true) q -> split_ws cur (x ++ q) = split_ws cur x.
Proof.
  intros x. induction x as [|c x IH]; intros cur Hq.
  - cbn [app]. by rewrite split_ws_spaces.
  - cbn [app split_ws]. destruct (isspace c); by rewrite IH.
Qed.

Lemma split_ws_leading (s : pystr) : split_ws [] (lstrip s) = split_ws [] s.
Proof.
  induction s as [|c s IH]; [done|].
  cbn [lstrip split_ws]. destruct (isspace c) eqn:Hc; [exact IH|].
  cbn [split_ws]. by rewrite Hc.
Qed.

Lemma split_ws_rstrip (s : pystr) : split_ws [] (rstrip s) = split_ws [] s.
Proof.
  destruct (rstrip_split s) as (q & Hs & Hq).
  rewrite Hs at 2. by rewrite split_ws_trailing.
Qed.

(** Trimming changes no word. *)
Lemma split_ws_strip (s : pystr) : split_ws [] (strip s) = split_ws [] s.
Proof. unfold strip. by rewrite split_ws_rstrip, split_ws_leading. Qed.

Lemma rstrip_keeps_absent (d : Z) (r : pystr) :
  Forall (fun c => c <> d) r -> Forall (fun c => c <> d) (rstrip r).
Proof.
  intros Hr. destruct (rstrip_split r) as (q & Hs & _).
  rewrite Hs in Hr. by apply Forall_app in Hr as [? _].
Qed.

Lemma estimate_after_bracket (a r : pystr) :
  Forall (fun c => c <> 93) r ->
  _estimate_audio_duration (a ++ 93 :: r)
  = Z.max 20 ((10 * Z.of_nat (length (split_ws [] r)) + 1) / 3).
Proof.
  intros Hr. unfold _estimate_audio_duration.
  rewrite (strip_around_nonspace 93 a r) by reflexivity.
  rewrite contains_here.
  rewrite after_last_app by (by apply rstrip_keeps_absent).
  by rewrite split_ws_strip, split_ws_rstrip.
Qed.

Lemma estimate_without_bracket (s : pystr) :
  Forall (fun c => c <> 93) s ->
  _estimate_audio_duration s
  = Z.max 20 ((10 * Z.of_nat (length (split_ws [] s)) + 1) / 3).
Proof.
  intros Hs. unfold _estimate_audio_duration.
  assert (Hno : contains [93] (strip s) = false).
  { assert (Hstrip : Forall (fun c => c <> 93) (strip s)).
    { unfold strip. apply rstrip_keeps_absent.
      destruct (lstrip_split s) as (p & Hp & _). rewrite Hp in Hs.
      by apply Forall_app in Hs as [_ ?]. }
    induction (strip s) as [|c t IH]; [done|].
    apply Forall_cons in Hstrip as [Hc Ht]. cbn [contains starts_with].
    destruct (Z.eqb_spec 93 c) as [|_]; [congruence|]. by apply IH. }
  rewrite Hno. by rewrite split_ws_strip.
Qed.

End Estimate.

(** X21. What [_estimate_audio_duration] counts.  For a text without
    "]" the estimate comes from all its words; for a text with "]" only
    the words after the last "]" are counted, whatever stands before it.
    So a text that ends with "]" is estimated at 2 seconds however long it
    is, and the cut of [generate_response] leaves it as it is. *)
Theorem X21_estimate_counts_after_the_last_bracket {U : UnicodeExt} (a r : pystr) :
  Forall (fun c => c <> 93) r ->
  _estimate_audio_duration r
  = Z.max 20 ((10 * Z.of_nat (length (split_ws [] r)) + 1) / 3)
  /\ _estimate_audio_duration (a ++ py "]" ++ r) = _estimate_audio_duration r
  /\ _estimate_audio_duration (a ++ py "]") = 20
  /\ shorten_answer (a ++ py "]") = a ++ py "]".
Proof.
  intros Hr. change (py "]") with [93]. cbn [app].
  split; [by apply estimate_without_bracket|].
  split; [by rewrite estimate_after_bracket, estimate_without_bracket|].
  assert (Hend : _estimate_audio_duration (a ++ [93]) = 20)
    by (by rewrite estimate_after_bracket).
  split; [exact Hend|]. apply shorten_answer_short. lia.
Qed.

Lemma X21_estimate_counts_after_the_last_bracket_witness :
  let a := py "[РАДОСТЬ] раз два три четыре пять шесть семь восемь девять десять [конец" in
  _estimate_audio_duration (U := plain_ext) (py "раз два три четыре пять шесть семь") = 23
  /\ _estimate_audio_duration (U := plain_ext) (a ++ py "]") = 20.
Proof.
  intros a.
  assert (Hr : Forall (fun c => c <> 93) (py "раз два три четыре пять шесть семь")).
  { apply Forall_forall. intros c Hc. apply list_elem_of_In in Hc.
    vm_compute in Hc. intros ->. repeat (destruct Hc as [Hc|Hc]; [discriminate Hc|]).
    destruct Hc. }
  destruct (X21_estimate_counts_after_the_last_bracket (U := plain_ext) a
              (py "раз два три четыре пять шесть семь") Hr) as (Hall & _ & Hend & _).
  split; [rewrite Hall; vm_compute; reflexivity|exact Hend].
Defined.

(** * Runs of the model *)

Example py_decodes : py "я [A]" = [1103; 32; 91; 65; 93].
Proof. reflexivity. Qed.

Example sub_example {U : UnicodeExt} :
  re_sub (py "я уверен") (py "я уверена") (py "Я уверен, что прав") = py "я уверена, что прав".
Proof. vm_compute. reflexivity. Qed.

Example validate_example {U : UnicodeExt} :
  _validate_and_fix_reply (py "Привет, Дружище! Как дела?") (py "agent_1")
  = py "Привет, коллега! Как дела?".
Proof. vm_compute. reflexivity. Qed.

Example extract_example {U : UnicodeExt} :
  _extract_emotion (py "[JOY] Hello [JOY] [X]") [py "[SAD]"; py "[JOY]"] = (py "[JOY]", py "Hello  [X]").
Proof. vm_compute. reflexivity. Qed.
